(** * PFMBD2C backend: chunker, per-user vector index, ingestion and RAG core

    A shallow embedding of
      - [document/services/pdf_processor.py]   (class [PDFProcessor]),
      - [document/services/embedding_service.py] (class [EmbeddingService]),
      - [document/services/vector_db_service.py] (class [VectorDBService]),
      - [document/tasks.py]                     ([process_pdf_async]),
      - [chat/services/rag_service.py]          (class [RAGService]),
    followed by the properties of the specification that concern them.

    Conventions.  Python [int] is [Z]; [str] is [string], one [ascii] per
    character; a Python [dict] whose iteration order matters is an
    association list in insertion order ([pydict]); the database tables
    and the files under [vector_indexes/] are finite maps of a [World]
    that every operation threads; a raised exception is the [Raises]
    outcome of the monad [M], and what was written before the raise
    stays written. *)

From Stdlib Require Import ZArith Ascii String Lia.
From stdpp Require Import base option list sorting gmap strings pretty.

Local Open Scope string_scope.
Local Open Scope list_scope.
Local Open Scope Z_scope.

(** ** Python values *)

(** A vector of an embedding, as the services pass it around: a Python
    list of numbers.  The conversion to [float32] that the index
    service applies and the arithmetic of the index library on the
    converted values belong to numpy and faiss; they are the fields
    [float32] and [fvec_L2sqr] of the collaborators below. *)
Abbreviation vec := (list Z).

(** [dict]: association list in insertion order. *)
Abbreviation pydict K V := (list (K * V)).

Definition dict_keys {K V} (d : pydict K V) : list K := d.*1.

Fixpoint dict_get {K V} `{EqDecision K} (d : pydict K V) (k : K) : option V :=
  match d with
  | [] => None
  | (k', v) :: d' => if decide (k' = k) then Some v else dict_get d' k
  end.

(** [d[k] = v]: an existing key keeps its place, a new key goes last. *)
Fixpoint dict_set {K V} `{EqDecision K} (d : pydict K V) (k : K) (v : V)
  : pydict K V :=
  match d with
  | [] => [(k, v)]
  | (k', v') :: d' =>
      if decide (k' = k) then (k, v) :: d' else (k', v') :: dict_set d' k v
  end.

(** [enumerate(l, start)] *)
Fixpoint enumerate {A} (start : Z) (l : list A) : list (Z * A) :=
  match l with
  | [] => []
  | x :: l' => (start, x) :: enumerate (start + 1) l'
  end.

(** [zip(a, b)] stops at the shorter list. *)
Fixpoint pyzip {A B} (a : list A) (b : list B) : list (A * B) :=
  match a, b with
  | x :: a', y :: b' => (x, y) :: pyzip a' b'
  | _, _ => []
  end.

(** [len(s)] *)
Definition len (s : string) : Z := Z.of_nat (String.length s).

(** Index normalisation of a slice bound: a negative bound counts from
    the end, and both bounds are clamped to [0 .. len]. *)
Definition slice_bound (n i : Z) : Z :=
  if i <? 0 then Z.max 0 (i + n) else Z.min i n.

(** [s[i:j]] *)
Definition slice (s : string) (i j : Z) : string :=
  let n := len s in
  let a := slice_bound n i in
  let b := slice_bound n j in
  string_of_list_ascii
    (take (Z.to_nat (b - a)) (drop (Z.to_nat a) (list_ascii_of_string s))).

(** Characters removed by [str.strip()], among the first 256 code points. *)
Definition is_space (c : ascii) : bool :=
  let n := nat_of_ascii c in
  ((9 <=? n) && (n <=? 13) || (28 <=? n) && (n <=? 32)
   || (n =? 133) || (n =? 160))%nat.

Fixpoint lstrip (l : list ascii) : list ascii :=
  match l with
  | c :: l' => if is_space c then lstrip l' else l
  | [] => []
  end.

(** [s.strip()] *)
Definition strip (s : string) : string :=
  string_of_list_ascii
    (rev (lstrip (rev (lstrip (list_ascii_of_string s))))).

Definition newline : string := String (ascii_of_nat 10) EmptyString.

(** ** Exceptions and the state monad of the services *)

Inductive exn_class :=
  | PDFFileDoesNotExist
  | ChunkDoesNotExist
  | ChatSessionDoesNotExist
  | OtherException.

(** An exception: its class and [str(e)]. *)
Record exn := Exn { exn_cls : exn_class; exn_str : string }.

Global Instance exn_class_eq_dec : EqDecision exn_class.
Proof. solve_decision. Defined.

(** What a call does: it returns, it raises, or it is still running
    when the fuel given to the chunking loop is spent. *)
Inductive outcome (A : Type) :=
  | Returns (a : A)
  | Raises (e : exn)
  | Diverges.
Arguments Returns {A} a.
Arguments Raises {A} e.
Arguments Diverges {A}.

(** ** Data model ([document/models.py], [chat/models.py]) *)

Inductive Status := pending | processing | completed | failed.

Global Instance Status_eq_dec : EqDecision Status.
Proof. solve_decision. Defined.

(** A row of [pdf_files]; the JSON [metadata] only ever holds
    [{'error': msg}], kept as [Some msg]; [upload_date] is a point in
    time. *)
Record PDFFile := {
  pdf_user : Z;
  original_filename : string;
  file_path : string;
  upload_date : Z;
  processing_status : Status;
  page_count : option Z;
  total_chunks : Z;
  pdf_metadata : option string
}.

(** A row of [chunks]. *)
Record Chunk := {
  chunk_pdf : Z;
  chunk_user : Z;
  chunk_text : string;
  chunk_index : Z;
  page_number : Z;
  start_char : Z;
  end_char : Z;
  token_count : Z;
  vector_id : option string
}.

Inductive Role := role_user | role_assistant.

(** A row of [messages]. *)
Record Message := {
  msg_session : Z;
  msg_user : Z;
  msg_role : Role;
  msg_content : string;
  msg_chunk_ids : list Z
}.

(** Modelled from the spec: the exact-search structure the service
    stores per user is [faiss.IndexFlatL2], a third-party library that
    is not part of the repository.  It is the pair of its dimension
    and of the rows added so far, slot [i] being the [i]-th row
    (spec 4.3: squared Euclidean distance, exact search).  The library
    holds the [float32] image of every row; [faiss_xb] keeps the row
    as it was handed to [index.add] and the image is taken where the
    library reads the row, in the distances of a search. *)
Record FaissIndex := {
  faiss_d : nat;
  faiss_xb : list vec
}.

(** Calls to the external collaborators and writes of a PDF row, in the
    order they happen. *)
Inductive Event :=
  | ExtractCall (path : string)
  | EmbedCall (texts : list string)
  | GenerateCall (prompt : string)
  | PdfSaved (pdf_id : Z) (st : Status).

(** The database, the index directory and the trace of events. *)
Record World := {
  pdf_files : gmap Z PDFFile;
  chunks : gmap Z Chunk;
  next_chunk_id : Z;
  index_files : gmap Z FaissIndex;
  metadata_files : gmap Z (gmap Z Z);
  chat_sessions : gmap Z Z;  (* session id ↦ number of saves *)
  messages : list Message;
  events : list Event
}.

Definition M (A : Type) : Type := World → outcome A * World.

Global Instance M_ret : MRet M := λ A a w, (Returns a, w).
Global Instance M_bind : MBind M := λ A B f m w,
  match m w with
  | (Returns a, w') => f a w'
  | (Raises e, w') => (Raises e, w')
  | (Diverges, w') => (Diverges, w')
  end.

Definition raise {A} (e : exn) : M A := λ w, (Raises e, w).
Definition get_world : M World := λ w, (Returns w, w).
Definition modify (f : World → World) : M unit := λ w, (Returns tt, f w).

(** [try: body except cls: handler] for one class; [None] is
    [except Exception], which catches every class. *)
Definition try_except {A} (body : M A) (cls : option exn_class)
    (handler : exn → M A) : M A := λ w,
  match body w with
  | (Returns a, w') => (Returns a, w')
  | (Raises e, w') =>
      match cls with
      | None => handler e w'
      | Some c => if decide (exn_cls e = c) then handler e w'
                  else (Raises e, w')
      end
  | (Diverges, w') => (Diverges, w')
  end.

Definition add_event (e : Event) (w : World) : World :=
  {| pdf_files := pdf_files w; chunks := chunks w;
     next_chunk_id := next_chunk_id w;
     index_files := index_files w; metadata_files := metadata_files w;
     chat_sessions := chat_sessions w; messages := messages w;
     events := events w ++ [e] |}.

Definition log (e : Event) : M unit := modify (add_event e).

Definition set_chunks (f : gmap Z Chunk → gmap Z Chunk) (w : World) : World :=
  {| pdf_files := pdf_files w; chunks := f (chunks w);
     next_chunk_id := next_chunk_id w;
     index_files := index_files w; metadata_files := metadata_files w;
     chat_sessions := chat_sessions w; messages := messages w;
     events := events w |}.

Definition set_pdf_files (f : gmap Z PDFFile → gmap Z PDFFile) (w : World)
  : World :=
  {| pdf_files := f (pdf_files w); chunks := chunks w;
     next_chunk_id := next_chunk_id w;
     index_files := index_files w; metadata_files := metadata_files w;
     chat_sessions := chat_sessions w; messages := messages w;
     events := events w |}.

Definition set_index_dir (fi : gmap Z FaissIndex → gmap Z FaissIndex)
    (fm : gmap Z (gmap Z Z) → gmap Z (gmap Z Z)) (w : World) : World :=
  {| pdf_files := pdf_files w; chunks := chunks w;
     next_chunk_id := next_chunk_id w;
     index_files := fi (index_files w);
     metadata_files := fm (metadata_files w);
     chat_sessions := chat_sessions w; messages := messages w;
     events := events w |}.

(** *** Queries of the ORM *)

(** [chunk.pdf.upload_date]; a chunk has its document (foreign key). *)
Definition chunk_upload_date (w : World) (c : Chunk) : Z :=
  default 0 (upload_date <$> pdf_files w !! chunk_pdf c).

(** Default ordering of [Chunk] ([Meta.ordering = ['pdf', 'chunk_index']]).
    Ordering by the relation [pdf] is ordering by the default ordering
    of [PDFFile], [Meta.ordering = ['-upload_date']]: the chunks of the
    document uploaded last come first, and within one upload date the
    chunks go by ascending [chunk_index].  The database is free in the
    order of rows that agree on both; they are taken by ascending id. *)
Definition chunk_meta_le (w : World) (a b : Z * Chunk) : Prop :=
  chunk_upload_date w b.2 < chunk_upload_date w a.2
  ∨ (chunk_upload_date w a.2 = chunk_upload_date w b.2
     ∧ (chunk_index a.2 < chunk_index b.2
        ∨ (chunk_index a.2 = chunk_index b.2 ∧ a.1 ≤ b.1))).

Global Instance chunk_meta_le_dec w : RelDecision (chunk_meta_le w).
Proof. intros a b. unfold chunk_meta_le. apply _. Defined.

(** [.order_by('chunk_index')] *)
Definition chunk_index_le (a b : Z * Chunk) : Prop :=
  chunk_index a.2 ≤ chunk_index b.2.

Global Instance chunk_index_le_dec : RelDecision chunk_index_le.
Proof. intros a b. unfold chunk_index_le. apply _. Defined.

(** [Chunk.objects.filter(...)] with a predicate on the row, in the
    default ordering; a chunk object is the pair of its [id] and row. *)
Definition Chunk_objects_filter (p : Z → Chunk → bool) (w : World)
  : list (Z * Chunk) :=
  merge_sort (chunk_meta_le w)
    (filter (λ r, Is_true (p r.1 r.2)) (map_to_list (chunks w))).

(** [Chunk.objects.get(id=chunk_id)] *)
Definition Chunk_objects_get (chunk_id : Z) : M Chunk := λ w,
  match chunks w !! chunk_id with
  | Some c => (Returns c, w)
  | None =>
      (Raises (Exn ChunkDoesNotExist
                 "Chunk matching query does not exist."), w)
  end.

(** [chunk.save()] *)
Definition Chunk_save (chunk_id : Z) (c : Chunk) : M unit :=
  modify (set_chunks (insert chunk_id c)).

(** [PDFFile.objects.get(id=pdf_id)] *)
Definition PDFFile_objects_get (pdf_id : Z) : M PDFFile := λ w,
  match pdf_files w !! pdf_id with
  | Some p => (Returns p, w)
  | None =>
      (Raises (Exn PDFFileDoesNotExist
                 "PDFFile matching query does not exist."), w)
  end.

(** [pdf_file.save()] *)
Definition PDFFile_save (pdf_id : Z) (p : PDFFile) : M unit :=
  modify (set_pdf_files (insert pdf_id p)) ;;
  log (PdfSaved pdf_id (processing_status p)).

(** ** External collaborators *)

(** The embedding model, the PDF reader and the generation model are
    outside the repository.  A call either returns or raises; [inl msg]
    is a raise whose [str(e)] is [msg]. *)
Record Collaborators := {
  (** [SentenceTransformer.get_sentence_embedding_dimension()] *)
  dimension : nat;
  (** [SentenceTransformer.encode(texts)], one vector per text *)
  model_encode : list string → string + list vec;
  (** [PyPDF2.PdfReader(file).pages[i].extract_text()] for every page *)
  pdf_reader : string → string + list string;
  (** [client.models.generate_content(model, contents=prompt).text] *)
  generate_content : string → string + string;
  (** [np.array(x, dtype='float32')] on one component: the number the
      array holds for [x] *)
  float32 : Z → Z;
  (** The squared L2 distance that [IndexFlatL2] computes, in [float32]
      arithmetic, between two [float32] vectors, as a position in the
      order of the distances *)
  fvec_L2sqr : vec → vec → Z
}.

(** [np.array(v, dtype='float32')] *)
Definition to_float32 (env : Collaborators) (v : vec) : vec :=
  map (float32 env) v.

Definition lift {A} (o : outcome A) : M A := λ w, (o, w).

Definition other_exception {A} (msg : string) : outcome A :=
  Raises (Exn OtherException msg).

(** ** The index library *)

(** [faiss.IndexFlatL2(d)] *)
Definition IndexFlatL2 (d : nat) : FaissIndex :=
  {| faiss_d := d; faiss_xb := [] |}.

(** [index.ntotal] *)
Definition ntotal (index : FaissIndex) : Z :=
  Z.of_nat (length (faiss_xb index)).

(** [index.add(np.array(rows, dtype='float32'))].  The wrapper unpacks
    [n, d = x.shape] and asserts [d == self.d]: an empty batch has the
    one-dimensional shape [(0,)] and a row of another length breaks
    the shape or the assertion; both raise. *)
Definition faiss_add (index : FaissIndex) (rows : list vec)
  : outcome FaissIndex :=
  match rows with
  | [] => other_exception "not enough values to unpack (expected 2, got 1)"
  | _ =>
      if forallb (λ r, Nat.eqb (length r) (faiss_d index)) rows
      then Returns {| faiss_d := faiss_d index;
                      faiss_xb := faiss_xb index ++ rows |}
      else other_exception "AssertionError"
  end.

(** Squared Euclidean distance in exact arithmetic: what [float32]
    arithmetic gives on small integers. *)
Fixpoint l2sqr (x y : vec) : Z :=
  match x, y with
  | a :: x', b :: y' => (a - b) * (a - b) + l2sqr x' y'
  | _, _ => 0
  end.

(** Order of the results: ascending distance, ties by ascending slot
    (spec 4.3); the pairs are [(distance, slot)]. *)
Definition nearer (a b : Z * Z) : Prop :=
  a.1 < b.1 ∨ (a.1 = b.1 ∧ a.2 ≤ b.2).

Global Instance nearer_dec : RelDecision nearer.
Proof. intros a b. unfold nearer. apply _. Defined.

(** The slots in the order of the results for the query [q]: the
    distance is the one the library computes between the [float32]
    image of the query and the [float32] image of the row. *)
Definition ranked_slots (env : Collaborators) (index : FaissIndex) (q : vec)
  : list (Z * Z) :=
  merge_sort nearer
    (map (λ sv : Z * vec,
            (fvec_L2sqr env (to_float32 env q) (to_float32 env sv.2), sv.1))
         (enumerate 0 (faiss_xb index))).

(** [index.search(np.array([q], dtype='float32'), k)[1][0]]: the labels
    of the [k] nearest slots, padded with [-1] when the index holds
    fewer than [k] vectors.  The wrapper asserts the dimension of the
    query and [k > 0]. *)
Definition faiss_search (env : Collaborators) (index : FaissIndex) (q : vec)
    (k : Z) : outcome (list Z) :=
  if decide (length q = faiss_d index) then
    if decide (0 < k) then
      let top := take (Z.to_nat k) (ranked_slots env index q).*2 in
      Returns (top ++ replicate (Z.to_nat k - length top)%nat (-1))
    else other_exception "AssertionError"
  else other_exception "AssertionError".

Section Services.

Context (env : Collaborators).

(** ** [EmbeddingService] *)

(** [generate_embedding]; [encode] on one string is its batch form on
    the singleton. *)
Definition generate_embedding (text : string) : M vec :=
  log (EmbedCall [text]) ;;
  match model_encode env [text] with
  | inr (v :: _) => mret v
  | inr [] =>
      raise (Exn OtherException
               "Échec de génération de l'embedding: list index out of range")
  | inl msg =>
      raise (Exn OtherException
               ("Échec de génération de l'embedding: " +:+ msg))
  end.

(** [generate_embeddings_batch] *)
Definition generate_embeddings_batch (texts : list string) : M (list vec) :=
  log (EmbedCall texts) ;;
  match model_encode env texts with
  | inr embeddings => mret embeddings
  | inl msg =>
      raise (Exn OtherException
               ("Échec de génération des embeddings batch: " +:+ msg))
  end.

(** [generate_query_embedding] *)
Definition generate_query_embedding (query : string) : M vec :=
  generate_embedding query.

(** [embed_chunks] *)
Definition embed_chunks (chunk_objs : list (Z * Chunk)) : M (pydict Z vec) :=
  match chunk_objs with
  | [] => mret []
  | _ =>
      let texts := map (λ c, chunk_text c.2) chunk_objs in
      let chunk_ids := chunk_objs.*1 in
      embeddings ← generate_embeddings_batch texts;
      mret (foldl (λ d ce, dict_set d ce.1 ce.2) [] (pyzip chunk_ids embeddings))
  end.

(** ** [VectorDBService] *)

(** [_load_user_index] *)
Definition _load_user_index (user_id : Z) : M (FaissIndex * gmap Z Z) := λ w,
  match index_files w !! user_id with
  | Some index =>
      match metadata_files w !! user_id with
      | Some metadata => (Returns (index, metadata), w)
      | None => (Returns (index, ∅), w)
      end
  | None => (Returns (IndexFlatL2 (dimension env), ∅), w)
  end.

(** [_save_user_index] *)
Definition _save_user_index (user_id : Z) (index : FaissIndex)
    (metadata : gmap Z Z) : M unit :=
  modify (set_index_dir (insert user_id index) (insert user_id metadata)).

Definition with_vector_id (c : Chunk) (v : option string) : Chunk :=
  {| chunk_pdf := chunk_pdf c; chunk_user := chunk_user c;
     chunk_text := chunk_text c; chunk_index := chunk_index c;
     page_number := page_number c; start_char := start_char c;
     end_char := end_char c; token_count := token_count c;
     vector_id := v |}.

(** The loop of [add_embeddings] over [enumerate(chunk_ids)]: it fills
    the local [metadata] and writes [vector_id] back to the chunk row,
    passing over a chunk id that has no row. *)
Fixpoint record_slots (current_size : Z) (items : list (Z * Z))
    (metadata : gmap Z Z) : M (gmap Z Z) :=
  match items with
  | [] => mret metadata
  | (i, chunk_id) :: rest =>
      let faiss_idx := current_size + i in
      let metadata := <[faiss_idx := chunk_id]> metadata in
      try_except
        (chunk ← Chunk_objects_get chunk_id;
         Chunk_save chunk_id (with_vector_id chunk (Some (pretty faiss_idx))))
        (Some ChunkDoesNotExist)
        (λ _, mret tt) ;;
      record_slots current_size rest metadata
  end.

(** [add_embeddings] *)
Definition add_embeddings (user_id : Z) (chunk_embeddings : pydict Z vec)
  : M unit :=
  '(index, metadata) ← _load_user_index user_id;
  let chunk_ids := dict_keys chunk_embeddings in
  let vectors := omap (dict_get chunk_embeddings) chunk_ids in
  let current_size := ntotal index in
  index ← lift (faiss_add index vectors);
  metadata ← record_slots current_size (enumerate 0 chunk_ids) metadata;
  _save_user_index user_id index metadata.

(** [search] *)
Definition search (user_id : Z) (query_embedding : vec) (top_k : Z)
  : M (list Z) :=
  '(index, metadata) ← _load_user_index user_id;
  if decide (ntotal index = 0) then mret []
  else
    indices ← lift (faiss_search env index query_embedding
                      (Z.min top_k (ntotal index)));
    mret (omap (λ idx, metadata !! idx) indices).

(** [delete_pdf_vectors] *)
Definition delete_pdf_vectors (pdf_id user_id : Z) : M unit :=
  w ← get_world;
  let pdf_chunks :=
    Chunk_objects_filter
      (λ _ c, bool_decide (chunk_pdf c = pdf_id)
              && bool_decide (chunk_user c = user_id)) w in
  let chunk_ids_to_remove : gset Z := list_to_set pdf_chunks.*1 in
  if decide (chunk_ids_to_remove = ∅) then mret tt
  else
    '(index, metadata) ← _load_user_index user_id;
    let all_user_chunks :=
      Chunk_objects_filter
        (λ _ c, bool_decide (chunk_user c = user_id)
                && negb (bool_decide (chunk_pdf c = pdf_id))) w in
    if decide (length all_user_chunks = 0%nat) then
      modify (set_index_dir (delete user_id) (delete user_id))
    else
      let new_index := IndexFlatL2 (dimension env) in
      let new_metadata : gmap Z Z := ∅ in
      let chunks_list := all_user_chunks in
      chunk_embeddings ← embed_chunks chunks_list;
      let chunk_ids := dict_keys chunk_embeddings in
      let vectors := omap (dict_get chunk_embeddings) chunk_ids in
      new_index ← lift (faiss_add new_index vectors);
      let new_metadata :=
        foldl (λ m ic, <[ic.1 := ic.2]> m) new_metadata
              (enumerate 0 chunk_ids) in
      _save_user_index user_id new_index new_metadata.

End Services.

(** ** [PDFProcessor] *)

Record PDFProcessor := {
  chunk_size : Z;
  chunk_overlap : Z
}.

(** A dictionary of [create_chunks]. *)
Record ChunkInfo := {
  ci_text : string;
  ci_chunk_index : Z;
  ci_page_number : Z;
  ci_start_char : Z;
  ci_end_char : Z;
  ci_token_count : Z
}.

(** [re.sub(p+, rep, text)]: every maximal run of characters matching
    [p] becomes one [rep]. *)
Fixpoint collapse_runs (p : ascii → bool) (rep : ascii) (in_run : bool)
    (l : list ascii) : list ascii :=
  match l with
  | [] => []
  | c :: l' =>
      if p c then
        if in_run then collapse_runs p rep true l'
        else rep :: collapse_runs p rep true l'
      else c :: collapse_runs p rep false l'
  end.

Definition is_newline (c : ascii) : bool := Nat.eqb (nat_of_ascii c) 10.

(** [clean_text] *)
Definition clean_text (text : string) : string :=
  let text := collapse_runs is_space " "%char false (list_ascii_of_string text) in
  let text := collapse_runs is_newline (ascii_of_nat 10) false text in
  strip (string_of_list_ascii text).

(** [sentence_endings = ['.', '!', '?', '\n']] *)
Definition is_sentence_ending (c : ascii) : bool :=
  let n := nat_of_ascii c in
  (Nat.eqb n 46 || Nat.eqb n 33 || Nat.eqb n 63 || Nat.eqb n 10)%bool.

(** [for i in range(len(search_text) - 1, -1, -1)] over the reversed
    text: [i] is the index of the head. *)
Fixpoint rfind_ending (rl : list ascii) (i : Z) : option Z :=
  match rl with
  | [] => None
  | c :: rl' => if is_sentence_ending c then Some i else rfind_ending rl' (i - 1)
  end.

(** [_find_sentence_boundary], with [search_window = 100] *)
Definition _find_sentence_boundary (text : string) (position : Z) : Z :=
  let search_window := 100 in
  let search_start := Z.max 0 (position - search_window) in
  let search_end := Z.min (len text) (position + search_window) in
  let search_text := slice text search_start search_end in
  match rfind_ending (rev (list_ascii_of_string search_text))
                     (len search_text - 1) with
  | Some i => search_start + i + 1
  | None => position
  end.

(** [_get_page_for_position] *)
Fixpoint page_of_position (position : Z) (items : pydict Z (Z * Z))
  : option Z :=
  match items with
  | [] => None
  | (page_num, (s, e)) :: rest =>
      if decide (s ≤ position ∧ position < e) then Some page_num
      else page_of_position position rest
  end.

Definition _get_page_for_position (position : Z)
    (page_char_ranges : pydict Z (Z * Z)) : outcome Z :=
  match page_of_position position page_char_ranges with
  | Some page_num => Returns page_num
  | None =>
      match last (dict_keys page_char_ranges) with
      | Some page_num => Returns page_num
      | None => other_exception "list index out of range"
      end
  end.

(** [_estimate_tokens] *)
Definition _estimate_tokens (text : string) : Z := len text / 4.

(** [sorted(page_texts.items())] compares the page numbers (the keys of
    a dictionary are distinct). *)
Definition page_le (a b : Z * string) : Prop := a.1 ≤ b.1.

Global Instance page_le_dec : RelDecision page_le.
Proof. intros a b. unfold page_le. apply _. Defined.

(** The first loop of [create_chunks]: the concatenated text and the
    character range of every page. *)
Fixpoint concat_pages (items : list (Z * string)) (full_text : string)
    (page_char_ranges : pydict Z (Z * Z)) : string * pydict Z (Z * Z) :=
  match items with
  | [] => (full_text, page_char_ranges)
  | (page_num, page_text) :: rest =>
      let page_start := len full_text in
      let full_text := full_text +:+ page_text +:+ newline in
      let page_end := len full_text in
      concat_pages rest full_text
        (dict_set page_char_ranges page_num (page_start, page_end))
  end.

Section Chunker.

Context (self : PDFProcessor).

(** The end of the window that starts at [start]. *)
Definition window_end (full_text : string) (start : Z) : Z :=
  let end_ := start + chunk_size self in
  if decide (end_ < len full_text) then
    let sentence_end := _find_sentence_boundary full_text end_ in
    if decide (sentence_end > start) then sentence_end else end_
  else end_.

(** One turn of the [while] loop up to the update of [start]: the
    chunks and the chunk index after the turn. *)
Definition emit_chunk (full_text : string) (page_char_ranges : pydict Z (Z * Z))
    (start end_ chunk_index : Z) (chunk_list : list ChunkInfo)
  : outcome (list ChunkInfo * Z) :=
  let text := strip (slice full_text start end_) in
  if decide (text = "") then Returns (chunk_list, chunk_index)
  else
    let chunk_middle := start + (end_ - start) / 2 in
    match _get_page_for_position chunk_middle page_char_ranges with
    | Returns page_num =>
        Returns (chunk_list ++
                   [{| ci_text := text; ci_chunk_index := chunk_index;
                       ci_page_number := page_num;
                       ci_start_char := start; ci_end_char := end_;
                       ci_token_count := _estimate_tokens text |}],
                 chunk_index + 1)
    | Raises e => Raises e
    | Diverges => Diverges
    end.

(** The [while start < len(full_text)] loop; [None] when [fuel] turns
    were not enough to leave it. *)
Fixpoint chunk_loop (fuel : nat) (full_text : string)
    (page_char_ranges : pydict Z (Z * Z)) (start chunk_index : Z)
    (chunk_list : list ChunkInfo) : option (outcome (list ChunkInfo)) :=
  match fuel with
  | O => None
  | S fuel' =>
      if decide (start < len full_text) then
        let end_ := window_end full_text start in
        match emit_chunk full_text page_char_ranges start end_
                         chunk_index chunk_list with
        | Returns (chunk_list, chunk_index) =>
            let start := end_ - chunk_overlap self in
            if decide (start <= 0 ∨ start >= len full_text)
            then Some (Returns chunk_list)
            else chunk_loop fuel' full_text page_char_ranges start
                            chunk_index chunk_list
        | Raises e => Some (Raises e)
        | Diverges => Some Diverges
        end
      else Some (Returns chunk_list)
  end.

(** [create_chunks] *)
Definition create_chunks (fuel : nat) (page_texts : pydict Z string)
  : option (outcome (list ChunkInfo)) :=
  let '(full_text, page_char_ranges) :=
    concat_pages (merge_sort page_le page_texts) "" [] in
  chunk_loop fuel full_text page_char_ranges 0 0 [].

End Chunker.

Definition with_status (p : PDFFile) (st : Status) : PDFFile :=
  {| pdf_user := pdf_user p; original_filename := original_filename p;
     file_path := file_path p; upload_date := upload_date p;
     processing_status := st;
     page_count := page_count p; total_chunks := total_chunks p;
     pdf_metadata := pdf_metadata p |}.

Definition with_page_count (p : PDFFile) (n : Z) : PDFFile :=
  {| pdf_user := pdf_user p; original_filename := original_filename p;
     file_path := file_path p; upload_date := upload_date p;
     processing_status := processing_status p;
     page_count := Some n; total_chunks := total_chunks p;
     pdf_metadata := pdf_metadata p |}.

Definition with_total_chunks (p : PDFFile) (n : Z) : PDFFile :=
  {| pdf_user := pdf_user p; original_filename := original_filename p;
     file_path := file_path p; upload_date := upload_date p;
     processing_status := processing_status p;
     page_count := page_count p; total_chunks := n;
     pdf_metadata := pdf_metadata p |}.

(** [pdf_file.metadata = {'error': msg}] *)
Definition with_error (p : PDFFile) (msg : string) : PDFFile :=
  {| pdf_user := pdf_user p; original_filename := original_filename p;
     file_path := file_path p; upload_date := upload_date p;
     processing_status := processing_status p;
     page_count := page_count p; total_chunks := total_chunks p;
     pdf_metadata := Some msg |}.

(** [Chunk.objects.create(...)]: the row gets the next id of the table. *)
Definition Chunk_objects_create (c : Chunk) : M (Z * Chunk) := λ w,
  let chunk_id := next_chunk_id w in
  (Returns (chunk_id, c),
   {| pdf_files := pdf_files w; chunks := <[chunk_id := c]> (chunks w);
      next_chunk_id := chunk_id + 1;
      index_files := index_files w; metadata_files := metadata_files w;
      chat_sessions := chat_sessions w; messages := messages w;
      events := events w |}).

Section Ingestion.

Context (env : Collaborators).

(** [extract_text_from_pdf]: pages are numbered from 1. *)
Definition extract_text_from_pdf (pdf_path : string) : M (pydict Z string) :=
  log (ExtractCall pdf_path) ;;
  match pdf_reader env pdf_path with
  | inr pages => mret (enumerate 1 (map clean_text pages))
  | inl msg =>
      raise (Exn OtherException
               ("Échec de l'extraction de texte du PDF: " +:+ msg))
  end.

(** The loop of [process_and_save_chunks] that stores the chunks. *)
Fixpoint save_chunks (pdf_id user_id : Z) (chunk_data : list ChunkInfo)
  : M (list (Z * Chunk)) :=
  match chunk_data with
  | [] => mret []
  | chunk_info :: rest =>
      chunk ← Chunk_objects_create
        {| chunk_pdf := pdf_id; chunk_user := user_id;
           chunk_text := ci_text chunk_info;
           chunk_index := ci_chunk_index chunk_info;
           page_number := ci_page_number chunk_info;
           start_char := ci_start_char chunk_info;
           end_char := ci_end_char chunk_info;
           token_count := ci_token_count chunk_info;
           vector_id := None |};
      chunk_objects ← save_chunks pdf_id user_id rest;
      mret (chunk :: chunk_objects)
  end.

(** The chunker inside the monad: a loop that is still running when the
    fuel is spent diverges. *)
Definition run_chunker (self : PDFProcessor) (fuel : nat)
    (page_texts : pydict Z string) : M (list ChunkInfo) :=
  match create_chunks self fuel page_texts with
  | Some o => lift o
  | None => lift Diverges
  end.

(** The [except Exception as e] clause of [process_and_save_chunks]. *)
Definition mark_failed {A} (pdf_id : Z) (pdf_file : PDFFile) (e : exn) : M A :=
  let pdf_file := with_status pdf_file failed in
  let pdf_file := with_error pdf_file (exn_str e) in
  PDFFile_save pdf_id pdf_file ;;
  raise e.

(** [process_and_save_chunks].  [pdf_file] is one object that the body
    mutates and the handler reads: the handler is given the object as
    it stands where the exception can come from (before and after the
    assignment of [page_count]).  The object is returned with the
    chunks because the caller goes on using it. *)
Definition process_and_save_chunks (self : PDFProcessor) (fuel : nat)
    (pdf_id : Z) (pdf_file : PDFFile) : M (PDFFile * list (Z * Chunk)) :=
  let pdf_file := with_status pdf_file processing in
  page_texts ← try_except
        (PDFFile_save pdf_id pdf_file ;;
         extract_text_from_pdf (file_path pdf_file))
        None
        (mark_failed pdf_id pdf_file);
  let pdf_file := with_page_count pdf_file (Z.of_nat (length page_texts)) in
  try_except
    (chunk_data ← run_chunker self fuel page_texts;
     chunk_objects ← save_chunks pdf_id (pdf_user pdf_file) chunk_data;
     let pdf_file :=
       with_total_chunks pdf_file (Z.of_nat (length chunk_objects)) in
     let pdf_file := with_status pdf_file completed in
     PDFFile_save pdf_id pdf_file ;;
     mret (pdf_file, chunk_objects))
    None
    (mark_failed pdf_id pdf_file).

(** What [process_pdf_async] returns. *)
Inductive TaskResult :=
  | TaskNone
  | TaskCompleted (pdf_id total_chunks : Z)
  | TaskError (msg : string).

(** [process_pdf_async]; the processor is
    [PDFProcessor(chunk_size=800, chunk_overlap=100)]. *)
Definition process_pdf_async (fuel : nat) (pdf_id : Z) : M TaskResult :=
  try_except
    (try_except
       (pdf_file ← PDFFile_objects_get pdf_id;
        let pdf_processor := {| chunk_size := 800; chunk_overlap := 100 |} in
        '(pdf_file, chunk_objs) ←
          process_and_save_chunks pdf_processor fuel pdf_id pdf_file;
        match chunk_objs with
        | [] =>
            let pdf_file := with_status pdf_file failed in
            let pdf_file :=
              with_error pdf_file "Aucun texte n'a pu être extrait du PDF" in
            PDFFile_save pdf_id pdf_file ;;
            mret TaskNone
        | _ =>
            chunk_embeddings ← embed_chunks env chunk_objs;
            add_embeddings env (pdf_user pdf_file) chunk_embeddings ;;
            let pdf_file := with_status pdf_file completed in
            PDFFile_save pdf_id pdf_file ;;
            mret (TaskCompleted pdf_id (Z.of_nat (length chunk_objs)))
        end)
       (Some PDFFileDoesNotExist)
       (λ _, mret (TaskError ("PDF avec id " +:+ pretty pdf_id +:+ " introuvable"))))
    None
    (λ e,
       try_except
         (pdf_file ← PDFFile_objects_get pdf_id;
          let pdf_file := with_status pdf_file failed in
          let pdf_file := with_error pdf_file (exn_str e) in
          PDFFile_save pdf_id pdf_file)
         None
         (λ _, mret tt) ;;
       raise e).

End Ingestion.

(** ** [RAGService] *)

(** An entry of [sources]. *)
Record Source := {
  src_pdf_id : Z;
  src_pdf_filename : string;
  src_page_number : Z;
  src_chunk_text : string;
  src_chunk_id : Z
}.

(** The dictionary [ask_question] returns. *)
Record Answer := {
  answer : string;
  sources : list Source;
  chunk_ids : list Z
}.

(** The dictionary [generate_mindmap] returns. *)
Inductive MindMap :=
  | MindMapStructure (text : string)
  | MindMapError (msg : string).

Definition no_information_answer : string :=
  "Je n'ai pas pu trouver d'informations pertinentes dans vos documents pour répondre à cette question.".

Definition no_information_in_documents_answer : string :=
  "Aucune information pertinente trouvée dans les documents spécifiés.".

(** [_build_prompt] *)
Definition _build_prompt (question context : string) : string :=
  "Vous êtes un assistant IA utile qui répond aux questions basées UNIQUEMENT sur le contexte fourni à partir des documents PDF."
  +:+ newline +:+ newline +:+ "Contexte des documents:" +:+ newline
  +:+ context +:+ newline +:+ newline
  +:+ "Question de l'utilisateur: " +:+ question +:+ newline +:+ newline
  +:+ "Instructions:" +:+ newline
  +:+ "1. Répondez à la question en utilisant UNIQUEMENT les informations fournies dans le contexte ci-dessus" +:+ newline
  +:+ "2. Si le contexte ne contient pas suffisamment d'informations pour répondre à la question, dites-le clairement" +:+ newline
  +:+ "3. Soyez concis et précis" +:+ newline
  +:+ "4. Si vous référencez des informations spécifiques, mentionnez de quelle source elles proviennent" +:+ newline
  +:+ "5. Ne fabriquez pas et n'inférez pas d'informations qui ne sont pas explicitement mentionnées dans le contexte" +:+ newline
  +:+ newline +:+ "Réponse:".

(** [sep.join(parts)] *)
Fixpoint join (sep : string) (parts : list string) : string :=
  match parts with
  | [] => ""
  | [s] => s
  | s :: rest => s +:+ sep +:+ join sep rest
  end.

Section RAG.

Context (env : Collaborators).

(** [self.client.models.generate_content(model=..., contents=prompt).text] *)
Definition call_generate (prompt : string) : M string :=
  log (GenerateCall prompt) ;;
  match generate_content env prompt with
  | inr text => mret text
  | inl msg => raise (Exn OtherException msg)
  end.

(** [_build_context]; [chunk.pdf] follows the foreign key. *)
Fixpoint context_parts (items : list (Z * (Z * Chunk))) : M (list string) :=
  match items with
  | [] => mret []
  | (i, (_, chunk)) :: rest =>
      pdf ← PDFFile_objects_get (chunk_pdf chunk);
      parts ← context_parts rest;
      mret (("[Source " +:+ pretty i +:+ " - " +:+ original_filename pdf
             +:+ ", Page " +:+ pretty (page_number chunk) +:+ "]" +:+ newline
             +:+ chunk_text chunk +:+ newline) :: parts)
  end.

Definition _build_context (chunk_objs : list (Z * Chunk)) : M string :=
  parts ← context_parts (enumerate 1 chunk_objs);
  mret (join newline parts).

(** [_prepare_sources] *)
Fixpoint _prepare_sources (chunk_objs : list (Z * Chunk)) : M (list Source) :=
  match chunk_objs with
  | [] => mret []
  | (chunk_id, chunk) :: rest =>
      pdf ← PDFFile_objects_get (chunk_pdf chunk);
      srcs ← _prepare_sources rest;
      mret ({| src_pdf_id := chunk_pdf chunk;
               src_pdf_filename := original_filename pdf;
               src_page_number := page_number chunk;
               src_chunk_text := slice (chunk_text chunk) 0 200 +:+ "...";
               src_chunk_id := chunk_id |} :: srcs)
  end.

Definition Message_objects_create (m : Message) : M unit :=
  modify (λ w, {| pdf_files := pdf_files w; chunks := chunks w;
                  next_chunk_id := next_chunk_id w;
                  index_files := index_files w;
                  metadata_files := metadata_files w;
                  chat_sessions := chat_sessions w;
                  messages := messages w ++ [m];
                  events := events w |}).

(** [session = ChatSession.objects.get(id=session_id); session.save()] *)
Definition touch_session (session_id : Z) : M unit := λ w,
  match chat_sessions w !! session_id with
  | Some n =>
      (Returns tt,
       {| pdf_files := pdf_files w; chunks := chunks w;
          next_chunk_id := next_chunk_id w;
          index_files := index_files w; metadata_files := metadata_files w;
          chat_sessions := <[session_id := n + 1]> (chat_sessions w);
          messages := messages w; events := events w |})
  | None =>
      (Raises (Exn ChatSessionDoesNotExist
                 "ChatSession matching query does not exist."), w)
  end.

(** [_save_to_chat_history] *)
Definition _save_to_chat_history (session_id user_id : Z)
    (question answer_text : string) (ids : list Z) : M unit :=
  Message_objects_create
    {| msg_session := session_id; msg_user := user_id;
       msg_role := role_user; msg_content := question;
       msg_chunk_ids := [] |} ;;
  Message_objects_create
    {| msg_session := session_id; msg_user := user_id;
       msg_role := role_assistant; msg_content := answer_text;
       msg_chunk_ids := ids |} ;;
  try_except (touch_session session_id) (Some ChatSessionDoesNotExist)
             (λ _, mret tt).

(** Truth value of an optional list ([if pdf_ids:]) and of an optional
    integer ([if session_id:]). *)
Definition truthy_list {A} (o : option (list A)) : bool :=
  match o with Some (_ :: _) => true | _ => false end.

Definition truthy_int (o : option Z) : bool :=
  match o with Some n => negb (n =? 0) | None => false end.

(** Steps 3 of [ask_question]: the rows of the candidate ids that belong
    to the user (and to [pdf_ids] when given), put back in the order of
    the search. *)
Definition hydrate (user_id : Z) (pdf_ids : option (list Z))
    (candidate_ids : list Z) (w : World) : list (Z * Chunk) :=
  let chunk_rows :=
    Chunk_objects_filter
      (λ id c, bool_decide (id ∈ candidate_ids)
               && bool_decide (chunk_user c = user_id)) w in
  let chunk_rows :=
    if truthy_list pdf_ids then
      filter (λ r, chunk_pdf r.2 ∈ default [] pdf_ids) chunk_rows
    else chunk_rows in
  let chunks_dict := foldl (λ d r, dict_set d r.1 r.2) [] chunk_rows in
  omap (λ cid, pair cid <$> dict_get chunks_dict cid) candidate_ids.

(** [ask_question] *)
Definition ask_question (user_id : Z) (question : string)
    (session_id : option Z) (pdf_ids : option (list Z)) (top_k : Z)
  : M Answer :=
  query_embedding ← generate_query_embedding env question;
  candidate_ids ← search env user_id query_embedding top_k;
  match candidate_ids with
  | [] =>
      mret {| answer := no_information_answer; sources := []; chunk_ids := [] |}
  | _ =>
      w ← get_world;
      let ordered_chunks := hydrate user_id pdf_ids candidate_ids w in
      match ordered_chunks with
      | [] =>
          mret {| answer := no_information_in_documents_answer;
                  sources := []; chunk_ids := [] |}
      | _ =>
          context ← _build_context ordered_chunks;
          let prompt := _build_prompt question context in
          r ← try_except
                (text ← call_generate prompt; mret (inr text))
                None
                (λ e, mret (inl
                   {| answer := "Erreur lors de la génération de la réponse: "
                                +:+ exn_str e;
                      sources := []; chunk_ids := [] |}));
          match r with
          | inl degraded => mret degraded
          | inr answer_text =>
              srcs ← _prepare_sources ordered_chunks;
              (if truthy_int session_id then
                 _save_to_chat_history (default 0 session_id) user_id
                   question answer_text ordered_chunks.*1
               else mret tt) ;;
              mret {| answer := answer_text; sources := srcs;
                      chunk_ids := ordered_chunks.*1 |}
          end
      end
  end.

(** The chunks of one document of the user, [.order_by('chunk_index')]. *)
Definition document_chunks (pdf_id user_id : Z) (w : World) : list (Z * Chunk) :=
  merge_sort chunk_index_le
    (filter (λ r, chunk_pdf r.2 = pdf_id ∧ chunk_user r.2 = user_id)
            (map_to_list (chunks w))).

(** [combined_text] over [chunks[:n]] *)
Definition combined_text (n : nat) (chunk_objs : list (Z * Chunk)) : string :=
  foldl (λ acc r, acc +:+ chunk_text r.2 +:+ newline +:+ newline) ""
        (take n chunk_objs).

(** [generate_summary] *)
Definition generate_summary (user_id pdf_id : Z) : M string :=
  w ← get_world;
  match document_chunks pdf_id user_id w with
  | [] => mret "Aucun contenu trouvé à résumer."
  | chunk_objs =>
      let prompt :=
        "Veuillez fournir un résumé complet du contenu du document suivant:"
        +:+ newline +:+ newline +:+ combined_text 20 chunk_objs +:+ newline
        +:+ newline +:+ "Résumé:" in
      try_except (call_generate prompt) None
        (λ e, mret ("Erreur lors de la génération du résumé: " +:+ exn_str e))
  end.

(** [generate_mindmap].  The source passes the prompt under the keyword
    [ontents]; the call raises [TypeError] before it reaches the
    generation model. *)
Definition generate_mindmap (user_id pdf_id : Z) : M MindMap :=
  w ← get_world;
  match document_chunks pdf_id user_id w with
  | [] => mret (MindMapError "Aucun contenu trouvé")
  | _ :: _ =>
      try_except
        (text ← raise (A := string)
           (Exn OtherException
              "Models.generate_content() got an unexpected keyword argument 'ontents'");
         mret (MindMapStructure text))
        None
        (λ e, mret (MindMapError
           ("Erreur lors de la génération de la carte mentale: " +:+ exn_str e)))
  end.

End RAG.

(** ** Vocabulary of the properties *)

(** Chunk [c] has a row and the row is owned by user [u]. *)
Definition belongs_to_user (w : World) (c u : Z) : Prop :=
  ∃ row, chunks w !! c = Some row ∧ chunk_user row = u.

(** Chunk [c] has a row and the row is a chunk of document [d] of user [u]. *)
Definition belongs_to_document (w : World) (c d u : Z) : Prop :=
  ∃ row, chunks w !! c = Some row ∧ chunk_pdf row = d ∧ chunk_user row = u.

(** The two queries of [delete_pdf_vectors]: the chunks of document [d]
    of user [u], and the other chunks of [u]. *)
Definition chunks_of_document (d u : Z) (w : World) : list (Z * Chunk) :=
  Chunk_objects_filter
    (λ _ c, bool_decide (chunk_pdf c = d) && bool_decide (chunk_user c = u)) w.

Definition other_chunks_of_user (d u : Z) (w : World) : list (Z * Chunk) :=
  Chunk_objects_filter
    (λ _ c, bool_decide (chunk_user c = u)
            && negb (bool_decide (chunk_pdf c = d))) w.

(** The worlds differ at most in the [vector_id] of chunk rows. *)
Definition only_vector_ids_differ (w w' : World) : Prop :=
  pdf_files w' = pdf_files w
  ∧ next_chunk_id w' = next_chunk_id w
  ∧ index_files w' = index_files w
  ∧ metadata_files w' = metadata_files w
  ∧ chat_sessions w' = chat_sessions w
  ∧ messages w' = messages w
  ∧ events w' = events w
  ∧ ∀ c, (λ r, with_vector_id r None) <$> chunks w' !! c
         = (λ r, with_vector_id r None) <$> chunks w !! c.

(** The worlds differ at most in the events appended. *)
Definition only_events_added (w w' : World) : Prop :=
  pdf_files w' = pdf_files w
  ∧ chunks w' = chunks w
  ∧ next_chunk_id w' = next_chunk_id w
  ∧ index_files w' = index_files w
  ∧ metadata_files w' = metadata_files w
  ∧ chat_sessions w' = chat_sessions w
  ∧ messages w' = messages w
  ∧ ∃ new, events w' = events w ++ new.

(** The slot-to-chunk mapping after the loop of [add_embeddings]. *)
Definition slots_added (current_size : Z) (chunk_ids : list Z)
    (metadata : gmap Z Z) : gmap Z Z :=
  foldl (λ m ic, <[current_size + ic.1 := ic.2]> m) metadata
        (enumerate 0 chunk_ids).

(** Write operations on the index. *)
Inductive IndexOp :=
  | Add (user_id : Z) (chunk_embeddings : pydict Z vec)
  | DeleteForDocument (pdf_id user_id : Z).

Definition exec_op (env : Collaborators) (op : IndexOp) : M unit :=
  match op with
  | Add user_id chunk_embeddings => add_embeddings env user_id chunk_embeddings
  | DeleteForDocument pdf_id user_id => delete_pdf_vectors env pdf_id user_id
  end.

(** A sequence of operations, one after the other; an operation that
    raises leaves what it wrote and the next one runs. *)
Definition run_ops (env : Collaborators) (ops : list IndexOp) (w : World)
  : World :=
  foldl (λ w op, (exec_op env op w).2) w ops.

(** An [Add] passes to a user only chunk ids that no other user owns. *)
Definition own_ids_only (w : World) (op : IndexOp) : bool :=
  match op with
  | Add user_id chunk_embeddings =>
      forallb (λ c, match chunks w !! c with
                    | Some row => bool_decide (chunk_user row = user_id)
                    | None => true
                    end)
              (dict_keys chunk_embeddings)
  | DeleteForDocument _ _ => true
  end.

(** No stored mapping of a user holds a chunk that another user owns. *)
Definition isolated (w : World) : Prop :=
  ∀ u md s c row,
    metadata_files w !! u = Some md → md !! s = Some c →
    chunks w !! c = Some row → chunk_user row = u.

(** The chunk rows have the same owners in both worlds. *)
Definition same_owners (w w' : World) : Prop :=
  ∀ c, chunk_user <$> chunks w' !! c = chunk_user <$> chunks w !! c.

(** A batch that [add] accepts for an index of dimension [d]: not
    empty, every vector of length [d], and the keys of a dictionary
    are distinct. *)
Definition valid_batch (d : nat) (m : pydict Z vec) : bool :=
  negb (bool_decide (m = []))
  && forallb (λ kv, Nat.eqb (length kv.2) d) m
  && bool_decide (NoDup (dict_keys m)).

(** The statuses saved for document [pdf_id], in order. *)
Definition status_writes (pdf_id : Z) (evs : list Event) : list Status :=
  omap (λ e, match e with
             | PdfSaved id st => if decide (id = pdf_id) then Some st else None
             | _ => None
             end) evs.

(** The worlds have the same documents and the same saves of documents
    in their events. *)
Definition pdf_silent (w w' : World) : Prop :=
  pdf_files w' = pdf_files w
  ∧ ∀ pdf_id, status_writes pdf_id (events w') = status_writes pdf_id (events w).

(** The possible sequences of statuses that one run of the task saves. *)
Definition run_traces : list (list Status) :=
  [ [];
    [processing];
    [processing; failed; failed];
    [processing; completed; failed];
    [processing; completed; completed] ].

Definition status_rank (st : Status) : Z :=
  match st with
  | pending => 0
  | processing => 1
  | completed => 2
  | failed => 3
  end.

Definition status_le (a b : Status) : Prop := status_rank a ≤ status_rank b.

Definition is_embed_call (e : Event) : bool :=
  match e with EmbedCall _ => true | _ => false end.

Definition is_generate_call (e : Event) : bool :=
  match e with GenerateCall _ => true | _ => false end.

(** ** Sample collaborators and worlds *)

(** The [float32] nearest to an integer (24 bits of significand, ties
    to the even significand), for integers in the range of [float32]:
    every integer up to [2^24] in magnitude is kept, [16777217] becomes
    [16777216]. *)
Definition round_float32 (n : Z) : Z :=
  let a := Z.abs n in
  if a <? 2 ^ 24 then n
  else
    let e := Z.log2 a - 23 in
    let q := a / 2 ^ e in
    let r := a mod 2 ^ e in
    let half := 2 ^ (e - 1) in
    let q := if (half <? r) || ((r =? half) && Z.odd q) then q + 1 else q in
    Z.sgn n * (q * 2 ^ e).

(** An embedding model of dimension 1 (the length of the text), a
    reader that finds one empty page in every file, and a generation
    model that is out of quota; the arithmetic of the index on
    integers whose squared distances stay below [2^24], where
    [float32] arithmetic is exact. *)
Definition sample_env : Collaborators :=
  {| dimension := 1;
     model_encode := λ texts, inr (map (λ t, [len t]) texts);
     pdf_reader := λ _, inr [""];
     generate_content := λ _, inl "quota exceeded";
     float32 := round_float32;
     fvec_L2sqr := l2sqr |}.

Definition sample_chunk (pdf_id user_id : Z) (text : string) : Chunk :=
  {| chunk_pdf := pdf_id; chunk_user := user_id; chunk_text := text;
     chunk_index := 0; page_number := 1; start_char := 0;
     end_char := len text; token_count := len text / 4; vector_id := None |}.

Definition sample_pdf (user_id : Z) (name : string) : PDFFile :=
  {| pdf_user := user_id; original_filename := name;
     file_path := "media/pdfs/" +:+ name; upload_date := 0;
     processing_status := pending;
     page_count := None; total_chunks := 0; pdf_metadata := None |}.

(** User 1 owns document 10 with chunk 7, user 2 owns document 20 with
    chunk 8; nothing is indexed yet. *)
Definition two_users_world : World :=
  {| pdf_files := {[ 10 := sample_pdf 1 "a.pdf"; 20 := sample_pdf 2 "b.pdf" ]};
     chunks := {[ 7 := sample_chunk 10 1 "alpha"; 8 := sample_chunk 20 2 "beta" ]};
     next_chunk_id := 9;
     index_files := ∅; metadata_files := ∅;
     chat_sessions := ∅; messages := []; events := [] |}.

(** User 1 uploaded the same text twice: documents 10 and 11, chunks 7
    and 9; chunk 7 is indexed with the vector of the text. *)
Definition same_text_twice_world : World :=
  run_ops sample_env [Add 1 [(7, [5])]]
    {| pdf_files := {[ 10 := sample_pdf 1 "a.pdf"; 11 := sample_pdf 1 "a.pdf" ]};
       chunks := {[ 7 := sample_chunk 10 1 "alpha"; 9 := sample_chunk 11 1 "alpha" ]};
       next_chunk_id := 10;
       index_files := ∅; metadata_files := ∅;
       chat_sessions := ∅; messages := []; events := [] |}.

(** Document 5 of user 1 has no chunk (its ingestion failed) and the
    index of user 1 holds one vector, of a chunk id that has no row. *)
Definition stale_index_world : World :=
  run_ops sample_env [Add 1 [(99, [4])]]
    {| pdf_files := {[ 5 := sample_pdf 1 "empty.pdf" ]};
       chunks := ∅; next_chunk_id := 100;
       index_files := ∅; metadata_files := ∅;
       chat_sessions := ∅; messages := []; events := [] |}.

(** [two_users_world] with both chunks indexed. *)
Definition two_users_indexed_world : World :=
  run_ops sample_env [Add 1 [(7, [5])]; Add 2 [(8, [4])]] two_users_world.

(** The index of user 1 holds two vectors and its mapping one entry. *)
Definition mismatched_world : World :=
  {| pdf_files := {[ 10 := sample_pdf 1 "a.pdf" ]};
     chunks := {[ 7 := sample_chunk 10 1 "alpha" ]};
     next_chunk_id := 8;
     index_files := {[ 1 := {| faiss_d := 1; faiss_xb := [[0]; [9]] |} ]};
     metadata_files := {[ 1 := {[ 1 := 7 ]} ]};
     chat_sessions := ∅; messages := []; events := [] |}.

(** One page of 350 characters whose only sentence end is the full stop
    at offset 199, chunked with [chunk_size = 150], [chunk_overlap = 100]. *)
Definition stuck_page : string :=
  string_of_list_ascii
    (replicate 199 "a"%char ++ ["."%char] ++ replicate 150 "a"%char).

Definition stuck_processor : PDFProcessor :=
  {| chunk_size := 150; chunk_overlap := 100 |}.

(** Document 5 of user 1, just uploaded; the reader of [sample_env]
    finds one empty page in it. *)
Definition empty_pdf_world : World :=
  {| pdf_files := {[ 5 := sample_pdf 1 "empty.pdf" ]};
     chunks := ∅; next_chunk_id := 1;
     index_files := ∅; metadata_files := ∅;
     chat_sessions := ∅; messages := []; events := [] |}.

(** ** Vocabulary of the further properties *)

(** The character of [text] at index [k]. *)
Definition char_at (text : string) (k : Z) : option ascii :=
  if decide (0 ≤ k) then list_ascii_of_string text !! Z.to_nat k else None.

(** No sentence end at the indices [lo .. hi-1] of [text]. *)
Definition no_sentence_end_between (text : string) (lo hi : Z) : Prop :=
  ∀ k c, lo ≤ k → k < hi → char_at text k = Some c → is_sentence_ending c = false.

(** The text is made of whitespace only. *)
Definition blank (text : string) : bool :=
  forallb is_space (list_ascii_of_string text).

(** The text and the page ranges that [create_chunks] builds first. *)
Definition concatenated (page_texts : pydict Z string)
  : string * pydict Z (Z * Z) :=
  concat_pages (merge_sort page_le page_texts) "" [].

(** What [create_chunks] promises of a chunk, for a processor with a
    positive [chunk_size]: the text is the stripped slice of its
    offsets and is not empty, the token count is a quarter of its
    length, the offsets lie in the text and span between
    [chunk_size - 99] and [chunk_size + 100] characters, and the page
    is a page of the document. *)
Definition well_formed_chunk (self : PDFProcessor)
    (page_texts : pydict Z string) (c : ChunkInfo) : Prop :=
  let full_text := (concatenated page_texts).1 in
  ci_text c ≠ ""
  ∧ ci_text c = strip (slice full_text (ci_start_char c) (ci_end_char c))
  ∧ ci_token_count c = len (ci_text c) / 4
  ∧ 0 ≤ ci_start_char c ∧ ci_start_char c < len full_text
  ∧ ci_start_char c + chunk_size self - 99 ≤ ci_end_char c
  ∧ ci_end_char c ≤ ci_start_char c + chunk_size self + 100
  ∧ ci_start_char c < ci_end_char c
  ∧ ci_page_number c ∈ dict_keys page_texts.

(** Two pages with two sentences each, chunked with [chunk_size = 20]
    and [chunk_overlap = 5]. *)
Definition two_sentence_pages : pydict Z string :=
  [(1, "Sentence one. Sentence two. "); (2, "Sentence one. Sentence two. ")].

Definition small_processor : PDFProcessor :=
  {| chunk_size := 20; chunk_overlap := 5 |}.

Definition two_sentence_chunks : list ChunkInfo :=
  match create_chunks small_processor 10 two_sentence_pages with
  | Some (Returns chunk_list) => chunk_list
  | _ => []
  end.

(** [stuck_page] chunked with [chunk_size = 120] and [chunk_overlap = 10]. *)
Definition wide_processor : PDFProcessor :=
  {| chunk_size := 120; chunk_overlap := 10 |}.

Definition wide_chunks : list ChunkInfo :=
  match create_chunks wide_processor 10 [(1, stuck_page)] with
  | Some (Returns chunk_list) => chunk_list
  | _ => []
  end.

(** The only whitespace of the characters [l] is the space. *)
Definition spaces_only (l : list ascii) : Prop :=
  ∀ c, c ∈ l → is_space c = true → c = " "%char.

(** No two whitespace characters follow each other in [l]. *)
Definition no_double_space (l : list ascii) : Prop :=
  ∀ (i : nat) a b,
    l !! i = Some a → l !! S i = Some b → is_space a = true → is_space b = false.

(** [l] neither starts nor ends with whitespace. *)
Definition trimmed (l : list ascii) : Prop :=
  (∀ c, head l = Some c → is_space c = false)
  ∧ (∀ c, last l = Some c → is_space c = false).

(** The user whose index an operation writes. *)
Definition op_user (op : IndexOp) : Z :=
  match op with
  | Add user_id _ => user_id
  | DeleteForDocument _ user_id => user_id
  end.

(** The persisted pair of user [u] is whole: the two files are there
    together, and the slots that have a mapping entry are exactly the
    slots of the index. *)
Definition consistent_index (w : World) (u : Z) : Prop :=
  match index_files w !! u, metadata_files w !! u with
  | Some index, Some md => ∀ s, is_Some (md !! s) ↔ 0 ≤ s ∧ s < ntotal index
  | None, None => True
  | _, _ => False
  end.

(** The index of user 1 and its mapping in [same_text_twice_world] and
    in [two_users_indexed_world]. *)
Definition one_vector_index : FaissIndex := {| faiss_d := 1; faiss_xb := [[5]] |}.

Definition one_slot_mapping : gmap Z Z := {[ 0 := 7 ]}.

(** What a run of the ingestion task for document [pdf_id] of user [u]
    leaves as it was: the other documents, the chunk rows with an id
    below [bound], the index and mapping of the other users, and the
    chat; events are only appended. *)
Definition ingestion_frame (pdf_id u bound : Z) (w w' : World) : Prop :=
  (∀ id, id ≠ pdf_id → pdf_files w' !! id = pdf_files w !! id)
  ∧ (∀ id, id < bound → chunks w' !! id = chunks w !! id)
  ∧ (∀ u', u' ≠ u →
       index_files w' !! u' = index_files w !! u'
       ∧ metadata_files w' !! u' = metadata_files w !! u')
  ∧ chat_sessions w' = chat_sessions w
  ∧ messages w' = messages w
  ∧ ∃ new, events w' = events w ++ new.

(** The row that [ask_question] may use for a candidate id: the stored
    row, when it belongs to the user and, if documents are named, to
    one of them. *)
Definition visible_row (user_id : Z) (pdf_ids : option (list Z)) (w : World)
    (cid : Z) : option (Z * Chunk) :=
  match chunks w !! cid with
  | Some row =>
      if bool_decide (chunk_user row = user_id)
         && (negb (truthy_list pdf_ids)
             || bool_decide (chunk_pdf row ∈ default [] pdf_ids))
      then Some (cid, row) else None
  | None => None
  end.

(** [sample_env] with a generation model that answers. *)
Definition answering_env : Collaborators :=
  {| dimension := 1;
     model_encode := λ texts, inr (map (λ t, [len t]) texts);
     pdf_reader := λ _, inr [""];
     generate_content := λ _, inr "Le sujet est alpha.";
     float32 := round_float32;
     fvec_L2sqr := l2sqr |}.

(** [two_users_indexed_world] with chat session 1, and the exchange in
    which user 1 asks about the text of chunk 7 in that session. *)
Definition chat_world : World :=
  {| pdf_files := pdf_files two_users_indexed_world;
     chunks := chunks two_users_indexed_world;
     next_chunk_id := next_chunk_id two_users_indexed_world;
     index_files := index_files two_users_indexed_world;
     metadata_files := metadata_files two_users_indexed_world;
     chat_sessions := {[ 1 := 0 ]};
     messages := messages two_users_indexed_world;
     events := events two_users_indexed_world |}.

Definition sample_exchange : outcome Answer * World :=
  ask_question answering_env 1 "alpha?" (Some 1) None 5 chat_world.

Definition sample_answer : Answer :=
  match sample_exchange.1 with
  | Returns a => a
  | _ => {| answer := ""; sources := []; chunk_ids := [] |}
  end.

(** [sample_env] with a reader that finds one page of text in every
    file. *)
Definition reading_env : Collaborators :=
  {| dimension := 1;
     model_encode := λ texts, inr (map (λ t, [len t]) texts);
     pdf_reader := λ _, inr ["Alpha  beta. "];
     generate_content := λ _, inl "quota exceeded";
     float32 := round_float32;
     fvec_L2sqr := l2sqr |}.

(** The row that ingestion stores for a chunk of the chunker. *)
Definition chunk_row (pdf_id user_id : Z) (ci : ChunkInfo) : Chunk :=
  {| chunk_pdf := pdf_id; chunk_user := user_id;
     chunk_text := ci_text ci; chunk_index := ci_chunk_index ci;
     page_number := ci_page_number ci; start_char := ci_start_char ci;
     end_char := ci_end_char ci; token_count := ci_token_count ci;
     vector_id := None |}.

(** The chunks of the page that [reading_env] reads. *)
Definition reading_chunks : list ChunkInfo :=
  match create_chunks {| chunk_size := 800; chunk_overlap := 100 |} 10
          (enumerate 1 (map clean_text ["Alpha  beta. "])) with
  | Some (Returns l) => l
  | _ => []
  end.




(** User 1 uploaded documents 10, 11 and 12 in this order; each has
    one chunk (7, 9 and 12). *)
Definition sample_pdf_at (user_id : Z) (name : string) (date : Z) : PDFFile :=
  {| pdf_user := user_id; original_filename := name;
     file_path := "media/pdfs/" +:+ name; upload_date := date;
     processing_status := completed;
     page_count := Some 1; total_chunks := 1; pdf_metadata := None |}.

Definition three_uploads_world : World :=
  {| pdf_files := {[ 10 := sample_pdf_at 1 "a.pdf" 1;
                     11 := sample_pdf_at 1 "b.pdf" 2;
                     12 := sample_pdf_at 1 "c.pdf" 3 ]};
     chunks := {[ 7 := sample_chunk 10 1 "alpha";
                  9 := sample_chunk 11 1 "be";
                  12 := sample_chunk 12 1 "gamma" ]};
     next_chunk_id := 13;
     index_files := ∅; metadata_files := ∅;
     chat_sessions := ∅; messages := []; events := [] |}.

(** * Properties *)

(** ** Lists and dictionaries *)


Lemma enumerate_fst_snd {A} (l : list A) (s : Z) : (enumerate s l).*2 = l.
Proof. revert s. induction l as [|y l IH]; intros s; simpl; [done | by rewrite IH]. Qed.

Lemma pyzip_fst_subseteq {A B} (a : list A) (b : list B) x :
  x ∈ (pyzip a b).*1 → x ∈ a.
Proof.
  revert b. induction a as [|y a IH]; intros [|z b]; simpl; try (intros H; inversion H; fail).
  rewrite !elem_of_cons. intros [-> | H]; [by left | right; eauto].
Qed.

Lemma dict_set_keys {K V} `{EqDecision K} (d : pydict K V) k v x :
  x ∈ dict_keys (dict_set d k v) → x = k ∨ x ∈ dict_keys d.
Proof.
  unfold dict_keys. induction d as [|[k' v'] d IH]; simpl.
  - rewrite list_elem_of_singleton. by left.
  - destruct (decide (k' = k)) as [->|]; simpl; rewrite !elem_of_cons; [tauto|].
    intros [-> | H]; [by right; left | destruct (IH H); tauto].
Qed.

Lemma dict_of_pairs_keys {K V} `{EqDecision K} (l : list (K * V)) (d : pydict K V) x :
  x ∈ dict_keys (foldl (λ d ce, dict_set d ce.1 ce.2) d l) →
  x ∈ dict_keys d ∨ x ∈ l.*1.
Proof.
  revert d. induction l as [|[k v] l IH]; intros d; simpl; [by left|].
  intros H. destruct (IH _ H) as [H' | H'].
  - destruct (dict_set_keys _ _ _ _ H') as [-> | ?]; [right; by left | by left].
  - right. by right.
Qed.

Lemma omap_dict_get_cons {K V} `{EqDecision K} (d : pydict K V) k v (l : list K) :
  k ∉ l → omap (dict_get ((k, v) :: d)) l = omap (dict_get d) l.
Proof.
  intros Hk. apply list_omap_ext, Forall2_same_length_lookup_2; [done|].
  intros i x y Hx Hy. assert (x = y) by congruence. subst y. simpl.
  destruct (decide (k = x)) as [->|]; [|done].
  exfalso. apply Hk, list_elem_of_lookup. eauto.
Qed.

(** Reading every key of a dictionary gives its values, in order. *)
Lemma dict_values_in_order {K V} `{EqDecision K} (d : pydict K V) :
  NoDup (dict_keys d) → omap (dict_get d) (dict_keys d) = d.*2.
Proof.
  unfold dict_keys. induction d as [|[k v] d IH]; [done|].
  rewrite !fmap_cons. intros Hnd. apply NoDup_cons in Hnd as [Hk Hnd].
  cbn [omap list_omap dict_get fst snd]. destruct (decide (k = k)); [|done].
  f_equal. rewrite <- (IH Hnd). by apply omap_dict_get_cons.
Qed.

Lemma slots_foldl_lookup (f : Z * Z → Z) (items : list (Z * Z)) (md : gmap Z Z) s c :
  foldl (λ m ic, <[f ic := ic.2]> m) md items !! s = Some c →
  md !! s = Some c ∨ c ∈ items.*2.
Proof.
  revert md. induction items as [|[i c'] items IH]; intros md; simpl; [by left|].
  intros H. destruct (IH _ H) as [H' | H'].
  - rewrite lookup_insert in H'. case_decide.
    + injection H' as ->. right. by left.
    + by left.
  - right. by right.
Qed.

Lemma forallb_pointwise {A} (f g : A → bool) (l : list A) :
  (∀ x, f x = g x) → forallb f l = forallb g l.
Proof. intros H. induction l as [|x l IH]; simpl; [done | by rewrite H, IH]. Qed.

Lemma elem_of_Chunk_objects_filter (p : Z → Chunk → bool) w id row :
  (id, row) ∈ Chunk_objects_filter p w ↔ chunks w !! id = Some row ∧ p id row = true.
Proof.
  unfold Chunk_objects_filter.
  rewrite merge_sort_Permutation, list_elem_of_filter, elem_of_map_to_list.
  simpl. rewrite Is_true_true. tauto.
Qed.

(** ** The vector index: effects of the operations *)

Lemma only_vector_ids_differ_refl w : only_vector_ids_differ w w.
Proof. by repeat split. Qed.

Lemma only_vector_ids_differ_trans w1 w2 w3 :
  only_vector_ids_differ w1 w2 → only_vector_ids_differ w2 w3 →
  only_vector_ids_differ w1 w3.
Proof.
  intros (?&?&?&?&?&?&?&Hc1) (?&?&?&?&?&?&?&Hc2).
  repeat split; try congruence; intros c; by rewrite Hc2, Hc1.
Qed.

Lemma Chunk_save_vector_id c row v w :
  chunks w !! c = Some row →
  only_vector_ids_differ w (set_chunks (insert c (with_vector_id row v)) w).
Proof.
  intros Hc. repeat split; simpl. intros c'.
  rewrite lookup_insert. case_decide; [subst; by rewrite Hc | done].
Qed.

Lemma record_slots_effect n items md w :
  ∃ w', record_slots n items md w
        = (Returns (foldl (λ m ic, <[n + ic.1 := ic.2]> m) md items), w')
        ∧ only_vector_ids_differ w w'.
Proof.
  revert md w. induction items as [|[i c] items IH]; intros md w; simpl.
  - exists w. split; [done | apply only_vector_ids_differ_refl].
  - unfold mbind, M_bind, try_except, Chunk_objects_get at 1.
    destruct (chunks w !! c) as [row|] eqn:Hc; simpl.
    + destruct (IH (<[n + i := c]> md)
                  (set_chunks (insert c (with_vector_id row (Some (pretty (n + i))))) w))
        as (w' & -> & Hw').
      exists w'. split; [done|].
      eapply only_vector_ids_differ_trans; [|exact Hw'].
      by apply Chunk_save_vector_id.
    + destruct (IH (<[n + i := c]> md) w) as (w' & -> & Hw'). by exists w'.
Qed.

Section IndexFacts.

Context (env : Collaborators).

Lemma load_frame u w : (_load_user_index env u w).2 = w.
Proof.
  unfold _load_user_index.
  by destruct (index_files w !! u), (metadata_files w !! u).
Qed.

Lemma load_returns u w :
  ∃ index md, _load_user_index env u w = (Returns (index, md), w)
    ∧ (∀ s c, md !! s = Some c →
         ∃ md0, metadata_files w !! u = Some md0 ∧ md0 !! s = Some c).
Proof.
  unfold _load_user_index.
  destruct (index_files w !! u) as [index|];
    [destruct (metadata_files w !! u) as [md0|]|];
    eexists _, _; (split; [reflexivity|]); intros s c H;
    try (rewrite lookup_empty in H; discriminate).
  eauto.
Qed.

(** What [add_embeddings] does, from the pair it loads. *)
Lemma add_embeddings_effect u m w index md :
  _load_user_index env u w = (Returns (index, md), w) →
  (∃ e, faiss_add index (omap (dict_get m) (dict_keys m)) = Raises e
        ∧ add_embeddings env u m w = (Raises e, w))
  ∨ (∃ index' w1,
        faiss_add index (omap (dict_get m) (dict_keys m)) = Returns index'
        ∧ only_vector_ids_differ w w1
        ∧ add_embeddings env u m w
          = (Returns tt,
             set_index_dir (insert u index')
               (insert u (slots_added (ntotal index) (dict_keys m) md)) w1)).
Proof.
  intros Hload. unfold add_embeddings, mbind, M_bind. rewrite Hload.
  unfold lift.
  destruct (faiss_add index _) as [index'| e |] eqn:Hadd; simpl.
  - right.
    destruct (record_slots_effect (ntotal index) (enumerate 0 (dict_keys m)) md w)
      as (w1 & -> & Hw1).
    exists index', w1. split; [done|]. split; [done|]. reflexivity.
  - left. by exists e.
  - exfalso. unfold faiss_add in Hadd.
    destruct (omap _ _); [discriminate|].
    by destruct (forallb _ _).
Qed.

Lemma search_frame u q k w : (search env u q k w).2 = w.
Proof.
  unfold search, mbind, M_bind.
  destruct (load_returns u w) as (index & md & -> & _).
  destruct (decide (ntotal index = 0)); [done|]. unfold lift.
  by destruct (faiss_search _ _ _).
Qed.

(** Every id that [search] returns is a value of the stored mapping. *)
Lemma search_returns_mapped u q k w ids c :
  (search env u q k w).1 = Returns ids → c ∈ ids →
  ∃ md s, metadata_files w !! u = Some md ∧ md !! s = Some c.
Proof.
  unfold search, mbind, M_bind.
  destruct (load_returns u w) as (index & md & -> & Hmd).
  destruct (decide (ntotal index = 0)).
  - intros [= <-] H. inversion H.
  - unfold lift. destruct (faiss_search _ _ _) as [indices| |]; simpl; try done.
    intros [= <-] (s & _ & Hs)%list_elem_of_omap.
    destruct (Hmd _ _ Hs) as (md0 & ? & ?). eauto.
Qed.

End IndexFacts.

Lemma only_events_added_refl w : only_events_added w w.
Proof. repeat split. exists []. by rewrite app_nil_r. Qed.

Lemma only_events_added_log e w : only_events_added w (add_event e w).
Proof. repeat split. by exists [e]. Qed.

Section RebuildFacts.

Context (env : Collaborators).

Lemma generate_embeddings_batch_effect texts w :
  ∃ o, generate_embeddings_batch env texts w
       = (o, add_event (EmbedCall texts) w) ∧ o ≠ Diverges.
Proof.
  unfold generate_embeddings_batch, mbind, M_bind, log, modify. simpl.
  destruct (model_encode env texts); eexists; split; try reflexivity; done.
Qed.

Lemma embed_chunks_effect cs w :
  ∃ o w', embed_chunks env cs w = (o, w')
    ∧ only_events_added w w'
    ∧ o ≠ Diverges
    ∧ ∀ d c, o = Returns d → c ∈ dict_keys d → c ∈ cs.*1.
Proof.
  destruct cs as [|c0 cs].
  - exists (Returns []), w. split; [done|].
    split; [apply only_events_added_refl|]. split; [done|].
    intros d c [= <-] H. inversion H.
  - unfold embed_chunks, mbind, M_bind.
    destruct (generate_embeddings_batch_effect
                (map (λ c, chunk_text c.2) (c0 :: cs)) w) as (o & -> & Ho).
    destruct o as [embeddings| e |]; [| |done].
    + eexists _, _. split; [reflexivity|].
      split; [apply only_events_added_log|]. split; [done|].
      intros d c [= <-] Hc.
      apply dict_of_pairs_keys in Hc as [Hc | Hc]; [inversion Hc|].
      change (c ∈ (pyzip (c0 :: cs).*1 embeddings).*1) in Hc.
      by apply pyzip_fst_subseteq in Hc.
    + eexists _, _. split; [reflexivity|].
      split; [apply only_events_added_log|]. split; [done|]. intros; discriminate.
Qed.

(** What [delete_pdf_vectors] does: nothing when the document has no
    chunk of the user; the two files removed when the user has no
    other chunk; otherwise the index rebuilt from the other chunks of
    the user, unless the embedding or the index raises. *)
Lemma delete_pdf_vectors_effect d u w :
  (delete_pdf_vectors env d u w = (Returns tt, w)
   ∧ ∀ c, ¬ belongs_to_document w c d u)
  ∨ (delete_pdf_vectors env d u w
       = (Returns tt, set_index_dir (delete u) (delete u) w)
     ∧ (∃ c, belongs_to_document w c d u)
     ∧ ∀ c row, chunks w !! c = Some row → chunk_user row = u → chunk_pdf row = d)
  ∨ (∃ e w1, delete_pdf_vectors env d u w = (Raises e, w1)
     ∧ only_events_added w w1
     ∧ ∃ c row, chunks w !! c = Some row ∧ chunk_user row = u ∧ chunk_pdf row ≠ d)
  ∨ (∃ index md w1,
       delete_pdf_vectors env d u w
         = (Returns tt, set_index_dir (insert u index) (insert u md) w1)
       ∧ only_events_added w w1
       ∧ faiss_d index = dimension env
       ∧ (∀ s c, md !! s = Some c →
           ∃ row, chunks w !! c = Some row ∧ chunk_user row = u
                  ∧ chunk_pdf row ≠ d)
       ∧ ∃ c row, chunks w !! c = Some row ∧ chunk_user row = u ∧ chunk_pdf row ≠ d).
Proof.
  unfold delete_pdf_vectors, mbind, M_bind, get_world. cbv beta iota zeta.
  set (doc := Chunk_objects_filter
                (λ _ c, bool_decide (chunk_pdf c = d)
                        && bool_decide (chunk_user c = u)) w).
  set (others := Chunk_objects_filter
                (λ _ c, bool_decide (chunk_user c = u)
                        && negb (bool_decide (chunk_pdf c = d))) w).
  destruct (decide (list_to_set doc.*1 =@{gset Z} ∅)) as [Hempty | Hne].
  { left. split; [done|]. intros c (row & Hc & Hd & Hu).
    assert ((c, row) ∈ doc) as Hin.
    { apply elem_of_Chunk_objects_filter. split; [done|].
      by rewrite !bool_decide_eq_true_2. }
    apply (elem_of_equiv_empty_L (C := gset Z)) with (x := c) in Hempty.
    apply Hempty, elem_of_list_to_set, list_elem_of_fmap. by exists (c, row). }
  right.
  assert (∃ c, belongs_to_document w c d u) as Hdoc.
  { destruct doc as [|[c row] doc'] eqn:Hd; [by destruct Hne|].
    assert ((c, row) ∈ Chunk_objects_filter
              (λ _ c, bool_decide (chunk_pdf c = d) && bool_decide (chunk_user c = u)) w)
      as Hin by (fold doc; rewrite Hd; by left).
    apply elem_of_Chunk_objects_filter in Hin as [Hc Hp].
    apply andb_true_iff in Hp as [?%bool_decide_eq_true ?%bool_decide_eq_true].
    by exists c, row. }
  destruct (load_returns env u w) as (index0 & md0 & -> & _).
  destruct (decide (length others = 0%nat)) as [Hnone | Hsome].
  { left. split; [done|]. split; [done|].
    intros c row Hc Hu. destruct (decide (chunk_pdf row = d)) as [|Hnd]; [done|].
    apply nil_length_inv in Hnone.
    assert ((c, row) ∈ others) as Hin.
    { apply elem_of_Chunk_objects_filter. split; [done|].
      by rewrite bool_decide_eq_true_2, bool_decide_eq_false_2. }
    rewrite Hnone in Hin. inversion Hin. }
  right.
  assert (∃ c row, chunks w !! c = Some row ∧ chunk_user row = u ∧ chunk_pdf row ≠ d)
    as Hother.
  { destruct others as [|[c row] others'] eqn:Ho; [done|].
    assert ((c, row) ∈ Chunk_objects_filter
              (λ _ c, bool_decide (chunk_user c = u)
                      && negb (bool_decide (chunk_pdf c = d))) w)
      as Hin by (fold others; rewrite Ho; by left).
    apply elem_of_Chunk_objects_filter in Hin as [Hc Hp].
    apply andb_true_iff in Hp as [?%bool_decide_eq_true Hp].
    apply negb_true_iff, bool_decide_eq_false in Hp. by exists c, row. }
  destruct (embed_chunks_effect others w) as (o & w1 & -> & Hw1 & Hnd & Hkeys).
  destruct o as [ce | e |]; [| left; by exists e, w1 | done].
  unfold lift.
  destruct (faiss_add _ _) as [index'| e |] eqn:Hadd; simpl.
  - right. eexists index', _, w1. split; [reflexivity|]. split; [done|]. split.
    { unfold faiss_add in Hadd. destruct (omap _ _); [discriminate|].
      destruct (forallb _ _); [|discriminate]. by injection Hadd as <-. }
    split; [|done]. intros s c Hs.
    apply (slots_foldl_lookup (λ ic, ic.1)) in Hs as [Hs | Hs];
      [by rewrite lookup_empty in Hs|].
    rewrite enumerate_fst_snd in Hs.
    apply (Hkeys ce c eq_refl) in Hs.
    apply list_elem_of_fmap in Hs as ([c' row] & -> & Hin).
    apply elem_of_Chunk_objects_filter in Hin as [Hc Hp].
    apply andb_true_iff in Hp as [?%bool_decide_eq_true Hp].
    apply negb_true_iff, bool_decide_eq_false in Hp.
    by exists row.
  - left. by exists e, w1.
  - exfalso. unfold faiss_add in Hadd. destruct (omap _ _); [discriminate|].
    by destruct (forallb _ _).
Qed.

Lemma faiss_add_valid (index : FaissIndex) (rows : list vec) :
  rows ≠ [] →
  forallb (λ r, Nat.eqb (length r) (faiss_d index)) rows = true →
  faiss_add index rows
  = Returns {| faiss_d := faiss_d index; faiss_xb := faiss_xb index ++ rows |}.
Proof. intros Hne Hdim. unfold faiss_add. destruct rows; [done|]. by rewrite Hdim. Qed.

(** A valid batch is added: [add_embeddings] returns, the vectors are
    appended in the order of the dictionary and the slots recorded. *)
Lemma add_embeddings_valid u m w index md :
  _load_user_index env u w = (Returns (index, md), w) →
  valid_batch (faiss_d index) m = true →
  ∃ w1, only_vector_ids_differ w w1
    ∧ add_embeddings env u m w
      = (Returns tt,
         set_index_dir
           (insert u {| faiss_d := faiss_d index;
                        faiss_xb := faiss_xb index ++ m.*2 |})
           (insert u (slots_added (ntotal index) (dict_keys m) md)) w1).
Proof.
  intros Hload Hvalid. unfold valid_batch in Hvalid.
  apply andb_true_iff in Hvalid as [Hvalid Hnd%bool_decide_eq_true].
  apply andb_true_iff in Hvalid as [Hne Hdim].
  assert (faiss_add index (omap (dict_get m) (dict_keys m))
          = Returns {| faiss_d := faiss_d index;
                       faiss_xb := faiss_xb index ++ m.*2 |}) as Hadd.
  { rewrite dict_values_in_order by done. apply faiss_add_valid.
    - by destruct m.
    - clear -Hdim. induction m as [|[k v] m IH]; simpl in *; [done|].
      apply andb_true_iff in Hdim as [-> ?]. simpl. auto. }
  destruct (add_embeddings_effect env u m w index md Hload)
    as [(e & He & _) | (index' & w1 & Hadd' & Hw1 & ->)]; [congruence|].
  exists w1. split; [done|]. congruence.
Qed.

End RebuildFacts.

(** ** Isolation of the per-user indexes *)

Lemma same_owners_refl w : same_owners w w.
Proof. by intros c. Qed.

Lemma same_owners_trans w1 w2 w3 :
  same_owners w1 w2 → same_owners w2 w3 → same_owners w1 w3.
Proof. intros H1' H2' c. by rewrite H2', H1'. Qed.

Lemma only_vector_ids_differ_owners w w' :
  only_vector_ids_differ w w' → same_owners w w'.
Proof.
  intros (_&_&_&_&_&_&_&H) c. specialize (H c).
  destruct (chunks w' !! c), (chunks w !! c); simpl in *; try done.
  unfold with_vector_id in H. f_equal. congruence.
Qed.

Lemma only_events_added_owners w w' :
  only_events_added w w' → same_owners w w'.
Proof. intros (_&H&_) c. by rewrite H. Qed.

Lemma same_owners_lookup w w' c row' :
  same_owners w w' → chunks w' !! c = Some row' →
  ∃ row, chunks w !! c = Some row ∧ chunk_user row = chunk_user row'.
Proof.
  intros H Hc. specialize (H c). rewrite Hc in H.
  destruct (chunks w !! c) as [row|]; [|done].
  exists row. split; [done|]. by injection H.
Qed.

Lemma own_ids_only_same_owners w w' op :
  same_owners w w' → own_ids_only w' op = own_ids_only w op.
Proof.
  intros H. destruct op as [u m|]; [|done]. simpl.
  apply forallb_pointwise. intros c. specialize (H c).
  destruct (chunks w' !! c), (chunks w !! c); simpl in H; try done.
  by injection H as ->.
Qed.

Section Isolation.

Context (env : Collaborators).

Lemma add_embeddings_isolated u m w :
  isolated w → own_ids_only w (Add u m) = true →
  isolated (add_embeddings env u m w).2
  ∧ same_owners w (add_embeddings env u m w).2.
Proof.
  intros Hiso Hown.
  destruct (load_returns env u w) as (index & md & Hload & Hmd).
  destruct (add_embeddings_effect env u m w index md Hload)
    as [(e & _ & ->) | (index' & w1 & _ & Hw1 & ->)]; simpl.
  { split; [done | apply same_owners_refl]. }
  pose proof (only_vector_ids_differ_owners _ _ Hw1) as Hsame.
  split; [|done].
  intros u' md' s c row' Hu' Hs Hc. simpl in Hu', Hc.
  destruct (same_owners_lookup _ _ _ _ Hsame Hc) as (row & Hrow & <-).
  destruct Hw1 as (_&_&_&Hmeta&_).
  rewrite lookup_insert in Hu'. case_decide as Hcase.
  - subst u'. injection Hu' as <-. unfold slots_added in Hs.
    apply (slots_foldl_lookup (λ ic, ntotal index + ic.1)) in Hs as [Hs | Hs].
    + destruct (Hmd _ _ Hs) as (md0 & Hmd0 & Hs0). by eapply Hiso.
    + rewrite enumerate_fst_snd in Hs. simpl in Hown.
      rewrite forallb_forall in Hown.
      apply list_elem_of_In, Hown in Hs. rewrite Hrow in Hs.
      by apply bool_decide_eq_true in Hs.
  - rewrite Hmeta in Hu'. by eapply Hiso.
Qed.

Lemma delete_pdf_vectors_isolated d u w :
  isolated w →
  isolated (delete_pdf_vectors env d u w).2
  ∧ same_owners w (delete_pdf_vectors env d u w).2.
Proof.
  intros Hiso.
  destruct (delete_pdf_vectors_effect env d u w)
    as [[-> _] | [(-> & _) | [(e & w1 & -> & Hw1 & _) | (index & md & w1 & -> & Hw1 & _ & Hmd & _)]]];
    simpl.
  - split; [done | apply same_owners_refl].
  - split; [|by intros c].
    intros u' md' s c row Hu' Hs Hc. simpl in Hu', Hc.
    rewrite lookup_delete in Hu'. case_decide; [done|]. by eapply Hiso.
  - split; [|by apply only_events_added_owners].
    destruct Hw1 as (_&Hch&_&_&Hmeta&_).
    intros u' md' s c row Hu' Hs Hc. rewrite Hmeta in Hu'. rewrite Hch in Hc.
    by eapply Hiso.
  - split; [|by apply (only_events_added_owners w w1)].
    destruct Hw1 as (_&Hch&_&_&Hmeta&_).
    intros u' md' s c row Hu' Hs Hc. simpl in Hu', Hc. rewrite Hch in Hc.
    rewrite lookup_insert in Hu'. case_decide.
    + subst u'. injection Hu' as <-.
      destruct (Hmd _ _ Hs) as (row' & Hrow' & Hu & _). congruence.
    + rewrite Hmeta in Hu'. by eapply Hiso.
Qed.

Lemma exec_op_isolated op w :
  isolated w → own_ids_only w op = true →
  isolated (exec_op env op w).2 ∧ same_owners w (exec_op env op w).2.
Proof.
  destruct op as [u m | d u]; simpl; intros Hiso Hown.
  - by apply add_embeddings_isolated.
  - by apply delete_pdf_vectors_isolated.
Qed.

(** The invariant holds along every sequence of operations whose
    [Add]s pass only ids that no other user owns. *)
Lemma run_ops_isolated ops w :
  isolated w → forallb (own_ids_only w) ops = true →
  isolated (run_ops env ops w) ∧ same_owners w (run_ops env ops w).
Proof.
  revert w. induction ops as [|op ops IH]; intros w Hiso Hown; simpl in *.
  - split; [done | apply same_owners_refl].
  - apply andb_true_iff in Hown as [Hop Hops].
    destruct (exec_op_isolated op w Hiso Hop) as [Hiso' Hsame].
    destruct (IH (exec_op env op w).2 Hiso') as [Hiso'' Hsame'].
    + rewrite <- Hops. apply forallb_pointwise. intros op'.
      by apply own_ids_only_same_owners.
    + split; [done|]. by eapply same_owners_trans.
Qed.

Lemma isolated_no_mapping w : metadata_files w = ∅ → isolated w.
Proof. intros H u md s c row Hu. by rewrite H, lookup_empty in Hu. Qed.

End Isolation.

(** C1, as stated, fails: [add_embeddings] stores whatever chunk ids it
    is given.  After [add(1, {8: [0]})], where chunk 8 is owned by
    user 2, the search of user 1 returns chunk 8. *)
Lemma search_returns_foreign_chunk :
  let w := run_ops sample_env [Add 1 [(8, [0])]] two_users_world in
  (search sample_env 1 [0] 1 w).1 = Returns [8]
  ∧ belongs_to_user w 8 2.
Proof.
  split; [vm_compute; reflexivity|].
  eexists. split; [vm_compute; reflexivity | reflexivity].
Qed.

(** C1 (amended): starting from a store with no slot mapping, after any
    sequence of [add] and [delete_for_document] operations whose [add]s
    pass to a user only chunk ids that no other user owns, no chunk id
    returned by [search(A, v, k)] belongs to another user [B], for
    every [v] and [k]. *)
Theorem search_isolation (env : Collaborators) (w0 : World)
    (ops : list IndexOp) (A B : Z) (v : vec) (k : Z) (ids : list Z) :
  metadata_files w0 = ∅ →
  forallb (own_ids_only w0) ops = true →
  A ≠ B →
  (search env A v k (run_ops env ops w0)).1 = Returns ids →
  Forall (λ c, ¬ belongs_to_user (run_ops env ops w0) c B) ids.
Proof.
  intros Hempty Hown HAB Hsearch.
  destruct (run_ops_isolated env ops w0 (isolated_no_mapping w0 Hempty) Hown)
    as [Hiso _].
  apply Forall_forall. intros c Hc (row & Hrow & Hu).
  destruct (search_returns_mapped env A v k _ ids c Hsearch Hc)
    as (md & s & Hmd & Hs).
  apply HAB. rewrite <- Hu. symmetry. by eapply Hiso.
Qed.

Lemma search_isolation_witness :
  Forall (λ c, ¬ belongs_to_user
                   (run_ops sample_env
                      [Add 1 [(7, [0])]; Add 2 [(8, [0])];
                       DeleteForDocument 20 2; Add 2 [(8, [3])]]
                      two_users_world) c 2) [7].
Proof.
  apply (search_isolation sample_env two_users_world
           [Add 1 [(7, [0])]; Add 2 [(8, [0])];
            DeleteForDocument 20 2; Add 2 [(8, [3])]] 1 2 [0] 5 [7]).
  - reflexivity.
  - vm_compute; reflexivity.
  - lia.
  - vm_compute; reflexivity.
Defined.

(** ** Round trip through the index *)

Local Instance nearer_trans : Transitive nearer.
Proof. intros [a1 a2] [b1 b2] [c1 c2]. unfold nearer. simpl. lia. Qed.

Local Instance nearer_total : Total nearer.
Proof. intros [a1 a2] [b1 b2]. unfold nearer. simpl. lia. Qed.

Lemma l2sqr_nonneg (x y : vec) : 0 ≤ l2sqr x y.
Proof.
  revert y. induction x as [|a x IH]; intros [|b y]; simpl; try lia.
  specialize (IH y). pose proof (Z.square_nonneg (a - b)). lia.
Qed.

Lemma l2sqr_self (x : vec) : l2sqr x x = 0.
Proof. induction x as [|a x IH]; simpl; [done|]. rewrite IH. lia. Qed.





Section RoundTrip.

Context (env : Collaborators).


End RoundTrip.




(** The tie of C2 also comes from the conversion: [16777217] has the
    [float32] image [16777216], so a chunk indexed with [[16777216]]
    is found first by a search with [[16777217]] after another chunk
    was added with that very vector. *)
Lemma search_ties_on_float32_image :
  let w0 := run_ops sample_env [Add 1 [(7, [16777216])]] two_users_world in
  let w := (add_embeddings sample_env 1 [(9, [16777217])] w0).2 in
  (add_embeddings sample_env 1 [(9, [16777217])] w0).1 = Returns tt
  ∧ (search sample_env 1 [16777217] 1 w).1 = Returns [7].
Proof. split; vm_compute; reflexivity. Qed.

(** ** Deletion by rebuild *)

Lemma chunks_of_document_nonempty d u w :
  chunks_of_document d u w ≠ [] → ∃ c, belongs_to_document w c d u.
Proof.
  unfold chunks_of_document.
  destruct (Chunk_objects_filter _ w) as [|[c row] l] eqn:Hq; [done|]. intros _.
  assert ((c, row) ∈ Chunk_objects_filter
            (λ _ c, bool_decide (chunk_pdf c = d) && bool_decide (chunk_user c = u)) w)
    as Hin by (rewrite Hq; by left).
  apply elem_of_Chunk_objects_filter in Hin as [Hc Hp].
  apply andb_true_iff in Hp as [?%bool_decide_eq_true ?%bool_decide_eq_true].
  by exists c, row.
Qed.

Lemma other_chunks_of_user_empty d u w :
  other_chunks_of_user d u w = [] →
  ∀ c row, chunks w !! c = Some row → chunk_user row = u → chunk_pdf row = d.
Proof.
  intros Hq c row Hc Hu. destruct (decide (chunk_pdf row = d)) as [|Hnd]; [done|].
  assert ((c, row) ∈ other_chunks_of_user d u w) as Hin.
  { apply elem_of_Chunk_objects_filter. split; [done|].
    by rewrite bool_decide_eq_true_2, bool_decide_eq_false_2. }
  rewrite Hq in Hin. inversion Hin.
Qed.

(** C3, as stated, fails: [delete_pdf_vectors] returns at once when the
    document has no chunk of the user, before it looks at what
    remains.  User 1 has no chunk at all, and after
    [delete_for_document(5, 1)] the index and the mapping of user 1 are
    still there. *)
Lemma delete_keeps_index_of_chunkless_document :
  let w := stale_index_world in
  Chunk_objects_filter (λ _ c, bool_decide (chunk_user c = 1)) w = []
  ∧ delete_pdf_vectors sample_env 5 1 w = (Returns tt, w)
  ∧ is_Some (index_files w !! 1)
  ∧ is_Some (metadata_files w !! 1).
Proof.
  repeat split; try (vm_compute; reflexivity);
    eexists; vm_compute; reflexivity.
Qed.

(** C3 (amended): whenever [delete_for_document(d, u)] returns, no chunk
    id that a following [search(u, v, k)] returns belongs to document
    [d], for every [v] and [k]; and if [d] has at least one chunk of
    [u] and no other chunk of [u] remains, the call returns with the
    index and the mapping of [u] deleted, and a later [add] of a valid
    batch creates a fresh index holding exactly that batch. *)
Theorem delete_for_document_postcondition (env : Collaborators) (w : World)
    (d u : Z) :
  (∀ w' v k ids,
     delete_pdf_vectors env d u w = (Returns tt, w') →
     (search env u v k w').1 = Returns ids →
     Forall (λ c, ¬ belongs_to_document w' c d u) ids)
  ∧ (chunks_of_document d u w ≠ [] →
     other_chunks_of_user d u w = [] →
     ∃ w', delete_pdf_vectors env d u w = (Returns tt, w')
       ∧ index_files w' !! u = None
       ∧ metadata_files w' !! u = None
       ∧ ∀ m, valid_batch (dimension env) m = true →
           ∃ w'', add_embeddings env u m w' = (Returns tt, w'')
             ∧ index_files w'' !! u
               = Some {| faiss_d := dimension env; faiss_xb := m.*2 |}
             ∧ metadata_files w'' !! u
               = Some (slots_added 0 (dict_keys m) ∅)).
Proof.
  split.
  - intros w' v k ids Hdel Hsearch. apply Forall_forall.
    intros c Hc (row & Hrow & Hd & Hu).
    destruct (search_returns_mapped env u v k w' ids c Hsearch Hc)
      as (md & s & Hmd & Hs).
    destruct (delete_pdf_vectors_effect env d u w)
      as [[Heq Hnone] | [(Heq & _) | [(e & w1 & Heq & _) | (index & md' & w1 & Heq & Hw1 & _ & Hrows & _)]]];
      rewrite Heq in Hdel; try discriminate; injection Hdel as <-.
    + apply (Hnone c). by exists row.
    + simpl in Hmd. by rewrite lookup_delete_eq in Hmd.
    + simpl in Hmd, Hrow. rewrite lookup_insert_eq in Hmd. injection Hmd as <-.
      destruct Hw1 as (_ & Hch & _). rewrite Hch in Hrow.
      destruct (Hrows _ _ Hs) as (row' & Hrow' & _ & Hnd). congruence.
  - intros Hdoc Honly.
    apply chunks_of_document_nonempty in Hdoc.
    pose proof (other_chunks_of_user_empty _ _ _ Honly) as Honly'.
    clear Honly. rename Honly' into Honly.
    destruct (delete_pdf_vectors_effect env d u w)
      as [[_ Hnone] | [(Heq & _) | [(e & w1 & _ & _ & Hother) | (index & md' & w1 & _ & _ & _ & _ & Hother)]]].
    + destruct Hdoc as [c Hc]. by destruct (Hnone c).
    + eexists. split; [exact Heq|]. simpl. rewrite !lookup_delete_eq.
      split; [done|]. split; [done|]. intros m Hvalid.
      destruct (add_embeddings_valid env u m
                  (set_index_dir (delete u) (delete u) w)
                  (IndexFlatL2 (dimension env)) ∅) as (w1 & Hw1 & ->).
      { unfold _load_user_index. simpl. by rewrite lookup_delete_eq. }
      { done. }
      eexists. split; [reflexivity|]. simpl. by rewrite !lookup_insert_eq.
    + destruct Hother as (c & row & Hc & Hu & Hnd). by destruct (Hnd (Honly c row Hc Hu)).
    + destruct Hother as (c & row & Hc & Hu & Hnd). by destruct (Hnd (Honly c row Hc Hu)).
Qed.


Lemma delete_for_document_postcondition_witness :
  (∀ w' v k ids,
     delete_pdf_vectors sample_env 20 2 two_users_indexed_world = (Returns tt, w') →
     (search sample_env 2 v k w').1 = Returns ids →
     Forall (λ c, ¬ belongs_to_document w' c 20 2) ids)
  ∧ ∃ w', delete_pdf_vectors sample_env 20 2 two_users_indexed_world
          = (Returns tt, w')
      ∧ index_files w' !! 2 = None
      ∧ metadata_files w' !! 2 = None
      ∧ ∀ m, valid_batch (dimension sample_env) m = true →
          ∃ w'', add_embeddings sample_env 2 m w' = (Returns tt, w'')
            ∧ index_files w'' !! 2
              = Some {| faiss_d := dimension sample_env; faiss_xb := m.*2 |}
            ∧ metadata_files w'' !! 2 = Some (slots_added 0 (dict_keys m) ∅).
Proof.
  destruct (delete_for_document_postcondition sample_env
              two_users_indexed_world 20 2) as [Hsearch Hgone].
  split; [exact Hsearch|]. apply Hgone.
  - vm_compute. discriminate.
  - vm_compute. reflexivity.
Defined.

(** ** Loading an index whose mapping has another size *)

(** C9, as stated, fails: [_load_user_index] compares nothing.  With
    two vectors and one mapping entry the pair is loaded as it is and
    [search] answers from it, passing over the slot without entry. *)
Lemma load_accepts_mismatched_pair :
  let w := mismatched_world in
  ∃ index md,
    _load_user_index sample_env 1 w = (Returns (index, md), w)
    ∧ ntotal index = 2 ∧ size md = 1%nat
    ∧ search sample_env 1 [0] 2 w = (Returns [7], w).
Proof.
  eexists _, _. split; [vm_compute; reflexivity|].
  repeat split; vm_compute; reflexivity.
Qed.

(** C9 (amended): for every user whose persisted index and mapping
    disagree in size, loading returns the persisted pair as it is,
    without an error, and [search] answers from it: it returns the
    chunk ids that the mapping gives for the nearest slots and passes
    over the slots that have no entry. *)
Theorem load_serves_mismatched_pair (env : Collaborators) (w : World) (u : Z)
    (index : FaissIndex) (md : gmap Z Z) :
  index_files w !! u = Some index →
  metadata_files w !! u = Some md →
  Z.of_nat (size md) ≠ ntotal index →
  _load_user_index env u w = (Returns (index, md), w)
  ∧ ∀ q k, length q = faiss_d index → 0 < k →
      (ntotal index = 0 ∧ search env u q k w = (Returns [], w))
      ∨ (∃ slots,
           faiss_search env index q (Z.min k (ntotal index)) = Returns slots
           ∧ search env u q k w = (Returns (omap (λ s, md !! s) slots), w)).
Proof.
  intros Hindex Hmd _.
  assert (_load_user_index env u w = (Returns (index, md), w)) as Hload.
  { unfold _load_user_index. by rewrite Hindex, Hmd. }
  split; [done|]. intros q k Hq Hk.
  unfold search, mbind, M_bind. rewrite Hload.
  destruct (decide (ntotal index = 0)) as [Hz | Hnz]; [by left|]. right.
  unfold lift, faiss_search.
  destruct (decide (length q = faiss_d index)); [|done].
  destruct (decide (0 < Z.min k (ntotal index))) as [|Hmin].
  - eexists. split; reflexivity.
  - unfold ntotal in *. lia.
Qed.

Lemma load_serves_mismatched_pair_witness :
  _load_user_index sample_env 1 mismatched_world
  = (Returns ({| faiss_d := 1; faiss_xb := [[0]; [9]] |}, {[ 1 := 7 ]}),
     mismatched_world)
  ∧ ∀ q k, length q = 1%nat → 0 < k →
      (ntotal {| faiss_d := 1; faiss_xb := [[0]; [9]] |} = 0
       ∧ search sample_env 1 q k mismatched_world = (Returns [], mismatched_world))
      ∨ (∃ slots,
           faiss_search sample_env {| faiss_d := 1; faiss_xb := [[0]; [9]] |} q
             (Z.min k (ntotal {| faiss_d := 1; faiss_xb := [[0]; [9]] |}))
           = Returns slots
           ∧ search sample_env 1 q k mismatched_world
             = (Returns (omap (λ s, ({[ 1 := 7 ]} : gmap Z Z) !! s) slots),
                mismatched_world)).
Proof.
  apply (load_serves_mismatched_pair sample_env mismatched_world 1).
  - reflexivity.
  - reflexivity.
  - vm_compute. discriminate.
Defined.

(** ** Chunk ids without a row *)

Lemma slots_foldl_below (n s : Z) (ids : list Z) (md : gmap Z Z) (k : Z) :
  k < n + s →
  foldl (λ m ic, <[n + ic.1 := ic.2]> m) md (enumerate s ids) !! k = md !! k.
Proof.
  revert md s. induction ids as [|c ids IH]; intros md s Hk; simpl; [done|].
  rewrite IH by lia. apply lookup_insert_ne. lia.
Qed.

Lemma slots_foldl_at (n s : Z) (ids : list Z) (md : gmap Z Z) (i : nat) (c : Z) :
  ids !! i = Some c →
  foldl (λ m ic, <[n + ic.1 := ic.2]> m) md (enumerate s ids)
    !! (n + s + Z.of_nat i) = Some c.
Proof.
  revert md s i. induction ids as [|c0 ids IH]; intros md s [|i] Hi;
    simpl in *; try done.
  - injection Hi as ->. rewrite slots_foldl_below by lia.
    rewrite Z.add_0_r. apply lookup_insert_eq.
  - rewrite <- (IH (<[n + s := c0]> md) (s + 1) i Hi). f_equal. lia.
Qed.

Lemma slots_added_lookup (n : Z) (ids : list Z) (md : gmap Z Z) (i : nat) (c : Z) :
  ids !! i = Some c → slots_added n ids md !! (n + Z.of_nat i) = Some c.
Proof.
  intros Hi. unfold slots_added.
  replace (n + Z.of_nat i) with (n + 0 + Z.of_nat i) by lia.
  by apply slots_foldl_at.
Qed.

Lemma record_slots_cons (n s c0 : Z) (ids : list Z) (md : gmap Z Z) (w : World) :
  record_slots n (enumerate s (c0 :: ids)) md w
  = record_slots n (enumerate (s + 1) ids) (<[n + s := c0]> md)
      (match chunks w !! c0 with
       | Some row0 =>
           set_chunks (insert c0 (with_vector_id row0 (Some (pretty (n + s))))) w
       | None => w
       end).
Proof.
  simpl. unfold mbind, M_bind, try_except, Chunk_objects_get, Chunk_save, modify.
  by destruct (chunks w !! c0).
Qed.

(** The rows after the loop of [add_embeddings]: a chunk id of the
    batch that has a row gets its slot as [vector_id], every other row
    is as it was. *)
Lemma record_slots_rows (n s : Z) (ids : list Z) (md : gmap Z Z) (w : World) :
  NoDup ids →
  (∀ j c row, ids !! j = Some c → chunks w !! c = Some row →
     chunks (record_slots n (enumerate s ids) md w).2 !! c
     = Some (with_vector_id row (Some (pretty (n + (s + Z.of_nat j))))))
  ∧ (∀ c, c ∉ ids →
       chunks (record_slots n (enumerate s ids) md w).2 !! c = chunks w !! c).
Proof.
  revert s md w. induction ids as [|c0 ids IH]; intros s md w Hnd.
  { split; [intros j c row Hj; by destruct j | done]. }
  apply NoDup_cons in Hnd as [Hc0 Hnd]. rewrite record_slots_cons.
  match goal with |- context [record_slots n _ _ ?w0] =>
    destruct (IH (s + 1) (<[n + s := c0]> md) w0 Hnd) as [Hin Hout] end.
  split.
  - intros [|j] c row Hj Hrow; simpl in Hj.
    + injection Hj as <-. rewrite Hout by done. rewrite Hrow. simpl.
      by rewrite lookup_insert_eq, Z.add_0_r.
    + assert (c ≠ c0) as Hne.
      { intros ->. apply Hc0, list_elem_of_lookup. eauto. }
      rewrite (Hin j c row Hj).
      * do 4 f_equal. lia.
      * destruct (chunks w !! c0); [simpl; by rewrite lookup_insert_ne | done].
  - intros c Hc. apply not_elem_of_cons in Hc as [Hne Hc].
    rewrite Hout by done.
    destruct (chunks w !! c0); [simpl; by rewrite lookup_insert_ne | done].
Qed.

Lemma add_embeddings_valid_rows (env : Collaborators) u m w index md :
  _load_user_index env u w = (Returns (index, md), w) →
  valid_batch (faiss_d index) m = true →
  chunks (add_embeddings env u m w).2
  = chunks (record_slots (ntotal index) (enumerate 0 (dict_keys m)) md w).2.
Proof.
  intros Hload Hvalid.
  destruct (add_embeddings_effect env u m w index md Hload)
    as [(e & He & Heq) | (index' & w1 & Hadd & _ & Heq)].
  - destruct (add_embeddings_valid env u m w index md Hload Hvalid)
      as (w1 & _ & Heq'). congruence.
  - clear Heq. unfold add_embeddings, mbind, M_bind. rewrite Hload.
    unfold lift. rewrite Hadd. simpl.
    destruct (record_slots_effect (ntotal index) (enumerate 0 (dict_keys m)) md w)
      as (w' & -> & _). reflexivity.
Qed.

(** C10: a chunk id of the batch that has no stored row still gets its
    vector appended and its slot recorded, [add] returns, and no row is
    written for it; the chunk ids of the batch that have a row get
    their slot written back as [vector_id]. *)
Theorem add_keeps_chunk_without_row (env : Collaborators) (w : World)
    (u : Z) (m : pydict Z vec) (index : FaissIndex) (md : gmap Z Z)
    (i : nat) (c : Z) (v : vec) :
  _load_user_index env u w = (Returns (index, md), w) →
  valid_batch (faiss_d index) m = true →
  m !! i = Some (c, v) →
  chunks w !! c = None →
  ∃ w' index' md',
    add_embeddings env u m w = (Returns tt, w')
    ∧ index_files w' !! u = Some index'
    ∧ metadata_files w' !! u = Some md'
    ∧ faiss_xb index' !! (length (faiss_xb index) + i)%nat = Some v
    ∧ md' !! (ntotal index + Z.of_nat i) = Some c
    ∧ chunks w' !! c = None
    ∧ ∀ j c' v' row,
        m !! j = Some (c', v') → chunks w !! c' = Some row →
        chunks w' !! c'
        = Some (with_vector_id row (Some (pretty (ntotal index + Z.of_nat j)))).
Proof.
  intros Hload Hvalid Hi Hrow.
  pose proof (add_embeddings_valid_rows env u m w index md Hload Hvalid) as Hrows.
  destruct (add_embeddings_valid env u m w index md Hload Hvalid)
    as (w1 & Hw1 & Heq). rewrite Heq in Hrows. simpl in Hrows. rewrite Heq.
  exists (set_index_dir
            (insert u {| faiss_d := faiss_d index;
                         faiss_xb := faiss_xb index ++ m.*2 |})
            (insert u (slots_added (ntotal index) (dict_keys m) md)) w1),
         {| faiss_d := faiss_d index; faiss_xb := faiss_xb index ++ m.*2 |},
         (slots_added (ntotal index) (dict_keys m) md).
  split; [reflexivity|]. simpl.
  rewrite !lookup_insert_eq. split; [done|]. split; [done|].
  split; [|split; [|split]].
  - rewrite lookup_app_r by lia.
    replace (length (faiss_xb index) + i - length (faiss_xb index))%nat with i by lia.
    by rewrite list_lookup_fmap, Hi.
  - apply slots_added_lookup. unfold dict_keys. by rewrite list_lookup_fmap, Hi.
  - destruct Hw1 as (_&_&_&_&_&_&_&Hch). specialize (Hch c).
    rewrite Hrow in Hch. by destruct (chunks w1 !! c).
  - intros j c' v' row Hj Hrow'. rewrite Hrows.
    unfold valid_batch in Hvalid.
    apply andb_true_iff in Hvalid as [_ Hnd%bool_decide_eq_true].
    destruct (record_slots_rows (ntotal index) 0 (dict_keys m) md w Hnd) as [Hin _].
    rewrite (Hin j c' row); [by rewrite Z.add_0_l | | done].
    unfold dict_keys. by rewrite list_lookup_fmap, Hj.
Qed.

Lemma add_keeps_chunk_without_row_witness :
  ∃ w' index' md',
    add_embeddings sample_env 1 [(7, [5]); (99, [4])] two_users_world
    = (Returns tt, w')
    ∧ index_files w' !! 1 = Some index'
    ∧ metadata_files w' !! 1 = Some md'
    ∧ faiss_xb index' !! (length (faiss_xb (IndexFlatL2 1)) + 1)%nat = Some [4]
    ∧ md' !! (ntotal (IndexFlatL2 1) + Z.of_nat 1) = Some 99
    ∧ chunks w' !! 99 = None
    ∧ ∀ j c' v' row,
        [(7, [5]); (99, [4])] !! j = Some (c', v') →
        chunks two_users_world !! c' = Some row →
        chunks w' !! c'
        = Some (with_vector_id row
                  (Some (pretty (ntotal (IndexFlatL2 1) + Z.of_nat j)))).
Proof.
  apply (add_keeps_chunk_without_row sample_env two_users_world 1
           [(7, [5]); (99, [4])] (IndexFlatL2 1) ∅ 1 99 [4]).
  - reflexivity.
  - vm_compute. reflexivity.
  - reflexivity.
  - reflexivity.
Defined.

(** ** The chunking loop *)

Lemma chunk_loop_unfold self fuel full_text ranges start idx cl :
  chunk_loop self (S fuel) full_text ranges start idx cl
  = if decide (start < len full_text) then
      match emit_chunk full_text ranges start
              (window_end self full_text start) idx cl with
      | Returns (cl', idx') =>
          if decide (window_end self full_text start - chunk_overlap self <= 0
                     ∨ window_end self full_text start - chunk_overlap self
                       >= len full_text)
          then Some (Returns cl')
          else chunk_loop self fuel full_text ranges
                 (window_end self full_text start - chunk_overlap self) idx' cl'
      | Raises e => Some (Raises e)
      | Diverges => Some Diverges
      end
    else Some (Returns cl).
Proof. reflexivity. Qed.

Lemma stuck_text_concat :
  concat_pages (merge_sort page_le [(1, stuck_page)]) "" []
  = (stuck_page +:+ newline, [(1, (0, 351))]).
Proof. vm_compute. reflexivity. Qed.

Lemma stuck_text_len : len (stuck_page +:+ newline) = 351.
Proof. vm_compute. reflexivity. Qed.

(** The window that starts at 0 and the window that starts at 100 both
    end after the full stop, at 200. *)
Lemma stuck_window_0 : window_end stuck_processor (stuck_page +:+ newline) 0 = 200.
Proof. vm_compute. reflexivity. Qed.

Lemma stuck_window_100 : window_end stuck_processor (stuck_page +:+ newline) 100 = 200.
Proof. vm_compute. reflexivity. Qed.

Lemma stuck_emit start idx cl :
  start = 0 ∨ start = 100 →
  ∃ cl' idx',
    emit_chunk (stuck_page +:+ newline) [(1, (0, 351))]
      start 200 idx cl = Returns (cl', idx').
Proof.
  intros Hstart. unfold emit_chunk.
  destruct (decide (strip (slice (stuck_page +:+ newline) start 200) = ""));
    [by eexists _, _|].
  assert (_get_page_for_position (start + (200 - start) / 2) [(1, (0, 351))]
          = Returns 1) as ->.
  { destruct Hstart as [-> | ->]; vm_compute; reflexivity. }
  by eexists _, _.
Qed.

(** From [start = 100] the loop comes back to [start = 100]. *)
Lemma chunk_loop_stuck fuel idx cl :
  chunk_loop stuck_processor fuel (stuck_page +:+ newline) [(1, (0, 351))]
    100 idx cl = None.
Proof.
  revert idx cl. induction fuel as [|fuel IH]; intros idx cl; [done|].
  rewrite chunk_loop_unfold, stuck_text_len, stuck_window_100.
  destruct (decide (100 < 351)); [|lia].
  destruct (stuck_emit 100 idx cl) as (cl' & idx' & ->); [by right|].
  change (chunk_overlap stuck_processor) with 100.
  destruct (decide (200 - 100 <= 0 ∨ 200 - 100 >= 351)); [lia|].
  change (200 - 100) with 100. apply IH.
Qed.

(** C4 fails on the code: with [chunk_size = 150], [chunk_overlap = 100]
    and the page [stuck_page], no number of turns is enough for the
    loop of [create_chunks] to stop. *)
Theorem create_chunks_never_returns (fuel : nat) :
  create_chunks stuck_processor fuel [(1, stuck_page)] = None.
Proof.
  unfold create_chunks. rewrite stuck_text_concat.
  destruct fuel as [|fuel]; [done|].
  rewrite chunk_loop_unfold, stuck_text_len, stuck_window_0.
  destruct (decide (0 < 351)); [|lia].
  destruct (stuck_emit 0 0 []) as (cl' & idx' & ->); [by left|].
  change (chunk_overlap stuck_processor) with 100.
  destruct (decide (200 - 100 <= 0 ∨ 200 - 100 >= 351)); [lia|].
  change (200 - 100) with 100. apply chunk_loop_stuck.
Qed.

(** *** Where the loop does stop *)

Lemma rfind_ending_range (rl : list ascii) (i j : Z) :
  rfind_ending rl i = Some j → i - Z.of_nat (length rl) < j ∧ j ≤ i.
Proof.
  revert i. induction rl as [|c rl IH]; intros i; simpl; [done|].
  destruct (is_sentence_ending c).
  - intros [= <-]. lia.
  - intros H. apply IH in H. lia.
Qed.

Lemma length_list_ascii_of_string (s : string) :
  length (list_ascii_of_string s) = String.length s.
Proof. induction s as [|c s IH]; simpl; [done | by rewrite IH]. Qed.

(** The sentence boundary is never more than 99 characters before the
    position. *)
Lemma _find_sentence_boundary_lower (text : string) (position : Z) :
  position - 99 ≤ _find_sentence_boundary text position.
Proof.
  unfold _find_sentence_boundary.
  destruct (rfind_ending _ _) as [i|] eqn:Hfind; [|lia].
  apply rfind_ending_range in Hfind.
  rewrite length_rev, length_list_ascii_of_string in Hfind.
  unfold len in Hfind. lia.
Qed.

Lemma window_end_lower (self : PDFProcessor) (full_text : string) (start : Z) :
  start + chunk_size self - 99 ≤ window_end self full_text start.
Proof.
  unfold window_end. destruct (decide _); [|lia].
  destruct (decide _); [|lia].
  pose proof (_find_sentence_boundary_lower full_text (start + chunk_size self)).
  lia.
Qed.

(** When the window is at least 100 characters longer than the overlap
    (as with the 800 and 100 of the task), every turn moves the start
    forward and the loop stops within [len(full_text)] turns. *)
Lemma chunk_loop_terminates (self : PDFProcessor) (fuel : nat)
    (full_text : string) (ranges : pydict Z (Z * Z))
    (start idx : Z) (cl : list ChunkInfo) :
  chunk_overlap self + 100 ≤ chunk_size self →
  (Z.to_nat (len full_text - start) < fuel)%nat →
  is_Some (chunk_loop self fuel full_text ranges start idx cl).
Proof.
  intros Hconf. revert start idx cl.
  induction fuel as [|fuel IH]; intros start idx cl Hfuel; [lia|].
  rewrite chunk_loop_unfold. destruct (decide _) as [Hlt|]; [|by eexists].
  destruct (emit_chunk _ _ _ _ _ _) as [[cl' idx']| e |]; [|by eexists..].
  destruct (decide _) as [|Hgo]; [by eexists|].
  apply IH. pose proof (window_end_lower self full_text start). lia.
Qed.

Lemma create_chunks_terminates (self : PDFProcessor) (fuel : nat)
    (page_texts : pydict Z string) :
  chunk_overlap self + 100 ≤ chunk_size self →
  (Z.to_nat (len (concat_pages (merge_sort page_le page_texts) "" []).1) < fuel)%nat →
  is_Some (create_chunks self fuel page_texts).
Proof.
  intros Hconf Hfuel. unfold create_chunks.
  destruct (concat_pages _ _ _) as [full_text ranges]. simpl in Hfuel.
  apply chunk_loop_terminates; [done|]. by rewrite Z.sub_0_r.
Qed.

(** ** The ingestion task *)

(** C5: when the text extracted from a document yields no chunk, the
    task ends with the document [failed], its error payload saying that
    no text could be extracted, and the embedding service is not
    called: the only events of the run are the reading of the file and
    three saves of the document. *)
Theorem zero_chunk_ingestion_fails (env : Collaborators) (fuel : nat)
    (w : World) (pdf_id : Z) (pdf_file : PDFFile) (pages : list string) :
  pdf_files w !! pdf_id = Some pdf_file →
  pdf_reader env (file_path pdf_file) = inr pages →
  create_chunks {| chunk_size := 800; chunk_overlap := 100 |} fuel
    (enumerate 1 (map clean_text pages)) = Some (Returns []) →
  ∃ w' pdf_file',
    process_pdf_async env fuel pdf_id w = (Returns TaskNone, w')
    ∧ pdf_files w' !! pdf_id = Some pdf_file'
    ∧ processing_status pdf_file' = failed
    ∧ pdf_metadata pdf_file' = Some "Aucun texte n'a pu être extrait du PDF"
    ∧ events w'
      = events w ++ [PdfSaved pdf_id processing;
                     ExtractCall (file_path pdf_file);
                     PdfSaved pdf_id completed;
                     PdfSaved pdf_id failed]
    ∧ filter (λ e, Is_true (is_embed_call e)) (events w')
      = filter (λ e, Is_true (is_embed_call e)) (events w).
Proof.
  intros Hpdf Hread Hchunks.
  unfold process_pdf_async, try_except, mbind, M_bind, PDFFile_objects_get.
  rewrite Hpdf.
  unfold process_and_save_chunks, try_except, mbind, M_bind,
    extract_text_from_pdf, mbind, M_bind, run_chunker, PDFFile_save, log,
    modify, mret, M_ret; simpl.
  rewrite Hread. simpl. rewrite Hchunks. simpl.
  eexists _, _. split; [reflexivity|]. simpl.
  rewrite lookup_insert_eq. split; [reflexivity|].
  split; [reflexivity|]. split; [reflexivity|].
  rewrite <- !app_assoc. split; [reflexivity|].
  rewrite filter_app. simpl. by rewrite app_nil_r.
Qed.

Lemma zero_chunk_ingestion_fails_witness :
  ∃ w' pdf_file',
    process_pdf_async sample_env 10 5 empty_pdf_world = (Returns TaskNone, w')
    ∧ pdf_files w' !! 5 = Some pdf_file'
    ∧ processing_status pdf_file' = failed
    ∧ pdf_metadata pdf_file' = Some "Aucun texte n'a pu être extrait du PDF"
    ∧ events w'
      = events empty_pdf_world
        ++ [PdfSaved 5 processing;
            ExtractCall (file_path (sample_pdf 1 "empty.pdf"));
            PdfSaved 5 completed;
            PdfSaved 5 failed]
    ∧ filter (λ e, Is_true (is_embed_call e)) (events w')
      = filter (λ e, Is_true (is_embed_call e)) (events empty_pdf_world).
Proof.
  apply (zero_chunk_ingestion_fails sample_env 10 empty_pdf_world 5
           (sample_pdf 1 "empty.pdf") [""]).
  - reflexivity.
  - reflexivity.
  - vm_compute. reflexivity.
Defined.

(** *** Saves of the document along a run *)

Lemma pdf_silent_refl w : pdf_silent w w.
Proof. by split. Qed.

Lemma pdf_silent_trans w1 w2 w3 :
  pdf_silent w1 w2 → pdf_silent w2 w3 → pdf_silent w1 w3.
Proof. intros [Hp1 He1] [Hp2 He2]. split; [congruence|]. intros id. by rewrite He2, He1. Qed.

Lemma status_writes_app id evs1 evs2 :
  status_writes id (evs1 ++ evs2) = status_writes id evs1 ++ status_writes id evs2.
Proof. unfold status_writes. apply omap_app. Qed.

Lemma pdf_silent_add_event e w :
  (∀ id st, e ≠ PdfSaved id st) → pdf_silent w (add_event e w).
Proof.
  intros He. split; [done|]. intros id. simpl.
  rewrite status_writes_app. destruct e; simpl; try by rewrite app_nil_r.
  by destruct (He pdf_id st).
Qed.

Lemma only_vector_ids_differ_silent w w' :
  only_vector_ids_differ w w' → pdf_silent w w'.
Proof. intros (Hp&_&_&_&_&_&He&_). split; [done|]. intros id. by rewrite He. Qed.

Lemma faiss_add_raises index rows e :
  faiss_add index rows = Raises e → exn_cls e = OtherException.
Proof.
  unfold faiss_add. destruct rows; [by intros [= <-]|].
  destruct (forallb _ _); [done | by intros [= <-]].
Qed.

Section TaskFacts.

Context (env : Collaborators).

Lemma embed_chunks_outcome cs w :
  ∃ o w', embed_chunks env cs w = (o, w') ∧ pdf_silent w w'
    ∧ match o with
      | Returns _ => True
      | Raises e => exn_cls e = OtherException
      | Diverges => False
      end.
Proof.
  destruct cs as [|c0 cs].
  - exists (Returns []), w. split; [done|]. split; [apply pdf_silent_refl | done].
  - unfold embed_chunks, generate_embeddings_batch, mbind, M_bind, log, modify.
    simpl. destruct (model_encode env _); simpl; eexists _, _;
      (split; [reflexivity|]); (split; [by apply pdf_silent_add_event | done]).
Qed.

Lemma add_embeddings_outcome u m w :
  ∃ o w', add_embeddings env u m w = (o, w') ∧ pdf_silent w w'
    ∧ match o with
      | Returns _ => True
      | Raises e => exn_cls e = OtherException
      | Diverges => False
      end.
Proof.
  destruct (load_returns env u w) as (index & md & Hload & _).
  destruct (add_embeddings_effect env u m w index md Hload)
    as [(e & He & ->) | (index' & w1 & _ & Hw1 & ->)]; eexists _, _;
    (split; [reflexivity|]).
  - split; [apply pdf_silent_refl | by eapply faiss_add_raises].
  - split; [|done]. apply only_vector_ids_differ_silent in Hw1 as [Hp He].
    by split.
Qed.

Lemma save_chunks_outcome pdf_id user_id chunk_data w :
  ∃ cs w', save_chunks pdf_id user_id chunk_data w = (Returns cs, w')
    ∧ pdf_silent w w' ∧ length cs = length chunk_data.
Proof.
  revert w. induction chunk_data as [|ci rest IH]; intros w; simpl.
  - exists [], w. split; [done|]. split; [apply pdf_silent_refl | done].
  - unfold mbind, M_bind, Chunk_objects_create at 1.
    match goal with |- context [save_chunks _ _ rest ?w1] =>
      destruct (IH w1) as (cs & w' & -> & [Hp He] & Hlen) end.
    eexists _, w'. split; [reflexivity|]. split; [by split|]. simpl. by rewrite Hlen.
Qed.

Lemma chunk_loop_raises self fuel full_text ranges start idx cl e :
  chunk_loop self fuel full_text ranges start idx cl = Some (Raises e) →
  exn_cls e = OtherException.
Proof.
  revert start idx cl. induction fuel as [|fuel IH]; intros start idx cl; [done|].
  rewrite chunk_loop_unfold. destruct (decide _); [|done].
  destruct (emit_chunk _ _ _ _ _ _) as [[cl' idx']| e' |] eqn:Hemit; [| |done].
  - destruct (decide _); [done | apply IH].
  - intros [= ->]. unfold emit_chunk in Hemit.
    destruct (decide _); [done|].
    unfold _get_page_for_position in Hemit.
    destruct (page_of_position _ _); [done|].
    destruct (last _); [done|]. by injection Hemit as <-.
Qed.

Lemma run_chunker_outcome self fuel page_texts w :
  ∃ o, run_chunker self fuel page_texts w = (o, w)
    ∧ ∀ e, o = Raises e → exn_cls e = OtherException.
Proof.
  unfold run_chunker, create_chunks.
  destruct (concat_pages _ _ _) as [full_text ranges].
  destruct (chunk_loop _ _ _ _ _ _ _) as [o|] eqn:Hloop; eexists;
    (split; [reflexivity|]); [|done].
  intros e ->. by eapply chunk_loop_raises.
Qed.

End TaskFacts.

Section RunTrace.

Context (env : Collaborators).

Lemma status_writes_saved id st evs :
  status_writes id (evs ++ [PdfSaved id st]) = status_writes id evs ++ [st].
Proof. rewrite status_writes_app. simpl. by rewrite decide_True. Qed.

Lemma status_writes_extract id path evs :
  status_writes id (evs ++ [ExtractCall path]) = status_writes id evs.
Proof. rewrite status_writes_app. simpl. by rewrite app_nil_r. Qed.

(** The saves of [process_and_save_chunks]: [processing], then
    [completed] when it returns and [failed] when it raises. *)
Lemma process_and_save_chunks_trace self fuel id pdf w :
  ∃ o w' tr,
    process_and_save_chunks env self fuel id pdf w = (o, w')
    ∧ status_writes id (events w') = status_writes id (events w) ++ tr
    ∧ is_Some (pdf_files w' !! id)
    ∧ match o with
      | Returns _ => tr = [processing; completed]
      | Raises e => tr = [processing; failed] ∧ exn_cls e = OtherException
      | Diverges => tr = [processing]
      end.
Proof.
  unfold process_and_save_chunks, try_except, mbind, M_bind,
    extract_text_from_pdf, mbind, M_bind, mark_failed, mbind, M_bind,
    PDFFile_save, mbind, M_bind, log, modify, raise, mret, M_ret; simpl.
  destruct (pdf_reader env (file_path pdf)) as [msg | pages]; simpl.
  { eexists _, _, _. split; [reflexivity|]. simpl.
    rewrite !status_writes_saved, status_writes_extract, status_writes_saved.
    rewrite <- app_assoc. split; [reflexivity|].
    rewrite lookup_insert_eq. split; [by eexists|]. by split. }
  match goal with |- context [run_chunker self fuel ?pt ?w1] =>
    destruct (run_chunker_outcome self fuel pt w1) as (o & -> & Hcls) end.
  destruct o as [chunk_data | e |].
  - match goal with |- context [save_chunks id ?u chunk_data ?w1] =>
      destruct (save_chunks_outcome id u chunk_data w1)
        as (cs & w2 & -> & [Hp He] & _) end.
    eexists _, _, _. split; [reflexivity|]. simpl.
    rewrite status_writes_saved, He. simpl.
    rewrite status_writes_extract, status_writes_saved, <- app_assoc.
    split; [reflexivity|]. rewrite lookup_insert_eq. split; [by eexists | done].
  - eexists _, _, _. split; [reflexivity|]. simpl.
    rewrite !status_writes_saved, status_writes_extract, status_writes_saved.
    rewrite <- app_assoc. split; [reflexivity|].
    rewrite lookup_insert_eq. split; [by eexists|]. split; [done | by apply Hcls].
  - eexists _, _, _. split; [reflexivity|]. simpl.
    rewrite status_writes_extract, status_writes_saved.
    split; [reflexivity|]. rewrite lookup_insert_eq. split; [by eexists | done].
Qed.

End RunTrace.

Lemma run_traces_sorted tr : tr ∈ run_traces → StronglySorted status_le tr.
Proof.
  unfold run_traces. rewrite !elem_of_cons, elem_of_nil.
  intros [-> | [-> | [-> | [-> | [-> | []]]]]];
    repeat constructor; unfold status_le; simpl; lia.
Qed.

(** C6, as stated, fails: a run on a document without text saves
    [completed] (at the end of [process_and_save_chunks]) and then
    [failed] (in the task). *)
Lemma completed_then_failed_in_one_run :
  status_writes 5
    (events (process_pdf_async sample_env 10 5 empty_pdf_world).2)
  = [processing; completed; failed].
Proof. vm_compute. reflexivity. Qed.

(** C6 (amended): within one run of the task the statuses saved for the
    document never go back in the order [processing], [completed],
    [failed]: once [failed] is saved no later step of the run saves
    another status, and after [completed] the only other status a
    later step of the run saves is [failed].  The run saves one of the
    sequences of [run_traces]. *)
Theorem run_statuses_never_go_back (env : Collaborators) (fuel : nat)
    (pdf_id : Z) (w : World) :
  ∃ tr,
    status_writes pdf_id (events (process_pdf_async env fuel pdf_id w).2)
    = status_writes pdf_id (events w) ++ tr
    ∧ tr ∈ run_traces
    ∧ StronglySorted status_le tr.
Proof.
  cut (∃ tr,
         status_writes pdf_id (events (process_pdf_async env fuel pdf_id w).2)
         = status_writes pdf_id (events w) ++ tr ∧ tr ∈ run_traces).
  { intros (tr & ? & ?). exists tr. auto using run_traces_sorted. }
  unfold process_pdf_async, try_except, mbind, M_bind, PDFFile_objects_get at 1.
  destruct (pdf_files w !! pdf_id) as [pdf|] eqn:Hpdf; simpl.
  2: { exists []. rewrite app_nil_r. split; [done|]. unfold run_traces. set_solver. }
  destruct (process_and_save_chunks_trace env
              {| chunk_size := 800; chunk_overlap := 100 |} fuel pdf_id pdf w)
    as (o & w1 & tr & -> & Htr & [pdf1 Hpdf1] & Ho).
  destruct o as [[pdf' cs] | e |]; simpl.
  - subst tr. destruct cs as [|c cs].
    + unfold PDFFile_save, mbind, M_bind, log, modify, mret, M_ret; simpl.
      exists [processing; completed; failed].
      rewrite status_writes_saved, Htr, <- app_assoc.
      split; [done|]. unfold run_traces. set_solver.
    + destruct (embed_chunks_outcome env (c :: cs) w1)
        as (o2 & w2 & -> & [Hp2 He2] & Ho2).
      destruct o2 as [ce | e |]; [| |done].
      * destruct (add_embeddings_outcome env (pdf_user pdf') ce w2)
          as (o3 & w3 & -> & [Hp3 He3] & Ho3).
        destruct o3 as [[] | e |]; [| |done].
        -- unfold PDFFile_save, mbind, M_bind, log, modify, mret, M_ret; simpl.
           exists [processing; completed; completed].
           rewrite status_writes_saved, He3, He2, Htr, <- app_assoc.
           split; [done|]. unfold run_traces. set_solver.
        -- rewrite Ho3. simpl. unfold PDFFile_objects_get, PDFFile_save,
             mbind, M_bind, log, modify, raise, mret, M_ret; simpl.
           rewrite Hp3, Hp2, Hpdf1. simpl.
           exists [processing; completed; failed].
           rewrite status_writes_saved, He3, He2, Htr, <- app_assoc.
           split; [done|]. unfold run_traces. set_solver.
      * rewrite Ho2. simpl. unfold PDFFile_objects_get, PDFFile_save,
          mbind, M_bind, log, modify, raise, mret, M_ret; simpl.
        rewrite Hp2, Hpdf1. simpl.
        exists [processing; completed; failed].
        rewrite status_writes_saved, He2, Htr, <- app_assoc.
        split; [done|]. unfold run_traces. set_solver.
  - destruct Ho as [-> Hcls]. rewrite Hcls. simpl.
    unfold PDFFile_objects_get, PDFFile_save,
      mbind, M_bind, log, modify, raise, mret, M_ret; simpl.
    rewrite Hpdf1. simpl.
    exists [processing; failed; failed].
    rewrite status_writes_saved, Htr, <- app_assoc.
    split; [done|]. unfold run_traces. set_solver.
  - subst tr. exists [processing]. split; [done|]. unfold run_traces. set_solver.
Qed.

(** ** Retrieval and generation *)

Lemma context_parts_frame items w : (context_parts items w).2 = w.
Proof.
  induction items as [|[i [id c]] items IH]; simpl; [done|].
  unfold mbind, M_bind, PDFFile_objects_get.
  destruct (pdf_files w !! chunk_pdf c); [|done].
  destruct (context_parts items w) as [[parts| e |] w'] eqn:Hparts;
    simpl in *; by subst.
Qed.

Lemma _build_context_frame cs w : (_build_context cs w).2 = w.
Proof.
  unfold _build_context, mbind, M_bind.
  pose proof (context_parts_frame (enumerate 1 cs) w) as H.
  destruct (context_parts (enumerate 1 cs) w) as [[parts| e |] w'];
    simpl in *; by subst.
Qed.

Lemma generate_query_embedding_returns env question w q w1 :
  generate_query_embedding env question w = (Returns q, w1) →
  w1 = add_event (EmbedCall [question]) w.
Proof.
  unfold generate_query_embedding, generate_embedding, mbind, M_bind, log, modify.
  simpl. destruct (model_encode env [question]) as [msg | [|v vs]];
    simpl; by intros [= _ <-].
Qed.

(** C7: when nothing is left after the search and the hydration, the
    answer is one of the two fixed sentences (the first when the search
    itself returns nothing, as for a user without documents), the
    sources and the chunk ids are empty, and the only call to a
    collaborator is the embedding of the question: the generation
    model is not called and no message is stored. *)
Theorem empty_retrieval_short_circuit (env : Collaborators) (w : World)
    (user_id : Z) (question : string) (session_id : option Z)
    (pdf_ids : option (list Z)) (top_k : Z)
    (q : vec) (w1 : World) (ids : list Z) :
  generate_query_embedding env question w = (Returns q, w1) →
  (search env user_id q top_k w1).1 = Returns ids →
  hydrate user_id pdf_ids ids w1 = [] →
  ask_question env user_id question session_id pdf_ids top_k w
  = (Returns {| answer := if decide (ids = []) then no_information_answer
                          else no_information_in_documents_answer;
                sources := []; chunk_ids := [] |}, w1)
  ∧ events w1 = events w ++ [EmbedCall [question]]
  ∧ messages w1 = messages w
  ∧ filter (λ e, Is_true (is_generate_call e)) (events w1)
    = filter (λ e, Is_true (is_generate_call e)) (events w).
Proof.
  intros Hembed Hsearch Hhydrate.
  pose proof (generate_query_embedding_returns _ _ _ _ _ Hembed) as Hw1.
  split.
  - unfold ask_question, mbind, M_bind. rewrite Hembed.
    pose proof (search_frame env user_id q top_k w1) as Hframe.
    destruct (search env user_id q top_k w1) as [o w2]. simpl in *. subst o w2.
    destruct ids as [|c ids]; [done|].
    unfold get_world. by rewrite Hhydrate.
  - subst w1. simpl. split; [done|]. split; [done|].
    rewrite filter_app. simpl. by rewrite app_nil_r.
Qed.

Lemma empty_retrieval_short_circuit_witness :
  ask_question sample_env 3 "Quel est le sujet ?" (Some 1) None 5 two_users_indexed_world
  = (Returns {| answer := if decide (@nil Z = []) then no_information_answer
                          else no_information_in_documents_answer;
                sources := []; chunk_ids := [] |},
     add_event (EmbedCall ["Quel est le sujet ?"]) two_users_indexed_world)
  ∧ events (add_event (EmbedCall ["Quel est le sujet ?"]) two_users_indexed_world)
    = events two_users_indexed_world ++ [EmbedCall ["Quel est le sujet ?"]]
  ∧ messages (add_event (EmbedCall ["Quel est le sujet ?"]) two_users_indexed_world)
    = messages two_users_indexed_world
  ∧ filter (λ e, Is_true (is_generate_call e))
      (events (add_event (EmbedCall ["Quel est le sujet ?"]) two_users_indexed_world))
    = filter (λ e, Is_true (is_generate_call e)) (events two_users_indexed_world).
Proof.
  apply (empty_retrieval_short_circuit sample_env two_users_indexed_world 3
           "Quel est le sujet ?" (Some 1) None 5 [19]).
  - vm_compute. reflexivity.
  - vm_compute. reflexivity.
  - vm_compute. reflexivity.
Defined.

(** C8, as stated, fails for the summary and the mind map: both catch
    the exception of the generation model and return.  With a
    generation model that raises, [generate_summary] returns the error
    sentence and [generate_mindmap] returns an error dictionary. *)
Lemma summary_and_mindmap_absorb_failure :
  (generate_summary sample_env 1 10 two_users_world).1
  = Returns "Erreur lors de la génération du résumé: quota exceeded"
  ∧ ∃ m, (generate_mindmap 1 10 two_users_world).1
         = Returns (MindMapError m).
Proof. split; [vm_compute; reflexivity | eexists; vm_compute; reflexivity]. Qed.

(** C8 (amended): when the generation model raises, none of the three
    operations raises.  [ask_question] returns the error-describing
    answer with no sources and no chunk ids, [generate_summary] returns
    an error-describing sentence and [generate_mindmap] returns an
    error dictionary. *)
Theorem generation_failure_is_absorbed (env : Collaborators) (msg : string) :
  (∀ prompt, generate_content env prompt = inl msg) →
  (∀ user_id question session_id pdf_ids top_k w q w1 ids c cs context,
     generate_query_embedding env question w = (Returns q, w1) →
     (search env user_id q top_k w1).1 = Returns ids →
     hydrate user_id pdf_ids ids w1 = c :: cs →
     (_build_context (c :: cs) w1).1 = Returns context →
     (ask_question env user_id question session_id pdf_ids top_k w).1
     = Returns {| answer := "Erreur lors de la génération de la réponse: " +:+ msg;
                  sources := []; chunk_ids := [] |})
  ∧ (∀ user_id pdf_id w,
       (generate_summary env user_id pdf_id w).1
       = Returns (if decide (document_chunks pdf_id user_id w = [])
                  then "Aucun contenu trouvé à résumer."
                  else "Erreur lors de la génération du résumé: " +:+ msg))
  ∧ (∀ user_id pdf_id w,
       ∃ m, (generate_mindmap user_id pdf_id w).1 = Returns (MindMapError m)).
Proof.
  intros Hgen. split; [|split].
  - intros user_id question session_id pdf_ids top_k w q w1 ids c cs context
      Hembed Hsearch Hhydrate Hcontext.
    unfold ask_question, mbind, M_bind. rewrite Hembed.
    pose proof (search_frame env user_id q top_k w1) as Hframe.
    destruct (search env user_id q top_k w1) as [o w2]. simpl in *. subst o w2.
    destruct ids as [|i ids]; [done|].
    unfold get_world. rewrite Hhydrate.
    pose proof (_build_context_frame (c :: cs) w1) as Hframe.
    destruct (_build_context (c :: cs) w1) as [o w2]. simpl in *. subst o w2.
    unfold try_except, call_generate, mbind, M_bind, log, modify. simpl.
    by rewrite Hgen.
  - intros user_id pdf_id w. unfold generate_summary, mbind, M_bind, get_world.
    destruct (document_chunks pdf_id user_id w) as [|c cs]; [done|].
    unfold try_except, call_generate, mbind, M_bind, log, modify. simpl.
    by rewrite Hgen.
  - intros user_id pdf_id w. unfold generate_mindmap, mbind, M_bind, get_world.
    destruct (document_chunks pdf_id user_id w) as [|c cs]; by eexists.
Qed.

Lemma generation_failure_is_absorbed_witness :
  (ask_question sample_env 1 "alpha?" None None 5 two_users_indexed_world).1
  = Returns {| answer := "Erreur lors de la génération de la réponse: "
                         +:+ "quota exceeded";
               sources := []; chunk_ids := [] |}
  ∧ (generate_summary sample_env 1 10 two_users_indexed_world).1
    = Returns (if decide (document_chunks 10 1 two_users_indexed_world = [])
               then "Aucun contenu trouvé à résumer."
               else "Erreur lors de la génération du résumé: " +:+ "quota exceeded")
  ∧ ∃ m, (generate_mindmap 1 10 two_users_indexed_world).1
         = Returns (MindMapError m).
Proof.
  destruct (generation_failure_is_absorbed sample_env "quota exceeded")
    as (Hask & Hsummary & Hmindmap).
  - intros prompt. reflexivity.
  - split; [|split].
    + eapply Hask.
      * vm_compute. reflexivity.
      * vm_compute. reflexivity.
      * vm_compute. reflexivity.
      * vm_compute. reflexivity.
    + apply Hsummary.
    + apply Hmindmap.
Defined.

(** * Further properties of the code *)

(** ** Strings *)

Lemma len_chars (s : string) : len s = Z.of_nat (length (list_ascii_of_string s)).
Proof. unfold len. by rewrite length_list_ascii_of_string. Qed.

Lemma list_ascii_of_string_app (a b : string) :
  list_ascii_of_string (a +:+ b)
  = list_ascii_of_string a ++ list_ascii_of_string b.
Proof. induction a as [|c a IH]; simpl; [done | by rewrite IH]. Qed.

Lemma slice_chars (text : string) (i j : Z) :
  0 ≤ i → 0 ≤ j →
  list_ascii_of_string (slice text i j)
  = take (Z.to_nat (Z.min j (len text) - Z.min i (len text)))
         (drop (Z.to_nat (Z.min i (len text))) (list_ascii_of_string text)).
Proof.
  intros Hi Hj. unfold slice, slice_bound.
  rewrite list_ascii_of_string_of_list_ascii.
  destruct (i <? 0) eqn:Hi'; [apply Z.ltb_lt in Hi'; lia|].
  destruct (j <? 0) eqn:Hj'; [apply Z.ltb_lt in Hj'; lia|]. done.
Qed.

Lemma slice_lookup (text : string) (i j : Z) (k : nat) (c : ascii) :
  0 ≤ i → 0 ≤ j →
  list_ascii_of_string (slice text i j) !! k = Some c
  ↔ char_at text (i + Z.of_nat k) = Some c ∧ i + Z.of_nat k < j.
Proof.
  intros Hi Hj. rewrite slice_chars by done. unfold char_at.
  destruct (decide (0 ≤ i + Z.of_nat k)); [|lia].
  rewrite lookup_take_Some, lookup_drop. pose proof (len_chars text) as Hlen.
  split.
  - intros [Hc Hk]. apply lookup_lt_Some in Hc as Hlt.
    assert (i ≤ len text) by lia.
    rewrite (Z.min_l i) in Hc, Hk by lia.
    replace (Z.to_nat (i + Z.of_nat k)) with (Z.to_nat i + k)%nat by lia.
    split; [done | lia].
  - intros [Hc Hk]. apply lookup_lt_Some in Hc as Hlt.
    assert (i ≤ len text) by lia. rewrite !(Z.min_l i) by lia.
    replace (Z.to_nat i + k)%nat with (Z.to_nat (i + Z.of_nat k)) by lia.
    split; [done | lia].
Qed.

(** ** [_find_sentence_boundary] *)

Lemma rfind_ending_Some (rl : list ascii) (i j : Z) :
  rfind_ending rl i = Some j →
  ∃ (n : nat) c, j = i - Z.of_nat n ∧ rl !! n = Some c
    ∧ is_sentence_ending c = true
    ∧ ∀ (m : nat) c', (m < n)%nat → rl !! m = Some c' → is_sentence_ending c' = false.
Proof.
  revert i. induction rl as [|c rl IH]; intros i; simpl; [done|].
  destruct (is_sentence_ending c) eqn:Hc.
  - intros [= <-]. exists 0%nat, c. repeat split; [lia | done | lia].
  - intros H. destruct (IH _ H) as (n & c' & -> & Hn & Hc' & Hbefore).
    exists (S n), c'. repeat split; [lia | done | done |].
    intros [|m] c'' Hm Hlook; simpl in Hlook; [congruence|].
    eapply Hbefore; [|done]. lia.
Qed.

Lemma rfind_ending_None (rl : list ascii) (i : Z) :
  rfind_ending rl i = None → ∀ c, c ∈ rl → is_sentence_ending c = false.
Proof.
  revert i. induction rl as [|c rl IH]; intros i; simpl.
  - intros _ c Hc. inversion Hc.
  - destruct (is_sentence_ending c) eqn:Hc; [done|].
    intros H c' [-> | Hc']%elem_of_cons; [done | eauto].
Qed.

(** X1.  For a position that is not negative, [_find_sentence_boundary]
    returns the position just after the last sentence end of the window
    [position - 100 .. position + 99] (cut to the text), which is not
    the nearest one when another follows it; without any sentence end in
    the window it returns the position itself.  The result is never
    more than 99 before nor more than 100 after the position. *)
Theorem find_sentence_boundary_last_in_window (text : string) (position : Z) :
  0 ≤ position →
  let search_start := Z.max 0 (position - 100) in
  let search_end := Z.min (len text) (position + 100) in
  let r := _find_sentence_boundary text position in
  position - 99 ≤ r ∧ r ≤ position + 100
  ∧ ((r = position ∧ no_sentence_end_between text search_start search_end)
     ∨ (search_start < r ∧ r ≤ search_end
        ∧ (∃ c, char_at text (r - 1) = Some c ∧ is_sentence_ending c = true)
        ∧ no_sentence_end_between text r search_end)).
Proof.
  intros Hpos. cbv zeta.
  pose proof (_find_sentence_boundary_lower text position) as Hlower.
  unfold _find_sentence_boundary in *. cbv zeta in *.
  set (search_start := Z.max 0 (position - 100)) in *.
  set (search_end := Z.min (len text) (position + 100)) in *.
  assert (0 ≤ search_start) as Hss by (unfold search_start; lia).
  assert (0 ≤ search_end) as Hse by (unfold search_end, len; lia).
  set (W := list_ascii_of_string (slice text search_start search_end)) in *.
  assert (len (slice text search_start search_end) = Z.of_nat (length W)) as HlenS
    by apply len_chars.
  rewrite HlenS in *.
  destruct (rfind_ending (rev W) (Z.of_nat (length W) - 1)) as [j|] eqn:Hfind.
  - apply rfind_ending_Some in Hfind as (n & c & -> & Hn & Hc & Hafter).
    rewrite rev_alt in Hn, Hafter. fold (reverse W) in Hn, Hafter.
    apply reverse_lookup_Some in Hn as [Hn Hlt].
    apply slice_lookup in Hn as [Hchar Hbound]; [|done..].
    split; [lia|]. split; [unfold search_end in Hbound; lia|]. right.
    split; [lia|]. split; [lia|]. split.
    + exists c. split; [|done].
      replace (search_start + (Z.of_nat (length W) - 1 - Z.of_nat n) + 1 - 1)
        with (search_start + Z.of_nat (length W - S n)) by lia.
      done.
    + intros k c' Hk1 Hk2 Hchar'.
      assert (W !! Z.to_nat (k - search_start) = Some c') as Hin.
      { apply slice_lookup; [done..|].
        replace (search_start + Z.of_nat (Z.to_nat (k - search_start))) with k by lia.
        done. }
      apply lookup_lt_Some in Hin as Hlt'.
      apply (Hafter (length W - S (Z.to_nat (k - search_start)))%nat c');
        [lia|].
      apply reverse_lookup_Some. split; [|lia].
      rewrite <- Hin. f_equal. lia.
  - split; [lia|]. split; [lia|]. left. split; [done|].
    intros k c Hk1 Hk2 Hchar.
    eapply rfind_ending_None; [exact Hfind|].
    rewrite rev_alt. fold (reverse W). apply elem_of_reverse, list_elem_of_lookup.
    exists (Z.to_nat (k - search_start)). apply slice_lookup; [done..|].
    replace (search_start + Z.of_nat (Z.to_nat (k - search_start))) with k by lia.
    done.
Qed.

Lemma find_sentence_boundary_last_in_window_witness :
  let text := "Un. Deux. Trois" in
  let r := _find_sentence_boundary text 5 in
  5 - 99 ≤ r ∧ r ≤ 5 + 100
  ∧ ((r = 5 ∧ no_sentence_end_between text (Z.max 0 (5 - 100))
                 (Z.min (len text) (5 + 100)))
     ∨ (Z.max 0 (5 - 100) < r ∧ r ≤ Z.min (len text) (5 + 100)
        ∧ (∃ c, char_at text (r - 1) = Some c ∧ is_sentence_ending c = true)
        ∧ no_sentence_end_between text r (Z.min (len text) (5 + 100)))).
Proof.
  apply (find_sentence_boundary_last_in_window "Un. Deux. Trois" 5). lia.
Defined.

(** ** [create_chunks] *)

Lemma emit_chunk_inv full_text ranges start end_ idx cl cl' idx' :
  emit_chunk full_text ranges start end_ idx cl = Returns (cl', idx') →
  (strip (slice full_text start end_) = "" ∧ cl' = cl ∧ idx' = idx)
  ∨ (strip (slice full_text start end_) ≠ ""
     ∧ ∃ page_num,
         _get_page_for_position (start + (end_ - start) / 2) ranges
         = Returns page_num
         ∧ cl' = cl ++ [{| ci_text := strip (slice full_text start end_);
                           ci_chunk_index := idx;
                           ci_page_number := page_num;
                           ci_start_char := start; ci_end_char := end_;
                           ci_token_count :=
                             _estimate_tokens (strip (slice full_text start end_)) |}]
         ∧ idx' = idx + 1).
Proof.
  unfold emit_chunk. destruct (decide _) as [Hempty | Hne].
  - intros [= <- <-]. by left.
  - destruct (_get_page_for_position _ _) as [page_num| |]; [|done..].
    intros [= <- <-]. right. split; [done|]. by exists page_num.
Qed.

(** Invariants of the [while] loop: [J] holds when a turn starts, [R]
    holds of the chunks when the loop is left. *)
Lemma chunk_loop_invariant (self : PDFProcessor) (full_text : string)
    (ranges : pydict Z (Z * Z))
    (J : Z → Z → list ChunkInfo → Prop) (R : list ChunkInfo → Prop) :
  (∀ start idx cl, J start idx cl → R cl) →
  (∀ start idx cl cl' idx',
     J start idx cl → start < len full_text →
     emit_chunk full_text ranges start (window_end self full_text start) idx cl
     = Returns (cl', idx') →
     R cl'
     ∧ (0 < window_end self full_text start - chunk_overlap self →
        J (window_end self full_text start - chunk_overlap self) idx' cl')) →
  ∀ fuel start idx cl res,
    J start idx cl →
    chunk_loop self fuel full_text ranges start idx cl = Some (Returns res) →
    R res.
Proof.
  intros Hexit Hturn. induction fuel as [|fuel IH]; intros start idx cl res HJ; [done|].
  rewrite chunk_loop_unfold. destruct (decide _) as [Hlt|].
  2: { intros [= <-]. eauto. }
  destruct (emit_chunk _ _ _ _ _ _) as [[cl' idx']| |] eqn:Hemit; [|done..].
  destruct (Hturn _ _ _ _ _ HJ Hlt Hemit) as [HR HJ'].
  destruct (decide _) as [|Hgo].
  - by intros [= <-].
  - apply IH, HJ'. lia.
Qed.

(** X2.  The chunks that [create_chunks] returns are numbered 0, 1, 2,
    ... in the order of the list. *)
Theorem create_chunks_numbers_chunks (self : PDFProcessor) (fuel : nat)
    (page_texts : pydict Z string) (chunk_list : list ChunkInfo) :
  create_chunks self fuel page_texts = Some (Returns chunk_list) →
  ∀ (i : nat) c, chunk_list !! i = Some c → ci_chunk_index c = Z.of_nat i.
Proof.
  unfold create_chunks. destruct (concat_pages _ _ _) as [full_text ranges].
  apply (chunk_loop_invariant self full_text ranges
           (λ _ idx cl, idx = Z.of_nat (length cl)
              ∧ ∀ (i : nat) c, cl !! i = Some c → ci_chunk_index c = Z.of_nat i)
           (λ cl, ∀ (i : nat) c, cl !! i = Some c → ci_chunk_index c = Z.of_nat i)).
  - by intros ??? [_ ?].
  - intros start idx cl cl' idx' [-> Hcl] _ Hemit.
    apply emit_chunk_inv in Hemit as [(_ & -> & ->) | (_ & page & _ & -> & ->)].
    + split; [done|]. by intros _.
    + assert (∀ (i : nat) c,
                (cl ++ [{| ci_text := strip (slice full_text start
                                               (window_end self full_text start));
                           ci_chunk_index := Z.of_nat (length cl);
                           ci_page_number := page;
                           ci_start_char := start;
                           ci_end_char := window_end self full_text start;
                           ci_token_count := _estimate_tokens
                             (strip (slice full_text start
                                       (window_end self full_text start))) |}])
                !! i = Some c → ci_chunk_index c = Z.of_nat i) as Hcl'.
      { intros i c [Hi | [Hi Hc]]%lookup_app_Some; [eauto|].
        destruct (i - length cl)%nat as [|k] eqn:Hk; simpl in Hc; [|by destruct k].
        injection Hc as <-. simpl. f_equal. lia. }
      split; [done|]. intros _. split; [|done]. rewrite length_app. simpl. lia.
  - split; [done|]. intros i c Hi. by destruct i.
Qed.

Lemma create_chunks_numbers_chunks_witness :
  length two_sentence_chunks = 2%nat
  ∧ ∀ (i : nat) c,
      two_sentence_chunks !! i = Some c → ci_chunk_index c = Z.of_nat i.
Proof.
  split; [reflexivity|].
  apply (create_chunks_numbers_chunks small_processor 10 two_sentence_pages).
  vm_compute. reflexivity.
Defined.

Lemma _find_sentence_boundary_upper (text : string) (position : Z) :
  0 ≤ position → _find_sentence_boundary text position ≤ position + 100.
Proof.
  intros Hpos. unfold _find_sentence_boundary. cbv zeta.
  destruct (rfind_ending _ _) as [j|] eqn:Hfind; [|lia].
  apply rfind_ending_range in Hfind.
  rewrite length_rev in Hfind. rewrite len_chars in Hfind.
  pose proof (len_chars text) as Hlen.
  rewrite slice_chars in Hfind by (unfold len; lia).
  rewrite length_take, length_drop in Hfind. lia.
Qed.

Lemma window_end_upper (self : PDFProcessor) (full_text : string) (start : Z) :
  0 ≤ start → 0 < chunk_size self →
  start < window_end self full_text start
  ∧ window_end self full_text start ≤ start + chunk_size self + 100.
Proof.
  intros Hstart Hsize. unfold window_end.
  destruct (decide _); [|lia]. destruct (decide _); [|lia].
  pose proof (_find_sentence_boundary_upper full_text (start + chunk_size self)).
  lia.
Qed.

Lemma page_of_position_in_keys position ranges page_num :
  page_of_position position ranges = Some page_num → page_num ∈ dict_keys ranges.
Proof.
  unfold dict_keys. induction ranges as [|[p [s e]] ranges IH]; simpl; [done|].
  destruct (decide _).
  - intros [= <-]. by left.
  - intros H. right. auto.
Qed.

Lemma _get_page_for_position_in_keys position ranges page_num :
  _get_page_for_position position ranges = Returns page_num →
  page_num ∈ dict_keys ranges.
Proof.
  unfold _get_page_for_position.
  destruct (page_of_position _ _) as [p|] eqn:Hp.
  - intros [= <-]. by eapply page_of_position_in_keys.
  - destruct (last _) as [p|] eqn:Hlast; [|done].
    intros [= <-]. by apply last_Some_elem_of.
Qed.

Lemma concat_pages_keys items full_text ranges page_num :
  page_num ∈ dict_keys (concat_pages items full_text ranges).2 →
  page_num ∈ dict_keys ranges ∨ page_num ∈ items.*1.
Proof.
  revert full_text ranges. induction items as [|[p t] items IH];
    intros full_text ranges; simpl; [by left|].
  intros H. apply IH in H as [H | H].
  - apply dict_set_keys in H as [-> | H]; [right; by left | by left].
  - right. by right.
Qed.

Lemma concatenated_keys page_texts page_num :
  page_num ∈ dict_keys (concatenated page_texts).2 →
  page_num ∈ dict_keys page_texts.
Proof.
  intros H. apply concat_pages_keys in H as [H | H]; [inversion H|].
  unfold dict_keys. by rewrite merge_sort_Permutation in H.
Qed.

(** X3.  For a processor with a positive [chunk_size], every chunk that
    [create_chunks] returns is well formed: its text is the stripped
    slice of its offsets and is not empty, its token count is a quarter
    of the length of the text, it starts inside the text, its offsets
    span between [chunk_size - 99] and [chunk_size + 100] characters
    (the end of the last chunk may lie beyond the text), and its page
    is a page of the document. *)
Theorem create_chunks_well_formed (self : PDFProcessor) (fuel : nat)
    (page_texts : pydict Z string) (chunk_list : list ChunkInfo) :
  0 < chunk_size self →
  create_chunks self fuel page_texts = Some (Returns chunk_list) →
  Forall (well_formed_chunk self page_texts) chunk_list.
Proof.
  intros Hsize Hrun. unfold create_chunks in Hrun.
  pose proof (concatenated_keys page_texts) as Hkeys.
  unfold well_formed_chunk, concatenated in *.
  destruct (concat_pages _ _ _) as [full_text ranges]. simpl in *.
  set (wf := λ c : ChunkInfo,
         ci_text c ≠ ""
         ∧ ci_text c = strip (slice full_text (ci_start_char c) (ci_end_char c))
         ∧ ci_token_count c = len (ci_text c) / 4
         ∧ 0 ≤ ci_start_char c ∧ ci_start_char c < len full_text
         ∧ ci_start_char c + chunk_size self - 99 ≤ ci_end_char c
         ∧ ci_end_char c ≤ ci_start_char c + chunk_size self + 100
         ∧ ci_start_char c < ci_end_char c
         ∧ ci_page_number c ∈ dict_keys page_texts).
  revert Hrun.
  apply (chunk_loop_invariant self full_text ranges
           (λ start _ cl, 0 ≤ start ∧ Forall wf cl) (Forall wf)).
  - by intros ??? [_ ?].
  - intros start idx cl cl' idx' [Hstart Hcl] Hlt Hemit.
    pose proof (window_end_upper self full_text start Hstart Hsize) as [Hgt Hle].
    pose proof (window_end_lower self full_text start) as Hge.
    apply emit_chunk_inv in Hemit as [(_ & -> & ->) | (Hne & page & Hpage & -> & ->)].
    + split; [done|]. intros ?. split; [lia | done].
    + assert (Forall wf
                (cl ++ [{| ci_text := strip (slice full_text start
                                               (window_end self full_text start));
                           ci_chunk_index := idx;
                           ci_page_number := page;
                           ci_start_char := start;
                           ci_end_char := window_end self full_text start;
                           ci_token_count := _estimate_tokens
                             (strip (slice full_text start
                                       (window_end self full_text start))) |}]))
        as Hcl'.
      { apply Forall_app. split; [done|]. apply Forall_singleton.
        unfold wf. simpl. repeat split; try done; try lia.
        eapply Hkeys, _get_page_for_position_in_keys, Hpage. }
      split; [done|]. intros ?. split; [lia | done].
  - split; [lia | done].
Qed.

Lemma create_chunks_well_formed_witness :
  Forall (well_formed_chunk small_processor two_sentence_pages) two_sentence_chunks.
Proof.
  apply (create_chunks_well_formed small_processor 10 two_sentence_pages).
  - reflexivity.
  - vm_compute. reflexivity.
Defined.

(** X4.  When the window is at least 100 characters longer than the
    overlap, the chunks that [create_chunks] returns start at strictly
    increasing offsets: the order of the list, of [chunk_index] and of
    the offsets agree. *)
Theorem create_chunks_starts_increase (self : PDFProcessor) (fuel : nat)
    (page_texts : pydict Z string) (chunk_list : list ChunkInfo) :
  chunk_overlap self + 100 ≤ chunk_size self →
  create_chunks self fuel page_texts = Some (Returns chunk_list) →
  StronglySorted (λ a b, ci_start_char a < ci_start_char b) chunk_list.
Proof.
  intros Hconf. unfold create_chunks.
  destruct (concat_pages _ _ _) as [full_text ranges].
  apply (chunk_loop_invariant self full_text ranges
           (λ start _ cl,
              Forall (λ c, ci_start_char c < start) cl
              ∧ StronglySorted (λ a b, ci_start_char a < ci_start_char b) cl)
           (StronglySorted (λ a b, ci_start_char a < ci_start_char b))).
  - by intros ??? [_ ?].
  - intros start idx cl cl' idx' [Hbelow Hsorted] Hlt Hemit.
    pose proof (window_end_lower self full_text start) as Hge.
    apply emit_chunk_inv in Hemit as [(_ & -> & ->) | (_ & page & _ & -> & ->)].
    + split; [done|]. intros _. split; [|done].
      eapply Forall_impl; [exact Hbelow|]. simpl. intros; lia.
    + split.
      * apply StronglySorted_app. split; [|split; [done | repeat constructor]].
        intros a b Ha ->%list_elem_of_singleton. simpl.
        rewrite Forall_forall in Hbelow. by apply Hbelow.
      * intros _. split.
        -- apply Forall_app. split.
           ++ eapply Forall_impl; [exact Hbelow|]. simpl. intros; lia.
           ++ apply Forall_singleton. simpl. lia.
        -- apply StronglySorted_app. split; [|split; [done | repeat constructor]].
           intros a b Ha ->%list_elem_of_singleton. simpl.
           rewrite Forall_forall in Hbelow. by apply Hbelow.
  - split; constructor.
Qed.

Lemma create_chunks_starts_increase_witness :
  length wide_chunks = 3%nat
  ∧ StronglySorted (λ a b, ci_start_char a < ci_start_char b) wide_chunks.
Proof.
  split; [reflexivity|].
  apply (create_chunks_starts_increase wide_processor 10 [(1, stuck_page)]).
  - simpl. lia.
  - vm_compute. reflexivity.
Defined.

Lemma dict_set_not_nil {K V} `{EqDecision K} (d : pydict K V) k v :
  dict_set d k v ≠ [].
Proof. destruct d as [|[k' v'] d]; simpl; [done|]. by destruct (decide _). Qed.

Lemma concat_pages_ranges items full_text ranges :
  ranges ≠ [] ∨ full_text = "" →
  (concat_pages items full_text ranges).2 ≠ []
  ∨ (concat_pages items full_text ranges).1 = "".
Proof.
  revert full_text ranges. induction items as [|[p t] items IH];
    intros full_text ranges H; simpl; [done|].
  apply IH. left. apply dict_set_not_nil.
Qed.

Lemma emit_chunk_returns full_text ranges start end_ idx cl :
  ranges ≠ [] →
  ∃ cl' idx', emit_chunk full_text ranges start end_ idx cl = Returns (cl', idx').
Proof.
  intros Hranges. unfold emit_chunk. destruct (decide _); [by eexists _, _|].
  unfold _get_page_for_position. destruct (page_of_position _ _); [by eexists _, _|].
  destruct (last (dict_keys ranges)) as [p|] eqn:Hlast; [by eexists _, _|].
  apply last_None in Hlast. unfold dict_keys in Hlast.
  by apply fmap_nil_inv in Hlast.
Qed.

Lemma chunk_loop_returns (self : PDFProcessor) (fuel : nat)
    (full_text : string) (ranges : pydict Z (Z * Z))
    (start idx : Z) (cl : list ChunkInfo) :
  ranges ≠ [] ∨ full_text = "" →
  chunk_overlap self + 100 ≤ chunk_size self →
  (Z.to_nat (len full_text - start) < fuel)%nat →
  0 ≤ start →
  ∃ res, chunk_loop self fuel full_text ranges start idx cl = Some (Returns res).
Proof.
  intros Hranges Hconf. revert start idx cl.
  induction fuel as [|fuel IH]; intros start idx cl Hfuel Hstart; [lia|].
  rewrite chunk_loop_unfold. destruct (decide _) as [Hlt|]; [|by eexists].
  destruct Hranges as [Hranges | ->]; [|simpl in Hlt; unfold len in Hlt; simpl in Hlt; lia].
  destruct (emit_chunk_returns full_text ranges start
              (window_end self full_text start) idx cl Hranges) as (cl' & idx' & ->).
  destruct (decide _) as [|Hgo]; [by eexists|].
  pose proof (window_end_lower self full_text start).
  apply IH; [lia | lia].
Qed.

(** X5.  When the window is at least 100 characters longer than the
    overlap (as with the 800 and 100 of the task), [create_chunks]
    returns a list of chunks within [len(full_text) + 1] turns of its
    loop, whatever the pages: it neither runs for ever nor raises (the
    page lookup always finds a page). *)
Theorem create_chunks_returns (self : PDFProcessor) (fuel : nat)
    (page_texts : pydict Z string) :
  chunk_overlap self + 100 ≤ chunk_size self →
  (Z.to_nat (len (concatenated page_texts).1) < fuel)%nat →
  ∃ chunk_list, create_chunks self fuel page_texts = Some (Returns chunk_list).
Proof.
  intros Hconf Hfuel. unfold create_chunks, concatenated in *.
  pose proof (concat_pages_ranges (merge_sort page_le page_texts) "" []
                (or_intror eq_refl)) as Hranges.
  destruct (concat_pages _ _ _) as [full_text ranges]. simpl in *.
  apply chunk_loop_returns; [done | done | | done].
  by rewrite Z.sub_0_r.
Qed.

Lemma create_chunks_returns_witness :
  ∃ chunk_list,
    create_chunks {| chunk_size := 800; chunk_overlap := 100 |} 60
      two_sentence_pages = Some (Returns chunk_list).
Proof.
  apply (create_chunks_returns {| chunk_size := 800; chunk_overlap := 100 |} 60
           two_sentence_pages).
  - simpl. lia.
  - vm_compute. lia.
Defined.

(** *** Pages without text *)

Lemma lstrip_blank (l : list ascii) : forallb is_space l = true → lstrip l = [].
Proof.
  induction l as [|c l IH]; simpl; [done|].
  intros [Hc Hl]%andb_true_iff. rewrite Hc. auto.
Qed.

Lemma strip_blank (s : string) : blank s = true → strip s = "".
Proof. unfold blank, strip. intros H. rewrite (lstrip_blank _ H). reflexivity. Qed.

Lemma forallb_take_drop {A} (f : A → bool) (l : list A) (n m : nat) :
  forallb f l = true → forallb f (take n (drop m l)) = true.
Proof.
  intros H. apply Is_true_true, forallb_True.
  apply Is_true_true, forallb_True in H.
  by apply Forall_take, Forall_drop.
Qed.

Lemma slice_blank (s : string) (i j : Z) : blank s = true → blank (slice s i j) = true.
Proof.
  unfold blank, slice. intros H. rewrite list_ascii_of_string_of_list_ascii.
  by apply forallb_take_drop.
Qed.

Lemma blank_app (a b : string) :
  blank a = true → blank b = true → blank (a +:+ b) = true.
Proof.
  unfold blank. rewrite list_ascii_of_string_app, forallb_app.
  by intros -> ->.
Qed.

Lemma concat_pages_blank items full_text ranges :
  forallb (λ p : Z * string, blank p.2) items = true →
  blank full_text = true →
  blank (concat_pages items full_text ranges).1 = true.
Proof.
  revert full_text ranges. induction items as [|[p t] items IH];
    intros full_text ranges Hitems Hft; simpl in *; [done|].
  apply andb_true_iff in Hitems as [Ht Hitems].
  apply IH; [done|]. by repeat apply blank_app.
Qed.

(** X6.  A document whose pages hold nothing but whitespace (or that
    has no page) yields no chunk: whenever [create_chunks] returns for
    it, it returns the empty list. *)
Theorem create_chunks_blank_document (self : PDFProcessor) (fuel : nat)
    (page_texts : pydict Z string) (chunk_list : list ChunkInfo) :
  forallb (λ p : Z * string, blank p.2) page_texts = true →
  create_chunks self fuel page_texts = Some (Returns chunk_list) →
  chunk_list = [].
Proof.
  intros Hblank. unfold create_chunks.
  assert (blank (concat_pages (merge_sort page_le page_texts) "" []).1 = true)
    as Hft.
  { apply concat_pages_blank; [|done].
    apply Is_true_true, forallb_True. apply Is_true_true, forallb_True in Hblank.
    by rewrite merge_sort_Permutation. }
  destruct (concat_pages _ _ _) as [full_text ranges]. simpl in Hft.
  apply (chunk_loop_invariant self full_text ranges
           (λ _ _ cl, cl = []) (λ cl, cl = [])); [done| |done].
  intros start idx cl cl' idx' -> _ Hemit.
  apply emit_chunk_inv in Hemit as [(_ & -> & _) | (Hne & _)]; [done|].
  destruct Hne. by apply strip_blank, slice_blank.
Qed.

Lemma create_chunks_blank_document_witness :
  create_chunks {| chunk_size := 800; chunk_overlap := 100 |} 5
    [(1, "   "); (2, ""); (3, newline)] = Some (Returns [])
  ∧ @nil ChunkInfo = [].
Proof.
  split; [vm_compute; reflexivity|].
  apply (create_chunks_blank_document
           {| chunk_size := 800; chunk_overlap := 100 |} 5
           [(1, "   "); (2, ""); (3, newline)] []).
  - vm_compute. reflexivity.
  - vm_compute. reflexivity.
Defined.

(** ** [clean_text] *)

Lemma collapse_runs_space (in_run : bool) (l : list ascii) :
  let r := collapse_runs is_space " "%char in_run l in
  spaces_only r ∧ no_double_space r
  ∧ (in_run = true → ∀ c, head r = Some c → is_space c = false).
Proof.
  revert in_run. induction l as [|c l IH]; intros in_run; simpl.
  { split; [|split].
    - intros c Hc. inversion Hc.
    - intros i a b Hi. by destruct i.
    - done. }
  destruct (is_space c) eqn:Hc.
  - destruct in_run.
    + apply IH.
    + destruct (IH true) as (H1 & H2 & H3). split; [|split; [|done]].
      * intros c' [-> | Hc']%elem_of_cons; [done | by apply H1].
      * intros [|i] a b Ha Hb Hsp; simpl in *.
        -- apply H3; [done|]. by destruct (collapse_runs _ _ _ _).
        -- exact (H2 i a b Ha Hb Hsp).
  - destruct (IH false) as (H1 & H2 & _). split; [|split].
    + intros c' [-> | Hc']%elem_of_cons; [congruence | by apply H1].
    + intros [|i] a b Ha Hb Hsp; simpl in *.
      * injection Ha as <-. congruence.
      * exact (H2 i a b Ha Hb Hsp).
    + intros _ c' [= <-]. done.
Qed.

Lemma collapse_runs_blank (in_run : bool) (l : list ascii) :
  forallb is_space l = true →
  forallb is_space (collapse_runs is_space " "%char in_run l) = true.
Proof.
  revert in_run. induction l as [|c l IH]; intros in_run Hl; [done|].
  cbn [forallb collapse_runs] in *. apply andb_true_iff in Hl as [Hc Hl].
  rewrite Hc. destruct in_run; [by apply IH|].
  cbn [forallb]. by rewrite IH.
Qed.

Lemma collapse_runs_id (p : ascii → bool) (rep : ascii) (in_run : bool)
    (l : list ascii) :
  (∀ c, c ∈ l → p c = false) → collapse_runs p rep in_run l = l.
Proof.
  revert in_run. induction l as [|c l IH]; intros in_run Hl; simpl; [done|].
  rewrite (Hl c) by by left. f_equal. apply IH. intros c' Hc'. apply Hl. by right.
Qed.

Lemma is_newline_is_space (c : ascii) : is_newline c = true → is_space c = true.
Proof.
  unfold is_newline, is_space. intros H%Nat.eqb_eq. by rewrite H.
Qed.

Lemma lstrip_suffix (l : list ascii) :
  (∃ pre, l = pre ++ lstrip l) ∧ ∀ c, head (lstrip l) = Some c → is_space c = false.
Proof.
  induction l as [|c l [[pre Hpre] Hhead]]; simpl.
  - split; [by exists [] | done].
  - destruct (is_space c) eqn:Hc.
    + split; [|done]. exists (c :: pre). simpl. by f_equal.
    + split; [by exists [] |]. by intros c' [= <-].
Qed.

Lemma no_double_space_app_inv (l1 l2 : list ascii) :
  no_double_space (l1 ++ l2) → no_double_space l1 ∧ no_double_space l2.
Proof.
  intros H. split.
  - intros i a b Ha Hb. apply (H i a b); by apply lookup_app_l_Some.
  - intros i a b Ha Hb. apply (H (length l1 + i)%nat a b).
    + by rewrite lookup_app_r, Nat.add_comm, Nat.add_sub by lia.
    + replace (S (length l1 + i)) with (length l1 + S i)%nat by lia.
      by rewrite lookup_app_r, Nat.add_comm, Nat.add_sub by lia.
Qed.

Lemma strip_chars (l : list ascii) :
  let r := rev (lstrip (rev (lstrip l))) in
  (∃ pre suf, l = pre ++ r ++ suf) ∧ trimmed r.
Proof.
  cbv zeta. destruct (lstrip_suffix l) as [[pre Hpre] Hhead].
  destruct (lstrip_suffix (rev (lstrip l))) as [[suf Hsuf] Hlast].
  assert (lstrip l = rev (lstrip (rev (lstrip l))) ++ rev suf) as Hmid.
  { rewrite <- rev_app_distr, <- Hsuf. by rewrite rev_involutive. }
  split.
  - exists pre, (rev suf). by rewrite <- Hmid.
  - split.
    + intros c Hc. apply Hhead. rewrite Hmid.
      by destruct (rev (lstrip (rev (lstrip l)))).
    + intros c Hc. apply Hlast.
      rewrite <- (rev_involutive (lstrip (rev (lstrip l)))).
      set (x := rev (lstrip (rev (lstrip l)))) in *.
      rewrite rev_alt. fold (reverse x).
      destruct (last_Some x c) as [[x' ->] _]; [done|].
      by rewrite reverse_snoc.
Qed.

(** X7.  The text that [clean_text] returns has no whitespace other
    than single spaces between words: every whitespace character of it
    is a space, no two spaces follow each other, and it neither starts
    nor ends with one.  (The substitution of [\n+] after the one of
    [\s+] never finds anything to replace.)  A text of whitespace only
    is cleaned to the empty text. *)
Theorem clean_text_tidy (text : string) :
  let r := list_ascii_of_string (clean_text text) in
  spaces_only r ∧ no_double_space r ∧ trimmed r
  ∧ (blank text = true → clean_text text = "").
Proof.
  cbv zeta. unfold clean_text, strip.
  set (l1 := collapse_runs is_space " "%char false (list_ascii_of_string text)).
  destruct (collapse_runs_space false (list_ascii_of_string text))
    as (H1 & H2 & _). fold l1 in H1, H2.
  assert (collapse_runs is_newline (ascii_of_nat 10) false l1 = l1) as ->.
  { apply collapse_runs_id. intros c Hc.
    destruct (is_newline c) eqn:Hnl; [|done].
    rewrite (H1 c Hc (is_newline_is_space c Hnl)) in Hnl. discriminate Hnl. }
  rewrite !list_ascii_of_string_of_list_ascii.
  destruct (strip_chars l1) as [(pre & suf & Hl1) Htrim].
  set (r := rev (lstrip (rev (lstrip l1)))) in *.
  split; [|split; [|split; [done|]]].
  - intros c Hc. apply H1. rewrite Hl1. set_solver.
  - rewrite Hl1 in H2. apply no_double_space_app_inv in H2 as [_ H2].
    by apply no_double_space_app_inv in H2 as [H2 _].
  - intros Hblank.
    pose proof (collapse_runs_blank false _ Hblank) as Hb. fold l1 in Hb.
    unfold r. by rewrite (lstrip_blank _ Hb).
Qed.

Lemma clean_text_tidy_witness : clean_text "   " = "".
Proof.
  apply (proj2 (proj2 (proj2 (clean_text_tidy "   ")))). reflexivity.
Defined.

(** ** [embed_chunks] *)

Lemma dict_set_fresh {K V} `{EqDecision K} (d : pydict K V) k v :
  k ∉ dict_keys d → dict_set d k v = d ++ [(k, v)].
Proof.
  unfold dict_keys. induction d as [|[k' v'] d IH]; simpl; [done|].
  rewrite not_elem_of_cons. intros [Hne Hk].
  destruct (decide (k' = k)); [congruence|]. by rewrite IH.
Qed.

Lemma dict_of_distinct_pairs {K V} `{EqDecision K} (l d : pydict K V) :
  NoDup (dict_keys (d ++ l)) →
  foldl (λ d ce, dict_set d ce.1 ce.2) d l = d ++ l.
Proof.
  revert d. induction l as [|[k v] l IH]; intros d Hnd; simpl.
  - by rewrite app_nil_r.
  - rewrite dict_set_fresh.
    + rewrite IH; rewrite <- app_assoc; [done|]. by simpl.
    + unfold dict_keys in *. rewrite fmap_app in Hnd.
      apply NoDup_app in Hnd as (_ & Hdisj & _).
      intros Hk. apply (Hdisj k Hk). simpl. by left.
Qed.

Lemma pyzip_fst_NoDup {A B} (a : list A) (b : list B) :
  NoDup a → NoDup (pyzip a b).*1.
Proof.
  revert b. induction a as [|x a IH]; intros [|y b] Hnd; simpl; try constructor.
  - apply NoDup_cons in Hnd as [Hx Hnd]. intros Hin. apply Hx.
    by eapply pyzip_fst_subseteq.
  - apply NoDup_cons in Hnd as [_ Hnd]. by apply IH.
Qed.

(** X8.  For chunks with distinct ids, [embed_chunks] pairs the id of
    the i-th chunk with the i-th vector that the model returns for the
    texts, in the order of the chunks, whatever the number of vectors
    (what has no partner is dropped); it calls the model once, with the
    texts in that order, and not at all for an empty list. *)
Theorem embed_chunks_pairs_in_order (env : Collaborators) (w : World)
    (chunk_objs : list (Z * Chunk)) (embeddings : list vec) :
  NoDup chunk_objs.*1 →
  model_encode env (map (λ c, chunk_text c.2) chunk_objs) = inr embeddings →
  embed_chunks env chunk_objs w
  = (Returns (pyzip chunk_objs.*1 embeddings),
     if decide (chunk_objs = []) then w
     else add_event (EmbedCall (map (λ c, chunk_text c.2) chunk_objs)) w).
Proof.
  intros Hnd Hencode. destruct chunk_objs as [|c cs]; [done|].
  unfold embed_chunks, generate_embeddings_batch, mbind, M_bind, log, modify.
  cbv beta iota. rewrite Hencode. rewrite decide_False by done.
  unfold mret, M_ret. f_equal. f_equal.
  exact (dict_of_distinct_pairs (pyzip (c :: cs).*1 embeddings) []
           (pyzip_fst_NoDup _ _ Hnd)).
Qed.

Lemma embed_chunks_pairs_in_order_witness :
  embed_chunks sample_env
    [(7, sample_chunk 10 1 "alpha"); (9, sample_chunk 11 1 "be")] two_users_world
  = (Returns (pyzip [7; 9] [[5]; [2]]),
     if decide ([(7, sample_chunk 10 1 "alpha"); (9, sample_chunk 11 1 "be")] = [])
     then two_users_world
     else add_event (EmbedCall ["alpha"; "be"]) two_users_world).
Proof.
  apply (embed_chunks_pairs_in_order sample_env two_users_world
           [(7, sample_chunk 10 1 "alpha"); (9, sample_chunk 11 1 "be")]
           [[5]; [2]]).
  - apply (bool_decide_unpack (NoDup [7; 9])). vm_compute. exact I.
  - reflexivity.
Defined.

(** ** The vector index: frames, failures and shape *)

Lemma length_omap_le {A B} (f : A → option B) (l : list A) :
  (length (omap f l) ≤ length l)%nat.
Proof. induction l as [|x l IH]; csimpl; [done|]. destruct (f x); simpl; lia. Qed.

Lemma dict_get_some {K V} `{EqDecision K} (d : pydict K V) k :
  k ∈ dict_keys d → is_Some (dict_get d k).
Proof.
  unfold dict_keys. induction d as [|[k' v'] d IH]; simpl.
  - intros H; inversion H.
  - rewrite elem_of_cons. destruct (decide (k' = k)); [by eauto|].
    intros [-> | H]; [done | auto].
Qed.

Lemma length_omap_dict_get {K V} `{EqDecision K} (d : pydict K V) :
  length (omap (dict_get d) (dict_keys d)) = length d.
Proof.
  assert (∀ l : list K, (∀ k, k ∈ l → k ∈ dict_keys d) →
            length (omap (dict_get d) l) = length l) as Hgen.
  { induction l as [|k l IH]; intros Hl; [done|]. cbn [omap list_omap].
    destruct (dict_get_some d k) as [v Hv]; [apply Hl; by left|].
    rewrite Hv. simpl. f_equal. apply IH. intros k' Hk'. apply Hl. by right. }
  rewrite Hgen by done. unfold dict_keys. by rewrite length_fmap.
Qed.

Lemma slots_foldl_above (n s : Z) (ids : list Z) (md : gmap Z Z) (k : Z) :
  n + s + Z.of_nat (length ids) ≤ k →
  foldl (λ m ic, <[n + ic.1 := ic.2]> m) md (enumerate s ids) !! k = md !! k.
Proof.
  revert md s. induction ids as [|c ids IH]; intros md s Hk; simpl in *; [done|].
  rewrite IH by lia. apply lookup_insert_ne. lia.
Qed.

Lemma slots_added_is_Some (n : Z) (ids : list Z) (md : gmap Z Z) (s : Z) :
  is_Some (slots_added n ids md !! s)
  ↔ is_Some (md !! s) ∨ (n ≤ s ∧ s < n + Z.of_nat (length ids)).
Proof.
  unfold slots_added.
  destruct (decide (n ≤ s ∧ s < n + Z.of_nat (length ids))) as [[H1 H2] | Hout].
  - split; [by right|]. intros _.
    destruct (lookup_lt_is_Some_2 ids (Z.to_nat (s - n))) as [c Hc]; [lia|].
    pose proof (slots_foldl_at n 0 ids md _ c Hc) as Hat.
    replace (n + 0 + Z.of_nat (Z.to_nat (s - n))) with s in Hat by lia.
    by eexists.
  - destruct (decide (s < n)).
    + rewrite slots_foldl_below by lia. tauto.
    + rewrite slots_foldl_above by lia. tauto.
Qed.

Section MoreIndexFacts.

Context (env : Collaborators).

(** The four ways [delete_pdf_vectors] ends, with the world it leaves. *)
Lemma delete_pdf_vectors_cases d u w :
  (chunks_of_document d u w = []
   ∧ delete_pdf_vectors env d u w = (Returns tt, w))
  ∨ (chunks_of_document d u w ≠ [] ∧ other_chunks_of_user d u w = []
     ∧ delete_pdf_vectors env d u w
       = (Returns tt, set_index_dir (delete u) (delete u) w))
  ∨ (chunks_of_document d u w ≠ [] ∧ other_chunks_of_user d u w ≠ []
     ∧ ∃ e w1, delete_pdf_vectors env d u w = (Raises e, w1)
         ∧ only_events_added w w1
         ∧ (embed_chunks env (other_chunks_of_user d u w) w = (Raises e, w1)
            ∨ ∃ ce, embed_chunks env (other_chunks_of_user d u w) w
                    = (Returns ce, w1)
                ∧ faiss_add (IndexFlatL2 (dimension env))
                    (omap (dict_get ce) (dict_keys ce)) = Raises e))
  ∨ (chunks_of_document d u w ≠ [] ∧ other_chunks_of_user d u w ≠ []
     ∧ ∃ ce w1 index',
         embed_chunks env (other_chunks_of_user d u w) w = (Returns ce, w1)
         ∧ only_events_added w w1
         ∧ faiss_add (IndexFlatL2 (dimension env))
             (omap (dict_get ce) (dict_keys ce)) = Returns index'
         ∧ delete_pdf_vectors env d u w
           = (Returns tt,
              set_index_dir (insert u index')
                (insert u (slots_added 0 (dict_keys ce) ∅)) w1)).
Proof.
  unfold delete_pdf_vectors, mbind, M_bind, get_world. cbv beta iota zeta.
  fold (chunks_of_document d u w). fold (other_chunks_of_user d u w).
  destruct (decide (list_to_set (chunks_of_document d u w).*1 =@{gset Z} ∅))
    as [Hempty | Hne].
  { left. split; [|done].
    destruct (chunks_of_document d u w) as [|[c row] l]; [done|].
    exfalso. apply (elem_of_equiv_empty_L (C := gset Z)) with (x := c) in Hempty.
    apply Hempty. set_solver. }
  right.
  assert (chunks_of_document d u w ≠ []) as Hdoc.
  { intros Heq. apply Hne. by rewrite Heq. }
  destruct (load_returns env u w) as (index0 & md0 & -> & _).
  destruct (decide (length (other_chunks_of_user d u w) = 0%nat)) as [Hnone | Hsome].
  { left. split; [done|]. split; [by apply nil_length_inv | done]. }
  right.
  assert (other_chunks_of_user d u w ≠ []) as Hothers.
  { intros Heq. apply Hsome. by rewrite Heq. }
  destruct (embed_chunks_effect env (other_chunks_of_user d u w) w)
    as (o & w1 & Hembed & Hw1 & Hnd & _).
  rewrite Hembed.
  destruct o as [ce | e |];
    [| left; split; [done|]; split; [done|]; exists e, w1; by auto | done].
  unfold lift.
  destruct (faiss_add _ _) as [index'| e |] eqn:Hadd; simpl.
  - right. split; [done|]. split; [done|]. exists ce, w1, index'.
    split; [done|]. split; [done|]. split; [done|]. reflexivity.
  - left. split; [done|]. split; [done|]. exists e, w1.
    split; [done|]. split; [done|]. right. by exists ce.
  - exfalso. unfold faiss_add in Hadd. destruct (omap _ _); [discriminate|].
    by destruct (forallb _ _).
Qed.

Lemma exec_op_other_user op w u :
  op_user op ≠ u →
  index_files (exec_op env op w).2 !! u = index_files w !! u
  ∧ metadata_files (exec_op env op w).2 !! u = metadata_files w !! u.
Proof.
  destruct op as [u0 m | d u0]; simpl; intros Hne.
  - destruct (load_returns env u0 w) as (index & md & Hload & _).
    destruct (add_embeddings_effect env u0 m w index md Hload)
      as [(e & _ & ->) | (index' & w1 & _ & Hw1 & ->)]; [done|]. simpl.
    destruct Hw1 as (_ & _ & -> & -> & _). by rewrite !lookup_insert_ne.
  - destruct (delete_pdf_vectors_cases d u0 w)
      as [(_ & ->) | [(_ & _ & ->) | [(_ & _ & e & w1 & -> & Hw1 & _)
         | (_ & _ & ce & w1 & index' & _ & Hw1 & _ & ->)]]]; simpl.
    + done.
    + by rewrite !lookup_delete_ne.
    + by destruct Hw1 as (_ & _ & _ & -> & -> & _).
    + destruct Hw1 as (_ & _ & _ & -> & -> & _). by rewrite !lookup_insert_ne.
Qed.

Lemma search_same_files u q k w1 w2 :
  index_files w1 !! u = index_files w2 !! u →
  metadata_files w1 !! u = metadata_files w2 !! u →
  (search env u q k w1).1 = (search env u q k w2).1.
Proof.
  intros Hi Hm. unfold search, mbind, M_bind, _load_user_index.
  rewrite Hi, Hm.
  destruct (index_files w2 !! u) as [index|];
    [destruct (metadata_files w2 !! u)|];
    (destruct (decide _); [done|]); unfold lift;
    by destruct (faiss_search _ _ _).
Qed.

End MoreIndexFacts.

(** X9.  Operations on the indexes of other users change neither the
    persisted index and mapping of user [u] nor what a search of [u]
    returns, whatever chunk ids and vectors they carry. *)
Theorem other_users_unaffected (env : Collaborators) (ops : list IndexOp)
    (w : World) (u : Z) (q : vec) (k : Z) :
  forallb (λ op, negb (bool_decide (op_user op = u))) ops = true →
  index_files (run_ops env ops w) !! u = index_files w !! u
  ∧ metadata_files (run_ops env ops w) !! u = metadata_files w !! u
  ∧ (search env u q k (run_ops env ops w)).1 = (search env u q k w).1.
Proof.
  intros Hops.
  assert (index_files (run_ops env ops w) !! u = index_files w !! u
          ∧ metadata_files (run_ops env ops w) !! u = metadata_files w !! u)
    as [Hi Hm].
  { revert w. induction ops as [|op ops IH]; intros w; simpl in *; [done|].
    apply andb_true_iff in Hops as [Hop Hops].
    apply negb_true_iff, bool_decide_eq_false in Hop.
    destruct (exec_op_other_user env op w u Hop) as [Hi Hm].
    destruct (IH Hops (exec_op env op w).2) as [Hi' Hm']. split; congruence. }
  split; [done|]. split; [done|]. by apply search_same_files.
Qed.

Lemma other_users_unaffected_witness :
  index_files (run_ops sample_env
                 [Add 2 [(8, [5])]; DeleteForDocument 10 2; Add 3 [(7, [5])]]
                 two_users_indexed_world) !! 1
  = index_files two_users_indexed_world !! 1
  ∧ metadata_files (run_ops sample_env
                      [Add 2 [(8, [5])]; DeleteForDocument 10 2; Add 3 [(7, [5])]]
                      two_users_indexed_world) !! 1
    = metadata_files two_users_indexed_world !! 1
  ∧ (search sample_env 1 [5] 3
       (run_ops sample_env
          [Add 2 [(8, [5])]; DeleteForDocument 10 2; Add 3 [(7, [5])]]
          two_users_indexed_world)).1
    = (search sample_env 1 [5] 3 two_users_indexed_world).1.
Proof.
  apply (other_users_unaffected sample_env
           [Add 2 [(8, [5])]; DeleteForDocument 10 2; Add 3 [(7, [5])]]
           two_users_indexed_world 1 [5] 3).
  vm_compute. reflexivity.
Defined.

Lemma forallb_dimension_values (d : nat) (m : pydict Z vec) :
  forallb (λ r, Nat.eqb (length r) d) m.*2
  = forallb (λ kv : Z * vec, Nat.eqb (length kv.2) d) m.
Proof. induction m as [|[k v] m IH]; csimpl; [done | by rewrite IH]. Qed.

(** X10.  [add_embeddings] rejects a dictionary that is empty or holds
    a vector whose length is not the dimension of the user's index: it
    raises before anything is written, so the index, the mapping and
    the chunk rows are exactly as before. *)
Theorem add_embeddings_rejects_invalid_batch (env : Collaborators) (w : World)
    (u : Z) (m : pydict Z vec) (index : FaissIndex) (md : gmap Z Z) :
  _load_user_index env u w = (Returns (index, md), w) →
  NoDup (dict_keys m) →
  valid_batch (faiss_d index) m = false →
  ∃ e, add_embeddings env u m w = (Raises e, w).
Proof.
  intros Hload Hnd Hinvalid.
  destruct (add_embeddings_effect env u m w index md Hload)
    as [(e & _ & Heq) | (index' & w1 & Hadd & _ & _)]; [by exists e|].
  exfalso. rewrite dict_values_in_order in Hadd by done.
  unfold valid_batch in Hinvalid. rewrite (bool_decide_eq_true_2 _ Hnd) in Hinvalid.
  rewrite andb_true_r in Hinvalid. unfold faiss_add in Hadd.
  destruct m as [|kv m]; [done|].
  rewrite bool_decide_eq_false_2 in Hinvalid by done. simpl negb in Hinvalid.
  rewrite andb_true_l in Hinvalid.
  rewrite forallb_dimension_values, Hinvalid in Hadd. discriminate.
Qed.

Lemma add_embeddings_rejects_invalid_batch_witness :
  ∃ e, add_embeddings sample_env 1 [(7, [5; 5])] two_users_indexed_world
       = (Raises e, two_users_indexed_world).
Proof.
  eapply (add_embeddings_rejects_invalid_batch sample_env
            two_users_indexed_world 1 [(7, [5; 5])]).
  - vm_compute. reflexivity.
  - apply (bool_decide_unpack (NoDup [7])). vm_compute. exact I.
  - vm_compute. reflexivity.
Defined.

(** X11.  [add_embeddings] only appends: after a valid batch is added
    the index has the same dimension and as many more vectors as the
    batch has entries, every vector already stored keeps its slot, the
    i-th entry of the batch is at slot [ntotal + i] with its chunk id
    recorded there, and every other entry of the mapping is as it was. *)
Theorem add_embeddings_appends (env : Collaborators) (w : World)
    (u : Z) (m : pydict Z vec) (index : FaissIndex) (md : gmap Z Z) :
  _load_user_index env u w = (Returns (index, md), w) →
  valid_batch (faiss_d index) m = true →
  ∃ w' index' md',
    add_embeddings env u m w = (Returns tt, w')
    ∧ index_files w' !! u = Some index'
    ∧ metadata_files w' !! u = Some md'
    ∧ faiss_d index' = faiss_d index
    ∧ ntotal index' = ntotal index + Z.of_nat (length m)
    ∧ (∀ (i : nat) v, faiss_xb index !! i = Some v → faiss_xb index' !! i = Some v)
    ∧ (∀ (i : nat) c v,
         m !! i = Some (c, v) →
         faiss_xb index' !! (length (faiss_xb index) + i)%nat = Some v
         ∧ md' !! (ntotal index + Z.of_nat i) = Some c)
    ∧ (∀ s, s < ntotal index ∨ ntotal index + Z.of_nat (length m) ≤ s →
         md' !! s = md !! s).
Proof.
  intros Hload Hvalid.
  destruct (add_embeddings_valid env u m w index md Hload Hvalid)
    as (w1 & Hw1 & ->).
  exists (set_index_dir
            (insert u {| faiss_d := faiss_d index;
                         faiss_xb := faiss_xb index ++ m.*2 |})
            (insert u (slots_added (ntotal index) (dict_keys m) md)) w1),
         {| faiss_d := faiss_d index; faiss_xb := faiss_xb index ++ m.*2 |},
         (slots_added (ntotal index) (dict_keys m) md).
  split; [reflexivity|]. simpl. rewrite !lookup_insert_eq.
  split; [done|]. split; [done|]. split; [done|]. split; [|split; [|split]].
  - unfold ntotal. simpl. rewrite length_app, length_fmap. lia.
  - intros i v Hi. by apply lookup_app_l_Some.
  - intros i c v Hi. split.
    + rewrite lookup_app_r by lia.
      replace (length (faiss_xb index) + i - length (faiss_xb index))%nat with i by lia.
      by rewrite list_lookup_fmap, Hi.
    + apply slots_added_lookup. unfold dict_keys. by rewrite list_lookup_fmap, Hi.
  - intros s Hs. unfold slots_added. destruct Hs as [Hs | Hs].
    + by rewrite slots_foldl_below by lia.
    + rewrite slots_foldl_above; [done|].
      unfold dict_keys. rewrite length_fmap. lia.
Qed.

Lemma add_embeddings_appends_witness :
  ∃ w' index' md',
    add_embeddings sample_env 1 [(9, [6]); (99, [4])] same_text_twice_world
    = (Returns tt, w')
    ∧ index_files w' !! 1 = Some index'
    ∧ metadata_files w' !! 1 = Some md'
    ∧ faiss_d index' = faiss_d one_vector_index
    ∧ ntotal index'
      = ntotal one_vector_index
        + Z.of_nat (length [(9, [6]); (99, [4])])
    ∧ (∀ (i : nat) v,
         faiss_xb one_vector_index !! i = Some v →
         faiss_xb index' !! i = Some v)
    ∧ (∀ (i : nat) c v,
         [(9, [6]); (99, [4])] !! i = Some (c, v) →
         faiss_xb index'
           !! (length (faiss_xb one_vector_index) + i)%nat
         = Some v
         ∧ md' !! (ntotal one_vector_index + Z.of_nat i)
           = Some c)
    ∧ (∀ s, s < ntotal one_vector_index
            ∨ ntotal one_vector_index
              + Z.of_nat (length [(9, [6]); (99, [4])]) ≤ s →
         md' !! s = one_slot_mapping !! s).
Proof.
  apply (add_embeddings_appends sample_env same_text_twice_world 1
           [(9, [6]); (99, [4])] one_vector_index one_slot_mapping).
  - vm_compute. reflexivity.
  - vm_compute. reflexivity.
Defined.

(** X12.  [search] is read-only and bounded: when it returns it has
    left the world as it was, and it returns at most
    [min(top_k, ntotal)] chunk ids (none when that is negative). *)
Theorem search_reads_only_and_bounded (env : Collaborators) (w w' : World)
    (u : Z) (q : vec) (k : Z) (ids : list Z)
    (index : FaissIndex) (md : gmap Z Z) :
  _load_user_index env u w = (Returns (index, md), w) →
  search env u q k w = (Returns ids, w') →
  w' = w
  ∧ Z.of_nat (length ids) ≤ Z.max 0 (Z.min k (ntotal index)).
Proof.
  intros Hload Hsearch.
  pose proof (search_frame env u q k w) as Hframe. rewrite Hsearch in Hframe.
  simpl in Hframe. split; [done|]. clear Hframe.
  unfold search, mbind, M_bind in Hsearch. rewrite Hload in Hsearch.
  destruct (decide (ntotal index = 0)) as [Hz|Hnz].
  - injection Hsearch as <- _. simpl. lia.
  - unfold lift, faiss_search in Hsearch.
    destruct (decide (length q = faiss_d index)); [|done].
    destruct (decide (0 < Z.min k (ntotal index))); [|done].
    injection Hsearch as <- _.
    match goal with |- context [omap _ ?labels] =>
      pose proof (length_omap_le (λ idx, md !! idx) labels) as Hle;
      assert (length labels = Z.to_nat (Z.min k (ntotal index))) as Hlen
        by (rewrite length_app, length_replicate, length_take; lia)
    end.
    lia.
Qed.

Lemma search_reads_only_and_bounded_witness :
  two_users_indexed_world = two_users_indexed_world
  ∧ Z.of_nat (length [7])
    ≤ Z.max 0 (Z.min 5 (ntotal one_vector_index)).
Proof.
  apply (search_reads_only_and_bounded sample_env two_users_indexed_world
           two_users_indexed_world 1 [6] 5 [7]
           one_vector_index one_slot_mapping).
  - vm_compute. reflexivity.
  - vm_compute. reflexivity.
Defined.

(** X13.  [delete_pdf_vectors] writes neither a chunk row nor a
    document: the rows, and with them the [vector_id] of the chunks
    that remain, are as before even when the rebuild has given these
    chunks new slots.  When it raises, the persisted index and mapping
    of every user are as before too. *)
Theorem delete_pdf_vectors_leaves_rows (env : Collaborators) (w : World)
    (d u : Z) :
  chunks (delete_pdf_vectors env d u w).2 = chunks w
  ∧ pdf_files (delete_pdf_vectors env d u w).2 = pdf_files w
  ∧ (∀ e, (delete_pdf_vectors env d u w).1 = Raises e →
       index_files (delete_pdf_vectors env d u w).2 = index_files w
       ∧ metadata_files (delete_pdf_vectors env d u w).2 = metadata_files w).
Proof.
  destruct (delete_pdf_vectors_cases env d u w)
    as [(_ & ->) | [(_ & _ & ->) | [(_ & _ & e & w1 & -> & Hw1 & _)
       | (_ & _ & ce & w1 & index' & _ & Hw1 & _ & ->)]]]; simpl.
  - done.
  - done.
  - destruct Hw1 as (-> & -> & _ & -> & -> & _). done.
  - destruct Hw1 as (-> & -> & _). done.
Qed.

(** *** Index and mapping stay of one size *)

Lemma faiss_add_Returns index rows index' :
  faiss_add index rows = Returns index' →
  index' = {| faiss_d := faiss_d index; faiss_xb := faiss_xb index ++ rows |}.
Proof.
  unfold faiss_add. destruct rows; [done|].
  destruct (forallb _ _); [by intros [= <-] | done].
Qed.

Lemma consistent_index_set (w w1 : World) (u u0 : Z)
    (index : FaissIndex) (md : gmap Z Z) :
  index_files w1 = index_files w → metadata_files w1 = metadata_files w →
  consistent_index w u →
  (∀ s, is_Some (md !! s) ↔ 0 ≤ s ∧ s < ntotal index) →
  consistent_index
    (set_index_dir (insert u0 index) (insert u0 md) w1) u.
Proof.
  intros Hi Hm Hcons Hnew. unfold consistent_index in *. simpl.
  rewrite Hi, Hm. destruct (decide (u0 = u)) as [->|Hne].
  - by rewrite !lookup_insert_eq.
  - by rewrite !lookup_insert_ne.
Qed.

Section Consistency.

Context (env : Collaborators).

Lemma load_consistent u w index md :
  consistent_index w u →
  _load_user_index env u w = (Returns (index, md), w) →
  ∀ s, is_Some (md !! s) ↔ 0 ≤ s ∧ s < ntotal index.
Proof.
  unfold consistent_index, _load_user_index.
  destruct (index_files w !! u) as [index0|];
    destruct (metadata_files w !! u) as [md0|]; try done.
  - by intros H [= <- <-].
  - intros _ [= <- <-] s. rewrite lookup_empty. unfold ntotal. simpl.
    split; [by intros [] | lia].
Qed.

Lemma exec_op_consistent op w :
  (∀ u, consistent_index w u) → ∀ u, consistent_index (exec_op env op w).2 u.
Proof.
  intros Hcons u. destruct op as [u0 m | d u0]; simpl.
  - destruct (load_returns env u0 w) as (index & md & Hload & _).
    pose proof (load_consistent u0 w index md (Hcons u0) Hload) as Hmd.
    destruct (add_embeddings_effect env u0 m w index md Hload)
      as [(e & _ & ->) | (index' & w1 & Hadd & Hw1 & ->)]; [done|]. simpl.
    destruct Hw1 as (_ & _ & Hi & Hm & _).
    apply (consistent_index_set w); [done | done | done |].
    apply faiss_add_Returns in Hadd as ->. intros s.
    rewrite slots_added_is_Some, Hmd. unfold ntotal. simpl.
    rewrite length_app, length_omap_dict_get.
    unfold dict_keys. rewrite length_fmap. lia.
  - destruct (delete_pdf_vectors_cases env d u0 w)
      as [(_ & ->) | [(_ & _ & ->) | [(_ & _ & e & w1 & -> & Hw1 & _)
         | (_ & _ & ce & w1 & index' & _ & Hw1 & Hadd & ->)]]]; simpl.
    + done.
    + specialize (Hcons u). unfold consistent_index in *. simpl.
      destruct (decide (u0 = u)) as [->|Hne].
      * by rewrite !lookup_delete_eq.
      * by rewrite !lookup_delete_ne.
    + specialize (Hcons u). unfold consistent_index in *.
      by destruct Hw1 as (_ & _ & _ & -> & -> & _).
    + destruct Hw1 as (_ & _ & _ & Hi & Hm & _).
      apply (consistent_index_set w); [done | done | done |].
      apply faiss_add_Returns in Hadd as ->. intros s.
      rewrite slots_added_is_Some, lookup_empty. unfold ntotal. simpl.
      rewrite length_omap_dict_get. unfold dict_keys. rewrite length_fmap.
      split; [intros [[] | ?]; [done | lia] | intros ?; right; lia].
Qed.

Lemma run_ops_consistent ops w :
  (∀ u, consistent_index w u) → ∀ u, consistent_index (run_ops env ops w) u.
Proof.
  revert w. induction ops as [|op ops IH]; intros w Hcons; simpl; [done|].
  by apply IH, exec_op_consistent.
Qed.

End Consistency.

(** X14.  Starting from an empty index directory, after any sequence
    of [add] and [delete_for_document] operations, whatever they carry
    and whether they return or raise, the index and the mapping of
    every user are persisted together and agree: the slots that have a
    mapping entry are exactly the slots [0 .. ntotal - 1] of the index. *)
Theorem index_and_mapping_agree (env : Collaborators) (ops : list IndexOp)
    (w : World) (u : Z) :
  index_files w = ∅ → metadata_files w = ∅ →
  consistent_index (run_ops env ops w) u.
Proof.
  intros Hi Hm. apply run_ops_consistent. intros u'.
  unfold consistent_index. by rewrite Hi, Hm, !lookup_empty.
Qed.

Lemma index_and_mapping_agree_witness :
  index_files two_users_world = ∅
  ∧ consistent_index
      (run_ops sample_env
         [Add 1 [(7, [5])]; Add 2 [(8, [4]); (99, [3])]; Add 1 [];
          DeleteForDocument 20 2; Add 1 [(9, [1; 2])]]
         two_users_world) 2.
Proof.
  split; [reflexivity|].
  apply (index_and_mapping_agree sample_env
           [Add 1 [(7, [5])]; Add 2 [(8, [4]); (99, [3])]; Add 1 [];
            DeleteForDocument 20 2; Add 1 [(9, [1; 2])]]
           two_users_world 2); reflexivity.
Defined.

(** *** What a search over a whole index returns *)





(** *** What a rebuild leaves *)

Lemma pyzip_fst_same_length {A B} (a : list A) (b : list B) :
  length a = length b → (pyzip a b).*1 = a.
Proof.
  revert b. induction a as [|x a IH]; intros [|y b] Hlen; simpl in *; try done.
  f_equal. apply IH. lia.
Qed.

Lemma pyzip_snd_same_length {A B} (a : list A) (b : list B) :
  length a = length b → (pyzip a b).*2 = b.
Proof.
  revert b. induction a as [|x a IH]; intros [|y b] Hlen; simpl in *; try done.
  f_equal. apply IH. lia.
Qed.

Lemma NoDup_Chunk_objects_filter_ids (p : Z → Chunk → bool) (w : World) :
  NoDup (Chunk_objects_filter p w).*1.
Proof.
  unfold Chunk_objects_filter. rewrite merge_sort_Permutation.
  eapply sublist_NoDup; [apply (NoDup_fst_map_to_list (chunks w))|].
  apply fmap_sublist, sublist_filter.
Qed.

Lemma embed_chunks_zip (env : Collaborators) (w : World)
    (chunk_objs : list (Z * Chunk)) (embeddings : list vec) :
  chunk_objs ≠ [] → NoDup chunk_objs.*1 →
  model_encode env (map (λ c, chunk_text c.2) chunk_objs) = inr embeddings →
  embed_chunks env chunk_objs w
  = (Returns (pyzip chunk_objs.*1 embeddings),
     add_event (EmbedCall (map (λ c, chunk_text c.2) chunk_objs)) w).
Proof.
  intros Hne Hnd Hencode. destruct chunk_objs as [|c cs]; [done|].
  unfold embed_chunks, generate_embeddings_batch, mbind, M_bind, log, modify.
  cbv beta iota. rewrite Hencode. unfold mret, M_ret. f_equal. f_equal.
  exact (dict_of_distinct_pairs (pyzip (c :: cs).*1 embeddings) []
           (pyzip_fst_NoDup _ _ Hnd)).
Qed.

(** X16.  Deleting the vectors of a document that has chunks, while
    the user has other chunks, no two of which agree on both the
    upload date of their document and their [chunk_index], and the
    model gives one vector of the configured dimension for each of
    them: the call returns, the new index of the user holds exactly
    the rows of those vectors, in the default order of the remaining
    chunks (latest upload first, then [chunk_index]), and the new
    mapping numbers these chunks from slot 0 in that order; what the
    old index and mapping held plays no part. *)
Theorem delete_rebuilds_from_remaining_chunks (env : Collaborators)
    (w : World) (d u : Z) (embeddings : list vec) :
  chunks_of_document d u w ≠ [] →
  other_chunks_of_user d u w ≠ [] →
  NoDup (map (λ c : Z * Chunk, (chunk_upload_date w c.2, chunk_index c.2))
           (other_chunks_of_user d u w)) →
  model_encode env (map (λ c, chunk_text c.2) (other_chunks_of_user d u w))
  = inr embeddings →
  length embeddings = length (other_chunks_of_user d u w) →
  forallb (λ r, Nat.eqb (length r) (dimension env)) embeddings = true →
  ∃ w' md',
    delete_pdf_vectors env d u w = (Returns tt, w')
    ∧ index_files w' !! u
      = Some {| faiss_d := dimension env; faiss_xb := embeddings |}
    ∧ metadata_files w' !! u = Some md'
    ∧ ∀ s c, md' !! s = Some c
        ↔ 0 ≤ s ∧ (other_chunks_of_user d u w).*1 !! Z.to_nat s = Some c.
Proof.
  intros Hdoc Hrest _ Hencode Hlen Hdim.
  pose proof (NoDup_Chunk_objects_filter_ids
                (λ _ c, bool_decide (chunk_user c = u)
                        && negb (bool_decide (chunk_pdf c = d))) w) as Hnd.
  fold (other_chunks_of_user d u w) in Hnd.
  pose proof (embed_chunks_zip env w _ _ Hrest Hnd Hencode) as Hembed.
  pose proof (delete_pdf_vectors_cases env d u w) as Hcases.
  set (rest := other_chunks_of_user d u w) in *.
  assert (length rest.*1 = length embeddings) as Hlen'
    by (by rewrite length_fmap).
  assert (embeddings ≠ []) as Hne.
  { intros ->. destruct rest; [done | discriminate]. }
  assert (dict_keys (pyzip rest.*1 embeddings) = rest.*1) as Hkeys
    by (by apply pyzip_fst_same_length).
  assert (omap (dict_get (pyzip rest.*1 embeddings))
               (dict_keys (pyzip rest.*1 embeddings)) = embeddings) as Hvals.
  { rewrite dict_values_in_order by (by rewrite Hkeys).
    by apply pyzip_snd_same_length. }
  assert (faiss_add (IndexFlatL2 (dimension env)) embeddings
          = Returns {| faiss_d := dimension env; faiss_xb := embeddings |})
    as Hadd by (by apply faiss_add_valid).
  destruct Hcases
    as [(Hno & _) | [(_ & Hno & _) | [(_ & _ & e & w1 & _ & _ & Hraise)
       | (_ & _ & ce & w1 & index' & Hce & _ & Hadd' & ->)]]]; try done.
  - exfalso. destruct Hraise as [Hraise | (ce & Hce & Hraise)].
    + rewrite Hembed in Hraise. discriminate.
    + rewrite Hembed in Hce. injection Hce as <- <-.
      rewrite Hvals, Hadd in Hraise. discriminate.
  - rewrite Hembed in Hce. injection Hce as <- <-.
    rewrite Hvals, Hadd in Hadd'. injection Hadd' as <-.
    eexists _, _. split; [reflexivity|]. simpl.
    rewrite !lookup_insert_eq. split; [done|]. split; [done|].
    rewrite Hkeys. intros s c. split.
    + intros Hs. assert (is_Some (slots_added 0 rest.*1 ∅ !! s)) as Hin by eauto.
      apply slots_added_is_Some in Hin as [[? Hin] | Hin];
        [by rewrite lookup_empty in Hin|].
      split; [lia|].
      destruct (lookup_lt_is_Some_2 rest.*1 (Z.to_nat s)) as [c' Hc']; [lia|].
      pose proof (slots_added_lookup 0 rest.*1 ∅ _ c' Hc') as Hat.
      replace (0 + Z.of_nat (Z.to_nat s)) with s in Hat by lia.
      congruence.
    + intros [Hs Hc].
      pose proof (slots_added_lookup 0 rest.*1 ∅ _ c Hc) as Hat.
      by replace (0 + Z.of_nat (Z.to_nat s)) with s in Hat by lia.
Qed.

Lemma delete_rebuilds_from_remaining_chunks_witness :
  (other_chunks_of_user 12 1 three_uploads_world).*1 = [9; 7]
  ∧ ∃ w' md',
      delete_pdf_vectors sample_env 12 1 three_uploads_world = (Returns tt, w')
      ∧ index_files w' !! 1
        = Some {| faiss_d := dimension sample_env; faiss_xb := [[2]; [5]] |}
      ∧ metadata_files w' !! 1 = Some md'
      ∧ ∀ s c, md' !! s = Some c
          ↔ 0 ≤ s
            ∧ (other_chunks_of_user 12 1 three_uploads_world).*1 !! Z.to_nat s
              = Some c.
Proof.
  split; [vm_compute; reflexivity|].
  apply (delete_rebuilds_from_remaining_chunks sample_env
           three_uploads_world 12 1 [[2]; [5]]).
  - vm_compute. discriminate.
  - vm_compute. discriminate.
  - apply (bool_decide_unpack (NoDup [(2, 0); (1, 0)])). vm_compute. exact I.
  - vm_compute. reflexivity.
  - vm_compute. reflexivity.
  - reflexivity.
Defined.

(** ** The ingestion task: result and stored status *)

Section TaskResultFacts.

Context (env : Collaborators).

(** The row of the document that [process_and_save_chunks] leaves. *)
Lemma process_and_save_chunks_row self fuel id pdf w :
  ∃ o w', process_and_save_chunks env self fuel id pdf w = (o, w')
    ∧ match o with
      | Returns (pdf', cs) =>
          pdf_files w' !! id = Some pdf'
          ∧ processing_status pdf' = completed
          ∧ total_chunks pdf' = Z.of_nat (length cs)
          ∧ pdf_user pdf' = pdf_user pdf
      | Raises e =>
          ∃ p', pdf_files w' !! id = Some p'
            ∧ processing_status p' = failed
            ∧ pdf_metadata p' = Some (exn_str e)
            ∧ pdf_user p' = pdf_user pdf
            ∧ exn_cls e = OtherException
      | Diverges =>
          ∃ p', pdf_files w' !! id = Some p'
            ∧ processing_status p' = processing
            ∧ pdf_user p' = pdf_user pdf
      end.
Proof.
  unfold process_and_save_chunks, try_except, mbind, M_bind,
    extract_text_from_pdf, mbind, M_bind, mark_failed, mbind, M_bind,
    PDFFile_save, mbind, M_bind, log, modify, raise, mret, M_ret; simpl.
  destruct (pdf_reader env (file_path pdf)) as [msg | pages]; simpl.
  { eexists _, _. split; [reflexivity|]. simpl.
    eexists. rewrite lookup_insert_eq. by repeat split. }
  match goal with |- context [run_chunker self fuel ?pt ?w1] =>
    destruct (run_chunker_outcome self fuel pt w1) as (o & -> & Hcls) end.
  destruct o as [chunk_data | e |].
  - match goal with |- context [save_chunks id ?u chunk_data ?w1] =>
      destruct (save_chunks_outcome id u chunk_data w1)
        as (cs & w2 & -> & [Hp He] & _) end.
    eexists _, _. split; [reflexivity|]. simpl.
    rewrite lookup_insert_eq. by repeat split.
  - eexists _, _. split; [reflexivity|]. simpl.
    eexists. rewrite lookup_insert_eq. repeat split; try done. by apply Hcls.
  - eexists _, _. split; [reflexivity|]. simpl.
    eexists. rewrite lookup_insert_eq. by repeat split.
Qed.

End TaskResultFacts.

(** X17.  Run on a document that exists, the ingestion task leaves the
    row of the document in the state that its result tells: it returns
    the [completed] dictionary, with the number of chunks stored in the
    row and at least one, only with the row [completed]; it returns
    [None] only with the row [failed] under the fixed no-text payload;
    it raises [e] only with the row [failed] under the payload
    [str(e)]; it never returns the not-found dictionary; and a run that
    does not end leaves the row [processing].  The owner of the
    document is never changed. *)
Theorem task_result_matches_stored_status (env : Collaborators) (fuel : nat)
    (pdf_id : Z) (w : World) (pdf : PDFFile) :
  pdf_files w !! pdf_id = Some pdf →
  ∃ o w' pdf',
    process_pdf_async env fuel pdf_id w = (o, w')
    ∧ pdf_files w' !! pdf_id = Some pdf'
    ∧ pdf_user pdf' = pdf_user pdf
    ∧ match o with
      | Returns (TaskCompleted id n) =>
          id = pdf_id ∧ processing_status pdf' = completed
          ∧ total_chunks pdf' = n ∧ 0 < n
      | Returns TaskNone =>
          processing_status pdf' = failed
          ∧ pdf_metadata pdf' = Some "Aucun texte n'a pu être extrait du PDF"
          ∧ total_chunks pdf' = 0
      | Returns (TaskError _) => False
      | Raises e =>
          processing_status pdf' = failed
          ∧ pdf_metadata pdf' = Some (exn_str e)
      | Diverges => processing_status pdf' = processing
      end.
Proof.
  intros Hpdf.
  unfold process_pdf_async, try_except, mbind, M_bind, PDFFile_objects_get at 1.
  rewrite Hpdf. cbv beta iota.
  destruct (process_and_save_chunks_row env
              {| chunk_size := 800; chunk_overlap := 100 |} fuel pdf_id pdf w)
    as (o & w1 & -> & Ho).
  destruct o as [[pdf' cs] | e |]; simpl.
  - destruct Ho as (Hrow & Hst & Htot & Hu). destruct cs as [|c cs].
    + unfold PDFFile_save, mbind, M_bind, log, modify, mret, M_ret; simpl.
      eexists _, _, _. split; [reflexivity|]. simpl.
      rewrite lookup_insert_eq. split; [reflexivity|]. simpl.
      split; [done|]. by repeat split.
    + destruct (embed_chunks_outcome env (c :: cs) w1)
        as (o2 & w2 & -> & [Hp2 He2] & Ho2).
      destruct o2 as [ce | e |]; [| |done].
      * destruct (add_embeddings_outcome env (pdf_user pdf') ce w2)
          as (o3 & w3 & -> & [Hp3 He3] & Ho3).
        destruct o3 as [[] | e |]; [| |done].
        -- unfold PDFFile_save, mbind, M_bind, log, modify, mret, M_ret; simpl.
           eexists _, _, _. split; [reflexivity|]. simpl.
           rewrite lookup_insert_eq. split; [reflexivity|]. simpl.
           split; [done|]. by repeat split.
        -- rewrite Ho3. simpl. unfold PDFFile_objects_get, PDFFile_save,
             mbind, M_bind, log, modify, raise, mret, M_ret; simpl.
           rewrite Hp3, Hp2, Hrow. simpl.
           eexists _, _, _. split; [reflexivity|]. simpl.
           rewrite lookup_insert_eq. split; [reflexivity|]. simpl.
           split; [done|]. by split.
      * rewrite Ho2. simpl. unfold PDFFile_objects_get, PDFFile_save,
          mbind, M_bind, log, modify, raise, mret, M_ret; simpl.
        rewrite Hp2, Hrow. simpl.
        eexists _, _, _. split; [reflexivity|]. simpl.
        rewrite lookup_insert_eq. split; [reflexivity|]. simpl.
        split; [done|]. by split.
  - destruct Ho as (p' & Hrow & Hst & Hmeta & Hu & Hcls). rewrite Hcls. simpl.
    unfold PDFFile_objects_get, PDFFile_save,
      mbind, M_bind, log, modify, raise, mret, M_ret; simpl.
    rewrite Hrow. simpl.
    eexists _, _, _. split; [reflexivity|]. simpl.
    rewrite lookup_insert_eq. split; [reflexivity|]. simpl.
    split; [done|]. by split.
  - destruct Ho as (p' & Hrow & Hst & Hu).
    exists Diverges, w1, p'. by repeat split.
Qed.

Lemma task_result_matches_stored_status_witness :
  ∃ o w' pdf',
    process_pdf_async sample_env 10 10 two_users_world = (o, w')
    ∧ pdf_files w' !! 10 = Some pdf'
    ∧ pdf_user pdf' = pdf_user (sample_pdf 1 "a.pdf")
    ∧ match o with
      | Returns (TaskCompleted id n) =>
          id = 10 ∧ processing_status pdf' = completed
          ∧ total_chunks pdf' = n ∧ 0 < n
      | Returns TaskNone =>
          processing_status pdf' = failed
          ∧ pdf_metadata pdf' = Some "Aucun texte n'a pu être extrait du PDF"
          ∧ total_chunks pdf' = 0
      | Returns (TaskError _) => False
      | Raises e =>
          processing_status pdf' = failed
          ∧ pdf_metadata pdf' = Some (exn_str e)
      | Diverges => processing_status pdf' = processing
      end.
Proof.
  apply (task_result_matches_stored_status sample_env 10 10 two_users_world
           (sample_pdf 1 "a.pdf")).
  reflexivity.
Defined.

(** X18.  Run on an id that no document has, the ingestion task
    returns the not-found dictionary naming the id and changes nothing:
    no row is written, no file is read and no model is called. *)
Theorem task_on_missing_document (env : Collaborators) (fuel : nat)
    (pdf_id : Z) (w : World) :
  pdf_files w !! pdf_id = None →
  process_pdf_async env fuel pdf_id w
  = (Returns (TaskError ("PDF avec id " +:+ pretty pdf_id +:+ " introuvable")),
     w).
Proof.
  intros Hpdf.
  unfold process_pdf_async, try_except, mbind, M_bind, PDFFile_objects_get at 1.
  rewrite Hpdf. cbv beta iota. by rewrite decide_True.
Qed.

Lemma task_on_missing_document_witness :
  process_pdf_async sample_env 10 33 two_users_world
  = (Returns (TaskError ("PDF avec id " +:+ pretty 33 +:+ " introuvable")),
     two_users_world).
Proof.
  apply (task_on_missing_document sample_env 10 33 two_users_world).
  reflexivity.
Defined.

(** ** The rows that ingestion writes *)

Lemma save_chunks_effect (pdf_id user_id : Z) (chunk_data : list ChunkInfo)
    (w : World) :
  ∃ cs w',
    save_chunks pdf_id user_id chunk_data w = (Returns cs, w')
    ∧ cs.*1 = seqZ (next_chunk_id w) (Z.of_nat (length chunk_data))
    ∧ next_chunk_id w' = next_chunk_id w + Z.of_nat (length chunk_data)
    ∧ Forall2 (λ (c : Z * Chunk) ci,
                 c.2 = {| chunk_pdf := pdf_id; chunk_user := user_id;
                          chunk_text := ci_text ci;
                          chunk_index := ci_chunk_index ci;
                          page_number := ci_page_number ci;
                          start_char := ci_start_char ci;
                          end_char := ci_end_char ci;
                          token_count := ci_token_count ci;
                          vector_id := None |}) cs chunk_data
    ∧ (∀ c, c ∈ cs → chunks w' !! c.1 = Some c.2)
    ∧ (∀ id, id < next_chunk_id w → chunks w' !! id = chunks w !! id)
    ∧ pdf_files w' = pdf_files w
    ∧ index_files w' = index_files w
    ∧ metadata_files w' = metadata_files w
    ∧ chat_sessions w' = chat_sessions w
    ∧ messages w' = messages w
    ∧ events w' = events w.
Proof.
  revert w. induction chunk_data as [|ci rest IH]; intros w.
  - exists [], w. simpl. rewrite Z.add_0_r. repeat split; try done.
    intros c Hc. inversion Hc.
  - cbn [save_chunks]. unfold mbind, M_bind, Chunk_objects_create at 1.
    match goal with |- context [save_chunks _ _ rest ?w1] =>
      destruct (IH w1)
        as (cs & w' & -> & Hids & Hnext & Hrows & Hin & Hold
            & Hp & Hi & Hm & Hs & Hmsg & Hev) end.
    cbn [next_chunk_id chunks pdf_files index_files metadata_files
         chat_sessions messages events] in *.
    eexists _, w'. split; [reflexivity|].
    rewrite fmap_cons, Hids. cbn [fst length].
    split.
    { rewrite (seqZ_cons (next_chunk_id w)) by lia. do 2 f_equal; lia. }
    split; [lia|].
    split; [by constructor|].
    split.
    { intros c Hc. apply elem_of_cons in Hc as [-> | Hc]; [|by apply Hin].
      cbn [fst snd]. rewrite Hold by lia. apply lookup_insert_eq. }
    split.
    { intros id Hid. rewrite Hold by lia. apply lookup_insert_ne. lia. }
    done.
Qed.

(** X19.  The loop of [process_and_save_chunks] that stores the chunks
    always returns; it creates one row per chunk of the chunker, in
    order, under consecutive ids from the next id of the table; every
    row belongs to the document and to its owner, carries the text,
    index, page, offsets and token count of its chunk and no
    [vector_id]; all of them are in the table afterwards, and no row
    with an earlier id is changed. *)
Theorem save_chunks_rows (pdf_id user_id : Z) (chunk_data : list ChunkInfo)
    (w : World) :
  ∃ cs w',
    save_chunks pdf_id user_id chunk_data w = (Returns cs, w')
    ∧ cs.*1 = seqZ (next_chunk_id w) (Z.of_nat (length chunk_data))
    ∧ Forall2 (λ (c : Z * Chunk) ci,
                 c.2 = {| chunk_pdf := pdf_id; chunk_user := user_id;
                          chunk_text := ci_text ci;
                          chunk_index := ci_chunk_index ci;
                          page_number := ci_page_number ci;
                          start_char := ci_start_char ci;
                          end_char := ci_end_char ci;
                          token_count := ci_token_count ci;
                          vector_id := None |}) cs chunk_data
    ∧ (∀ c, c ∈ cs → chunks w' !! c.1 = Some c.2)
    ∧ (∀ id, id < next_chunk_id w → chunks w' !! id = chunks w !! id).
Proof.
  destruct (save_chunks_effect pdf_id user_id chunk_data w)
    as (cs & w' & Heq & Hids & _ & Hrows & Hin & Hold & _).
  by exists cs, w'.
Qed.

(** ** What the ingestion task leaves alone *)

Lemma ingestion_frame_refl pdf_id u b w : ingestion_frame pdf_id u b w w.
Proof. repeat split; try done. exists []. by rewrite app_nil_r. Qed.

Lemma ingestion_frame_trans pdf_id u b w1 w2 w3 :
  ingestion_frame pdf_id u b w1 w2 → ingestion_frame pdf_id u b w2 w3 →
  ingestion_frame pdf_id u b w1 w3.
Proof.
  intros (Hp1 & Hc1 & Hi1 & Hs1 & Hm1 & new1 & He1)
         (Hp2 & Hc2 & Hi2 & Hs2 & Hm2 & new2 & He2).
  split; [intros id Hid; by rewrite Hp2, Hp1|].
  split; [intros id Hid; by rewrite Hc2, Hc1|].
  split.
  { intros u' Hu'. destruct (Hi1 u' Hu') as [<- <-]. by apply Hi2. }
  split; [congruence|]. split; [congruence|].
  exists (new1 ++ new2). by rewrite He2, He1, app_assoc.
Qed.

Lemma ingestion_frame_saved pdf_id u b w w1 p st :
  ingestion_frame pdf_id u b w w1 →
  ingestion_frame pdf_id u b w
    (add_event (PdfSaved pdf_id st) (set_pdf_files (insert pdf_id p) w1)).
Proof.
  intros (Hp1 & Hc1 & Hi1 & Hs1 & Hm1 & new1 & He1).
  split; [intros id Hid; simpl; by rewrite lookup_insert_ne, Hp1|].
  split; [done|]. split; [done|]. split; [done|]. split; [done|].
  exists (new1 ++ [PdfSaved pdf_id st]). simpl. by rewrite He1, app_assoc.
Qed.

Lemma ingestion_frame_logged pdf_id u b w w1 ev :
  ingestion_frame pdf_id u b w w1 →
  ingestion_frame pdf_id u b w (add_event ev w1).
Proof.
  intros (Hp1 & Hc1 & Hi1 & Hs1 & Hm1 & new1 & He1).
  repeat split; try done; try (by apply Hi1).
  exists (new1 ++ [ev]). simpl. by rewrite He1, app_assoc.
Qed.

Lemma ingestion_frame_events pdf_id u b w w1 :
  only_events_added w w1 → ingestion_frame pdf_id u b w w1.
Proof.
  intros (Hp & Hc & _ & Hi & Hm & Hs & Hmsg & Hev).
  split; [intros; by rewrite Hp|]. split; [intros; by rewrite Hc|].
  split; [intros; by rewrite Hi, Hm|]. done.
Qed.

Lemma record_slots_untouched (n : Z) (items : list (Z * Z)) (md : gmap Z Z)
    (w : World) (c : Z) :
  c ∉ items.*2 →
  chunks (record_slots n items md w).2 !! c = chunks w !! c.
Proof.
  revert md w. induction items as [|[i c0] items IH]; intros md w Hc; [done|].
  rewrite fmap_cons in Hc. apply not_elem_of_cons in Hc as [Hne Hc].
  cbn [record_slots]. unfold mbind, M_bind, try_except, Chunk_objects_get at 1.
  destruct (chunks w !! c0) as [row|] eqn:Hc0.
  - unfold Chunk_save, modify, mret, M_ret. cbv beta iota.
    rewrite IH by done. simpl. by apply lookup_insert_ne.
  - cbn [exn_cls]. rewrite decide_True by done.
    unfold mret, M_ret. by rewrite IH.
Qed.

Section TaskFrame.

Context (env : Collaborators).

Lemma ingestion_frame_add pdf_id u b m w :
  (∀ c, c ∈ dict_keys m → b ≤ c) →
  ingestion_frame pdf_id u b w (add_embeddings env u m w).2.
Proof.
  intros Hkeys.
  destruct (load_returns env u w) as (index & md & Hload & _).
  unfold add_embeddings, mbind, M_bind. rewrite Hload. unfold lift.
  destruct (faiss_add index _) as [index'| e |]; cbv beta iota;
    try apply ingestion_frame_refl.
  destruct (record_slots_effect (ntotal index) (enumerate 0 (dict_keys m)) md w)
    as (w1 & Hrec & Hw1).
  pose proof (record_slots_untouched (ntotal index)
                (enumerate 0 (dict_keys m)) md w) as Hrows.
  rewrite Hrec in *. cbn [snd] in Hrows.
  destruct Hw1 as (Hp & _ & Hi & Hm & Hs & Hmsg & Hev & _).
  unfold _save_user_index, modify. cbn [snd].
  split; [intros; simpl; by rewrite Hp|].
  split.
  { intros id Hid. simpl. apply Hrows. rewrite enumerate_fst_snd.
    intros Hin. apply Hkeys in Hin. lia. }
  split.
  { intros u' Hu'. simpl. rewrite !lookup_insert_ne by done. by rewrite Hi, Hm. }
  split; [done|]. split; [done|]. exists []. simpl. by rewrite Hev, app_nil_r.
Qed.

Lemma process_and_save_chunks_frame self fuel id u pdf w :
  ∃ o w1, process_and_save_chunks env self fuel id pdf w = (o, w1)
    ∧ ingestion_frame id u (next_chunk_id w) w w1
    ∧ is_Some (pdf_files w1 !! id)
    ∧ match o with
      | Returns (pdf', cs) =>
          pdf_user pdf' = pdf_user pdf
          ∧ ∀ c, c ∈ cs.*1 → next_chunk_id w ≤ c
      | Raises e => exn_cls e = OtherException
      | Diverges => True
      end.
Proof.
  unfold process_and_save_chunks, try_except, mbind, M_bind,
    extract_text_from_pdf, mbind, M_bind, mark_failed, mbind, M_bind,
    PDFFile_save, mbind, M_bind, log, modify, raise, mret, M_ret; simpl.
  destruct (pdf_reader env (file_path pdf)) as [msg | pages]; simpl.
  { eexists _, _. split; [reflexivity|]. split.
    - apply ingestion_frame_saved, ingestion_frame_logged,
        ingestion_frame_saved, ingestion_frame_refl.
    - simpl. rewrite lookup_insert_eq. by split; [eexists|]. }
  match goal with |- context [run_chunker self fuel ?pt ?w1] =>
    destruct (run_chunker_outcome self fuel pt w1) as (o & -> & Hcls) end.
  destruct o as [chunk_data | e |].
  - match goal with |- context [save_chunks id ?u chunk_data ?w1] =>
      destruct (save_chunks_effect id u chunk_data w1)
        as (cs & w2 & -> & Hids & Hnext & _ & _ & Hold
            & Hp & Hi & Hm & Hs & Hmsg & Hev) end.
    cbn [next_chunk_id chunks pdf_files index_files metadata_files
         chat_sessions messages events add_event set_pdf_files] in *.
    eexists _, _. split; [reflexivity|]. split.
    + apply ingestion_frame_saved.
      split; [intros i Hi'; by rewrite Hp, lookup_insert_ne|].
      split; [done|].
      split; [intros; by rewrite Hi, Hm|].
      split; [done|]. split; [done|]. rewrite Hev, <- app_assoc. by eexists.
    + simpl. rewrite lookup_insert_eq. split; [by eexists|].
      split; [done|]. intros c Hc. rewrite Hids in Hc.
      apply elem_of_seqZ in Hc. lia.
  - eexists _, _. split; [reflexivity|]. split.
    + apply ingestion_frame_saved, ingestion_frame_logged,
        ingestion_frame_saved, ingestion_frame_refl.
    + simpl. rewrite lookup_insert_eq. split; [by eexists | by apply Hcls].
  - eexists _, _. split; [reflexivity|]. split.
    + apply ingestion_frame_logged, ingestion_frame_saved, ingestion_frame_refl.
    + simpl. rewrite lookup_insert_eq. by split; [eexists|].
Qed.

End TaskFrame.

(** X20.  A run of the ingestion task for a document of user [u],
    however it ends, changes no other document, no chunk row with an
    id below the next id of the table (the rows that were there before
    the run), neither the index nor the mapping of any other user, and
    nothing of the chat; events are only appended. *)
Theorem task_touches_only_its_document (env : Collaborators) (fuel : nat)
    (pdf_id : Z) (w : World) (pdf : PDFFile) :
  pdf_files w !! pdf_id = Some pdf →
  ingestion_frame pdf_id (pdf_user pdf) (next_chunk_id w) w
    (process_pdf_async env fuel pdf_id w).2.
Proof.
  intros Hpdf.
  unfold process_pdf_async, try_except, mbind, M_bind, PDFFile_objects_get at 1.
  rewrite Hpdf. cbv beta iota.
  destruct (process_and_save_chunks_frame env
              {| chunk_size := 800; chunk_overlap := 100 |} fuel pdf_id
              (pdf_user pdf) pdf w)
    as (o & w1 & -> & Hw1 & [pdf1 Hpdf1] & Ho).
  destruct o as [[pdf' cs] | e |]; simpl.
  - destruct Ho as [Hu Hcs]. destruct cs as [|c cs].
    + unfold PDFFile_save, mbind, M_bind, log, modify, mret, M_ret; simpl.
      by apply ingestion_frame_saved.
    + destruct (embed_chunks_effect env (c :: cs) w1)
        as (o2 & w2 & Hembed & Hw2 & Ho2 & Hkeys).
      rewrite Hembed.
      assert (ingestion_frame pdf_id (pdf_user pdf) (next_chunk_id w) w w2) as Hf2.
      { eapply ingestion_frame_trans; [exact Hw1|].
        by apply ingestion_frame_events. }
      destruct o2 as [ce | e |]; [| |done].
      * pose proof (ingestion_frame_add env pdf_id (pdf_user pdf)
                      (next_chunk_id w) ce w2) as Hadd.
        rewrite Hu.
        destruct (add_embeddings_outcome env (pdf_user pdf) ce w2)
          as (o3 & w3 & Heq3 & [Hp3 He3] & Ho3).
        rewrite Heq3 in *. cbn [snd] in Hadd.
        assert (ingestion_frame pdf_id (pdf_user pdf) (next_chunk_id w) w w3)
          as Hf3.
        { eapply ingestion_frame_trans; [exact Hf2|]. apply Hadd.
          intros c' Hc'. apply Hcs. by eapply Hkeys. }
        destruct o3 as [[] | e |]; [| |done].
        -- unfold PDFFile_save, mbind, M_bind, log, modify, mret, M_ret; simpl.
           by apply ingestion_frame_saved.
        -- rewrite Ho3. simpl. unfold PDFFile_objects_get, PDFFile_save,
             mbind, M_bind, log, modify, raise, mret, M_ret; simpl.
           rewrite Hp3.
           destruct Hw2 as (Hp2 & _). rewrite Hp2, Hpdf1. simpl.
           by apply ingestion_frame_saved.
      * destruct (embed_chunks_outcome env (c :: cs) w1)
          as (o2' & w2' & Hembed' & _ & Ho2').
        rewrite Hembed in Hembed'. injection Hembed' as <- <-.
        rewrite Ho2'. simpl. unfold PDFFile_objects_get, PDFFile_save,
          mbind, M_bind, log, modify, raise, mret, M_ret; simpl.
        destruct Hw2 as (Hp2 & _). rewrite Hp2, Hpdf1. simpl.
        by apply ingestion_frame_saved.
  - rewrite Ho. simpl.
    unfold PDFFile_objects_get, PDFFile_save,
      mbind, M_bind, log, modify, raise, mret, M_ret; simpl.
    rewrite Hpdf1. simpl. by apply ingestion_frame_saved.
  - done.
Qed.

Lemma task_touches_only_its_document_witness :
  ingestion_frame 10 (pdf_user (sample_pdf 1 "a.pdf"))
    (next_chunk_id two_users_world) two_users_world
    (process_pdf_async sample_env 10 10 two_users_world).2.
Proof.
  apply (task_touches_only_its_document sample_env 10 10 two_users_world
           (sample_pdf 1 "a.pdf")).
  reflexivity.
Defined.

(** ** Retrieval: the chunks behind an answer *)

Lemma dict_get_NoDup {K V} `{EqDecision K} (d : pydict K V) (k : K) (v : V) :
  NoDup (dict_keys d) → dict_get d k = Some v ↔ (k, v) ∈ d.
Proof.
  unfold dict_keys. induction d as [|[k' v'] d IH]; simpl.
  - intros _. split; [done | intros H; inversion H].
  - intros Hnd. apply NoDup_cons in Hnd as [Hk' Hnd].
    rewrite elem_of_cons. destruct (decide (k' = k)) as [->|Hne].
    + split; [intros [= ->]; by left|].
      intros [[= ->] | Hin]; [done|].
      exfalso. apply Hk'. apply list_elem_of_fmap. by exists (k, v).
    + rewrite (IH Hnd). split; [by right|]. intros [[= ? ?] | Hin]; [congruence | done].
Qed.

Lemma omap_pointwise_in {A B} (f g : A → option B) (l : list A) :
  (∀ x, x ∈ l → f x = g x) → omap f l = omap g l.
Proof.
  induction l as [|x l IH]; intros H; csimpl; [done|].
  rewrite (H x) by (by left). rewrite IH; [done|].
  intros y Hy. apply H. by right.
Qed.

Lemma hydrate_as_lookup (user_id : Z)
    (pdf_ids : option (list Z)) (candidate_ids : list Z) (w : World) :
  hydrate user_id pdf_ids candidate_ids w
  = omap (visible_row user_id pdf_ids w) candidate_ids.
Proof.
  unfold hydrate.
  set (rows := Chunk_objects_filter _ w).
  set (rows' := if truthy_list pdf_ids then filter _ rows else rows).
  assert (NoDup rows.*1) as Hnd by apply NoDup_Chunk_objects_filter_ids.
  assert (NoDup rows'.*1) as Hnd'.
  { subst rows'. destruct (truthy_list pdf_ids); [|done].
    eapply sublist_NoDup; [exact Hnd|]. apply fmap_sublist, sublist_filter. }
  assert (∀ cid row, (cid, row) ∈ rows'
            ↔ chunks w !! cid = Some row ∧ cid ∈ candidate_ids
              ∧ chunk_user row = user_id
              ∧ (truthy_list pdf_ids = true
                 → chunk_pdf row ∈ default [] pdf_ids)) as Hrows.
  { intros cid row. subst rows' rows.
    destruct (truthy_list pdf_ids).
    - rewrite list_elem_of_filter, elem_of_Chunk_objects_filter.
      rewrite andb_true_iff, !bool_decide_eq_true. simpl. tauto.
    - rewrite elem_of_Chunk_objects_filter.
      rewrite andb_true_iff, !bool_decide_eq_true. simpl.
      split; [intros (? & ? & ?); by repeat split | tauto]. }
  rewrite (dict_of_distinct_pairs rows' []) by done. rewrite app_nil_l.
  apply omap_pointwise_in. intros cid Hcid. unfold visible_row.
  destruct (dict_get rows' cid) as [row|] eqn:Hget.
  - apply dict_get_NoDup in Hget; [|done].
    apply Hrows in Hget as (-> & _ & Hu & Hp). simpl.
    rewrite (bool_decide_eq_true_2 _ Hu). simpl.
    destruct (truthy_list pdf_ids); [|done]. simpl.
    by rewrite bool_decide_eq_true_2 by auto.
  - simpl. destruct (chunks w !! cid) as [row|] eqn:Hrow; [|done].
    destruct (bool_decide (chunk_user row = user_id)
              && (negb (truthy_list pdf_ids)
                  || bool_decide (chunk_pdf row ∈ default [] pdf_ids)))
      eqn:Hvis; [|done].
    exfalso. apply andb_true_iff in Hvis as [Hu Hp].
    apply bool_decide_eq_true in Hu.
    assert ((cid, row) ∈ rows') as Hin.
    { apply Hrows. repeat split; try done. intros Ht. rewrite Ht in Hp.
      simpl in Hp. by apply bool_decide_eq_true in Hp. }
    apply dict_get_NoDup in Hin; [|done]. congruence.
Qed.

(** X21.  The chunks [ask_question] works on are the candidates of the
    search, in the order of the search and with repetitions kept, less
    those that have no row, those of another user and, when a
    non-empty list of documents is given, those of other documents; an
    empty list of documents filters nothing.  The default ordering of
    the table plays no part. *)
Theorem hydrate_keeps_visible_candidates (user_id : Z)
    (pdf_ids : option (list Z)) (candidate_ids : list Z) (w : World) :
  hydrate user_id pdf_ids candidate_ids w
  = omap (visible_row user_id pdf_ids w) candidate_ids.
Proof. apply hydrate_as_lookup. Qed.

Lemma _prepare_sources_effect (cs : list (Z * Chunk)) (w : World) :
  ∃ o, _prepare_sources cs w = (o, w)
    ∧ match o with
      | Returns srcs => src_chunk_id <$> srcs = cs.*1
      | Raises _ => True
      | Diverges => False
      end.
Proof.
  induction cs as [|[cid c] cs IH]; simpl.
  - by exists (Returns []).
  - unfold mbind, M_bind, PDFFile_objects_get.
    destruct (pdf_files w !! chunk_pdf c); [|by eexists].
    destruct IH as (o & -> & Ho). destruct o as [srcs| e |]; [| by eexists | done].
    eexists. split; [reflexivity|]. cbn [snd]. rewrite !fmap_cons.
    cbn [src_chunk_id fst]. by rewrite Ho.
Qed.

Lemma _build_context_outcome (cs : list (Z * Chunk)) (w : World) :
  (_build_context cs w).1 ≠ Diverges.
Proof.
  unfold _build_context, mbind, M_bind.
  assert (∀ items, (context_parts items w).1 ≠ Diverges) as H.
  { induction items as [|[i [id c]] items IH]; simpl; [done|].
    unfold mbind, M_bind, PDFFile_objects_get.
    destruct (pdf_files w !! chunk_pdf c); [|done].
    pose proof (context_parts_frame items w) as Hf.
    destruct (context_parts items w) as [[parts| e |] w']; simpl in *; done. }
  specialize (H (enumerate 1 cs)).
  destruct (context_parts (enumerate 1 cs) w) as [[parts| e |] w']; simpl in *; done.
Qed.

Section AskFacts.

Context (env : Collaborators).

Lemma generate_query_embedding_effect question w :
  ∃ o, generate_query_embedding env question w
       = (o, add_event (EmbedCall [question]) w) ∧ o ≠ Diverges.
Proof.
  unfold generate_query_embedding, generate_embedding, mbind, M_bind, log, modify.
  simpl. destruct (model_encode env [question]) as [msg | [|v vs]];
    simpl; by eexists.
Qed.

Lemma search_outcome u q k w : (search env u q k w).1 ≠ Diverges.
Proof.
  unfold search, mbind, M_bind, _load_user_index.
  destruct (index_files w !! u) as [index|];
    [destruct (metadata_files w !! u)|];
    (destruct (decide _); [done|]); unfold lift, faiss_search;
    repeat (destruct (decide _)); done.
Qed.

(** The ways [ask_question] ends: before the generation model is
    called, after a call that gives no answer, or with an answer. *)
Lemma ask_question_cases user_id question session_id pdf_ids top_k w :
  ∃ o w',
    ask_question env user_id question session_id pdf_ids top_k w = (o, w')
    ∧ ((w' = add_event (EmbedCall [question]) w
        ∧ match o with
          | Returns a => sources a = [] ∧ chunk_ids a = []
          | Raises _ => True
          | Diverges => False
          end)
       ∨ ∃ q ids prompt,
           (search env user_id q top_k (add_event (EmbedCall [question]) w)).1
           = Returns ids
           ∧ hydrate user_id pdf_ids ids w ≠ []
           ∧ ((w' = add_event (GenerateCall prompt)
                      (add_event (EmbedCall [question]) w)
               ∧ match o with
                 | Returns a => sources a = [] ∧ chunk_ids a = []
                 | Raises _ => True
                 | Diverges => False
                 end)
              ∨ ∃ text srcs,
                  generate_content env prompt = inr text
                  ∧ src_chunk_id <$> srcs = (hydrate user_id pdf_ids ids w).*1
                  ∧ o = Returns
                          {| answer := text; sources := srcs;
                             chunk_ids := (hydrate user_id pdf_ids ids w).*1 |}
                  ∧ w' = if truthy_int session_id
                         then (_save_to_chat_history (default 0 session_id)
                                 user_id question text
                                 (hydrate user_id pdf_ids ids w).*1
                                 (add_event (GenerateCall prompt)
                                    (add_event (EmbedCall [question]) w))).2
                         else add_event (GenerateCall prompt)
                                (add_event (EmbedCall [question]) w))).
Proof.
  unfold ask_question, mbind, M_bind.
  destruct (generate_query_embedding_effect question w) as (o1 & -> & Ho1).
  set (w1 := add_event (EmbedCall [question]) w).
  destruct o1 as [q | e |]; [| eexists _, _; split; [reflexivity | by left] | done].
  pose proof (search_frame env user_id q top_k w1) as Hframe.
  pose proof (search_outcome user_id q top_k w1) as Hso.
  destruct (search env user_id q top_k w1) as [o2 w2] eqn:Hsearch.
  simpl in Hframe, Hso. subst w2.
  destruct o2 as [ids | e |]; [| eexists _, _; split; [reflexivity | by left] | done].
  destruct ids as [|i ids]; [eexists _, _; split; [reflexivity | by left]|].
  unfold get_world. cbv beta iota.
  change (hydrate user_id pdf_ids (i :: ids) w1)
    with (hydrate user_id pdf_ids (i :: ids) w).
  destruct (hydrate user_id pdf_ids (i :: ids) w) as [|c cs] eqn:Hhyd;
    [eexists _, _; split; [reflexivity | by left]|].
  pose proof (_build_context_frame (c :: cs) w1) as Hframe.
  pose proof (_build_context_outcome (c :: cs) w1) as Hbo.
  destruct (_build_context (c :: cs) w1) as [o3 w3]. simpl in Hframe, Hbo.
  subst w3.
  destruct o3 as [context | e |];
    [| eexists _, _; split; [reflexivity | by left] | done].
  unfold try_except, call_generate, mbind, M_bind, log, modify. cbv beta iota.
  set (prompt := _build_prompt question context).
  destruct (generate_content env prompt) as [msg | text] eqn:Hgen;
    unfold raise, mret, M_ret; cbv beta iota.
  { eexists _, _. split; [reflexivity|]. right. exists q, (i :: ids), prompt.
    rewrite Hhyd. split; [by rewrite Hsearch|]. split; [done|]. left. by split. }
  destruct (_prepare_sources_effect (c :: cs)
              (add_event (GenerateCall prompt) w1)) as (o4 & -> & Ho4).
  destruct o4 as [srcs | e |]; [| |done].
  - destruct (truthy_int session_id).
    + destruct (_save_to_chat_history _ _ _ _ _ _) as [o5 w5] eqn:Hsave.
      assert (o5 = Returns tt) as ->.
      { revert Hsave. unfold _save_to_chat_history, mbind, M_bind,
          Message_objects_create, modify, try_except, touch_session.
        cbv beta iota. simpl.
        destruct (chat_sessions w !! default 0 session_id); by intros [= <- _]. }
      eexists _, _. split; [reflexivity|]. right. exists q, (i :: ids), prompt.
      rewrite Hhyd. split; [by rewrite Hsearch|]. split; [done|].
      right. exists text, srcs.
      split; [done|]. split; [done|]. split; [done|]. by rewrite Hsave.
    + eexists _, _. split; [reflexivity|]. right. exists q, (i :: ids), prompt.
      rewrite Hhyd. split; [by rewrite Hsearch|]. split; [done|].
      right. by exists text, srcs.
  - eexists _, _. split; [reflexivity|]. right. exists q, (i :: ids), prompt.
    rewrite Hhyd. split; [by rewrite Hsearch|]. split; [done|]. left. by split.
Qed.

End AskFacts.

Lemma _save_to_chat_history_effect (session_id user_id : Z)
    (question answer_text : string) (ids : list Z) (w : World) :
  pdf_files (_save_to_chat_history session_id user_id question answer_text ids w).2
  = pdf_files w
  ∧ chunks (_save_to_chat_history session_id user_id question answer_text ids w).2
    = chunks w
  ∧ index_files (_save_to_chat_history session_id user_id question answer_text ids w).2
    = index_files w
  ∧ metadata_files (_save_to_chat_history session_id user_id question answer_text ids w).2
    = metadata_files w
  ∧ events (_save_to_chat_history session_id user_id question answer_text ids w).2
    = events w
  ∧ messages (_save_to_chat_history session_id user_id question answer_text ids w).2
    = messages w
      ++ [ {| msg_session := session_id; msg_user := user_id;
              msg_role := role_user; msg_content := question;
              msg_chunk_ids := [] |};
           {| msg_session := session_id; msg_user := user_id;
              msg_role := role_assistant; msg_content := answer_text;
              msg_chunk_ids := ids |} ]
  ∧ chat_sessions (_save_to_chat_history session_id user_id question answer_text ids w).2
    = match chat_sessions w !! session_id with
      | Some n => <[session_id := n + 1]> (chat_sessions w)
      | None => chat_sessions w
      end.
Proof.
  unfold _save_to_chat_history, mbind, M_bind, Message_objects_create, modify,
    try_except, touch_session.
  cbv beta iota. simpl.
  destruct (chat_sessions w !! session_id); simpl;
    by rewrite <- app_assoc.
Qed.

(** X22.  Whatever the index and its mapping hold, an answer of
    [ask_question] names only chunks whose rows belong to the asking
    user and, when a non-empty list of documents is given, to one of
    these documents; its sources are those of the chunks it names, in
    the same order. *)
Theorem ask_question_cites_only_own_chunks (env : Collaborators) (w w' : World)
    (user_id : Z) (question : string) (session_id : option Z)
    (pdf_ids : option (list Z)) (top_k : Z) (a : Answer) :
  ask_question env user_id question session_id pdf_ids top_k w
  = (Returns a, w') →
  src_chunk_id <$> sources a = chunk_ids a
  ∧ ∀ c, c ∈ chunk_ids a →
      ∃ row, chunks w !! c = Some row ∧ chunk_user row = user_id
        ∧ (truthy_list pdf_ids = true → chunk_pdf row ∈ default [] pdf_ids).
Proof.
  intros Hask.
  destruct (ask_question_cases env user_id question session_id pdf_ids top_k w)
    as (o & w0 & Heq & Hcases).
  rewrite Hask in Heq. injection Heq as <- <-.
  destruct Hcases as [[_ [-> ->]] | (q & ids & prompt & _ & _
    & [[_ [-> ->]] | (text & srcs & _ & Hsrcs & [= ->] & _)])];
    try (split; [done|]; intros c Hc; by inversion Hc).
  simpl. split; [done|]. intros c Hc.
  rewrite hydrate_as_lookup in Hc.
  apply list_elem_of_fmap in Hc as ([c' row] & -> & Hin).
  apply list_elem_of_omap in Hin as (cid & _ & Hvis).
  unfold visible_row in Hvis.
  destruct (chunks w !! cid) as [row'|] eqn:Hrow; [|done].
  destruct (bool_decide (chunk_user row' = user_id)
            && (negb (truthy_list pdf_ids)
                || bool_decide (chunk_pdf row' ∈ default [] pdf_ids)))
    eqn:Hok; [|done].
  injection Hvis as <- <-. simpl. exists row'.
  apply andb_true_iff in Hok as [Hu Hp]. apply bool_decide_eq_true in Hu.
  split; [done|]. split; [done|]. intros Ht. rewrite Ht in Hp. simpl in Hp.
  by apply bool_decide_eq_true in Hp.
Qed.

Lemma ask_question_cites_only_own_chunks_witness :
  src_chunk_id <$> sources sample_answer = chunk_ids sample_answer
  ∧ ∀ c, c ∈ chunk_ids sample_answer →
      ∃ row, chunks chat_world !! c = Some row ∧ chunk_user row = 1
        ∧ (truthy_list (@None (list Z)) = true
           → chunk_pdf row ∈ default [] (@None (list Z))).
Proof.
  apply (ask_question_cites_only_own_chunks answering_env chat_world
           sample_exchange.2 1 "alpha?" (Some 1) None 5 sample_answer).
  vm_compute. reflexivity.
Defined.

(** X23.  With a session that exists when one is given,
    [ask_question] stores the exchange exactly when it returns an
    answer that names chunks and a session id other than 0 is given:
    then the question and the returned answer, with the chunk ids
    returned, are appended to the messages in this order under this
    session and user, and the session is saved once.  In every other
    case (fixed sentence, error-describing answer, exception, no
    session id, session id 0) the chat is left as it was. *)
Theorem ask_question_records_exchange (env : Collaborators) (w w' : World)
    (user_id : Z) (question : string) (session_id : option Z)
    (pdf_ids : option (list Z)) (top_k : Z) (o : outcome Answer) :
  ask_question env user_id question session_id pdf_ids top_k w = (o, w') →
  (∀ sid, session_id = Some sid → sid ≠ 0 → is_Some (chat_sessions w !! sid)) →
  match o with
  | Returns a =>
      if truthy_int session_id && negb (bool_decide (chunk_ids a = []))
      then
        messages w'
        = messages w
          ++ [ {| msg_session := default 0 session_id; msg_user := user_id;
                  msg_role := role_user; msg_content := question;
                  msg_chunk_ids := [] |};
               {| msg_session := default 0 session_id; msg_user := user_id;
                  msg_role := role_assistant; msg_content := answer a;
                  msg_chunk_ids := chunk_ids a |} ]
        ∧ ∃ n, chat_sessions w !! default 0 session_id = Some n
            ∧ chat_sessions w'
              = <[default 0 session_id := n + 1]> (chat_sessions w)
      else messages w' = messages w ∧ chat_sessions w' = chat_sessions w
  | _ => messages w' = messages w ∧ chat_sessions w' = chat_sessions w
  end.
Proof.
  intros Hask Hsession.
  destruct (ask_question_cases env user_id question session_id pdf_ids top_k w)
    as (o0 & w0 & Heq & Hcases).
  rewrite Hask in Heq. injection Heq as <- <-.
  destruct Hcases as [[-> Ho] | (q & ids & prompt & _ & Hne
    & [[-> Ho] | (text & srcs & _ & _ & -> & ->)])].
  - destruct o as [a | e |]; [|done..]. destruct Ho as [_ ->].
    by rewrite andb_false_r.
  - destruct o as [a | e |]; [|done..]. destruct Ho as [_ ->].
    by rewrite andb_false_r.
  - cbn [chunk_ids answer].
    assert (bool_decide ((hydrate user_id pdf_ids ids w).*1 = []) = false) as ->.
    { apply bool_decide_eq_false. intros Hnil. apply Hne.
      by destruct (hydrate user_id pdf_ids ids w). }
    rewrite andb_true_r.
    destruct (truthy_int session_id) eqn:Ht; [|done].
    destruct (_save_to_chat_history_effect (default 0 session_id) user_id
                question text (hydrate user_id pdf_ids ids w).*1
                (add_event (GenerateCall prompt)
                   (add_event (EmbedCall [question]) w)))
      as (_ & _ & _ & _ & _ & Hmsg & Hs).
    split; [exact Hmsg|]. rewrite Hs. simpl.
    destruct session_id as [sid|]; [|done]. simpl in *.
    destruct (Hsession sid eq_refl) as [n Hn]; [lia|].
    exists n. by rewrite Hn.
Qed.

Lemma ask_question_records_exchange_witness :
  match sample_exchange.1 with
  | Returns a =>
      if truthy_int (Some 1) && negb (bool_decide (chunk_ids a = []))
      then
        messages sample_exchange.2
        = messages chat_world
          ++ [ {| msg_session := default 0 (Some 1); msg_user := 1;
                  msg_role := role_user; msg_content := "alpha?";
                  msg_chunk_ids := [] |};
               {| msg_session := default 0 (Some 1); msg_user := 1;
                  msg_role := role_assistant; msg_content := answer a;
                  msg_chunk_ids := chunk_ids a |} ]
        ∧ ∃ n, chat_sessions chat_world !! default 0 (Some 1) = Some n
            ∧ chat_sessions sample_exchange.2
              = <[default 0 (Some 1) := n + 1]> (chat_sessions chat_world)
      else messages sample_exchange.2 = messages chat_world
           ∧ chat_sessions sample_exchange.2 = chat_sessions chat_world
  | _ => messages sample_exchange.2 = messages chat_world
         ∧ chat_sessions sample_exchange.2 = chat_sessions chat_world
  end.
Proof.
  apply (ask_question_records_exchange answering_env chat_world
           sample_exchange.2 1 "alpha?" (Some 1) None 5 sample_exchange.1).
  - vm_compute. reflexivity.
  - intros sid [= <-] _. vm_compute. by eexists.
Defined.

(** X24.  However it ends, [ask_question] writes no document, no chunk
    row and no index file; it calls the embedding model once, first and
    with the question alone, and the generation model at most once. *)
Theorem ask_question_reads_only (env : Collaborators) (w : World)
    (user_id : Z) (question : string) (session_id : option Z)
    (pdf_ids : option (list Z)) (top_k : Z) :
  pdf_files (ask_question env user_id question session_id pdf_ids top_k w).2
  = pdf_files w
  ∧ chunks (ask_question env user_id question session_id pdf_ids top_k w).2
    = chunks w
  ∧ index_files (ask_question env user_id question session_id pdf_ids top_k w).2
    = index_files w
  ∧ metadata_files (ask_question env user_id question session_id pdf_ids top_k w).2
    = metadata_files w
  ∧ ∃ new,
      events (ask_question env user_id question session_id pdf_ids top_k w).2
      = events w ++ EmbedCall [question] :: new
      ∧ (new = [] ∨ ∃ prompt, new = [GenerateCall prompt]).
Proof.
  destruct (ask_question_cases env user_id question session_id pdf_ids top_k w)
    as (o & w' & -> & Hcases). cbn [snd].
  destruct Hcases as [[-> _] | (q & ids & prompt & _ & _
    & [[-> _] | (text & srcs & _ & _ & _ & ->)])].
  - repeat split; try done. exists []. split; [done | by left].
  - repeat split; try done. exists [GenerateCall prompt]. simpl.
    rewrite <- app_assoc. split; [done | right; by eexists].
  - destruct (truthy_int session_id).
    + destruct (_save_to_chat_history_effect (default 0 session_id) user_id
                  question text (hydrate user_id pdf_ids ids w).*1
                  (add_event (GenerateCall prompt)
                     (add_event (EmbedCall [question]) w)))
        as (-> & -> & -> & -> & -> & _).
      repeat split; try done. exists [GenerateCall prompt]. simpl.
      rewrite <- app_assoc. split; [done | right; by eexists].
    + repeat split; try done. exists [GenerateCall prompt]. simpl.
      rewrite <- app_assoc. split; [done | right; by eexists].
Qed.

(** ** Summary *)

(** X25.  [generate_summary] never raises and writes nothing: for a
    document without chunks of the user it returns the fixed sentence
    without calling the generation model; otherwise it calls the model
    exactly once and returns its text, or the error sentence carrying
    the message of the exception. *)
Theorem generate_summary_returns (env : Collaborators) (w : World)
    (user_id pdf_id : Z) :
  ∃ s w',
    generate_summary env user_id pdf_id w = (Returns s, w')
    ∧ only_events_added w w'
    ∧ if decide (document_chunks pdf_id user_id w = [])
      then s = "Aucun contenu trouvé à résumer." ∧ w' = w
      else ∃ prompt,
             events w' = events w ++ [GenerateCall prompt]
             ∧ s = match generate_content env prompt with
                   | inr text => text
                   | inl msg => "Erreur lors de la génération du résumé: " +:+ msg
                   end.
Proof.
  unfold generate_summary, mbind, M_bind, get_world. cbv beta iota.
  destruct (document_chunks pdf_id user_id w) as [|c cs] eqn:Hdoc.
  - exists "Aucun contenu trouvé à résumer.", w.
    split; [done|]. split; [apply only_events_added_refl | done].
  - unfold try_except, call_generate, mbind, M_bind, log, modify.
    cbv beta iota. simpl fst. simpl snd.
    match goal with |- context [generate_content env ?p] => set (prompt := p) end.
    destruct (generate_content env prompt) as [msg | text] eqn:Hgen;
      unfold raise, mret, M_ret; cbv beta iota;
      eexists _, _; (split; [reflexivity|]);
      (split; [apply only_events_added_log|]);
      rewrite decide_False by done;
      exists prompt; rewrite Hgen; by split.
Qed.

(** ** The ingestion task and the index *)

Lemma consistent_index_same_files (w w' : World) (u : Z) :
  index_files w' !! u = index_files w !! u →
  metadata_files w' !! u = metadata_files w !! u →
  consistent_index w u → consistent_index w' u.
Proof. unfold consistent_index. by intros -> ->. Qed.

Lemma ingestion_frame_consistent (pdf_id bound : Z) (w w' : World) (u : Z) :
  ingestion_frame pdf_id (u + 1) bound w w' →
  consistent_index w u → consistent_index w' u.
Proof.
  intros (_ & _ & Hi & _). destruct (Hi u) as [Hidx Hmd]; [lia|].
  by apply consistent_index_same_files.
Qed.

(** X27.  The ingestion task keeps the persisted pairs whole: if, for
    every user, the index and the mapping are there together and agree
    on the slots before a run, they do so after it, however the run
    ends. *)
Theorem task_keeps_index_and_mapping_agreeing (env : Collaborators)
    (fuel : nat) (pdf_id : Z) (w : World) :
  (∀ u, consistent_index w u) →
  ∀ u, consistent_index (process_pdf_async env fuel pdf_id w).2 u.
Proof.
  intros Hcons u.
  unfold process_pdf_async, try_except, mbind, M_bind, PDFFile_objects_get at 1.
  destruct (pdf_files w !! pdf_id) as [pdf|] eqn:Hpdf; cbv beta iota;
    [|rewrite decide_True by done; apply Hcons].
  assert (∀ w1, (∀ u, consistent_index w1 u) →
            ∀ p st, consistent_index
              (add_event (PdfSaved pdf_id st)
                 (set_pdf_files (insert pdf_id p) w1)) u) as Hsaved.
  { intros w1 H1 p st. by apply (consistent_index_same_files w1). }
  destruct (process_and_save_chunks_frame env
              {| chunk_size := 800; chunk_overlap := 100 |} fuel pdf_id
              0 pdf w)
    as (o & w1 & Heq & _ & [pdf1 Hpdf1] & Ho).
  assert (∀ u, consistent_index w1 u) as Hcons1.
  { intros u'.
    destruct (process_and_save_chunks_frame env
                {| chunk_size := 800; chunk_overlap := 100 |} fuel pdf_id
                (u' + 1) pdf w)
      as (o' & w1' & Heq' & Hw1 & _).
    rewrite Heq in Heq'. injection Heq' as _ <-.
    by eapply ingestion_frame_consistent. }
  rewrite Heq. clear Heq.
  destruct o as [[pdf' cs] | e |]; simpl.
  - destruct cs as [|c cs].
    + unfold PDFFile_save, mbind, M_bind, log, modify, mret, M_ret; simpl.
      by apply Hsaved.
    + destruct (embed_chunks_effect env (c :: cs) w1)
        as (o2 & w2 & Hembed & Hw2 & Ho2 & _).
      rewrite Hembed.
      assert (∀ u, consistent_index w2 u) as Hcons2.
      { intros u'. destruct Hw2 as (_ & _ & _ & Hi2 & Hm2 & _).
        apply (consistent_index_same_files w1);
          [by rewrite Hi2 | by rewrite Hm2 | done]. }
      destruct o2 as [ce | e |]; [| |done].
      * pose proof (exec_op_consistent env (Add (pdf_user pdf') ce) w2 Hcons2)
          as Hcons3. cbn [exec_op] in Hcons3.
        destruct (add_embeddings_outcome env (pdf_user pdf') ce w2)
          as (o3 & w3 & Heq3 & [Hp3 He3] & Ho3).
        rewrite Heq3 in *. cbn [snd] in Hcons3.
        destruct o3 as [[] | e |]; [| |done].
        -- unfold PDFFile_save, mbind, M_bind, log, modify, mret, M_ret; simpl.
           by apply Hsaved.
        -- rewrite Ho3. simpl. unfold PDFFile_objects_get, PDFFile_save,
             mbind, M_bind, log, modify, raise, mret, M_ret; simpl.
           rewrite Hp3.
           destruct Hw2 as (Hp2 & _). rewrite Hp2, Hpdf1. simpl.
           by apply Hsaved.
      * destruct (embed_chunks_outcome env (c :: cs) w1)
          as (o2' & w2' & Hembed' & _ & Ho2').
        rewrite Hembed in Hembed'. injection Hembed' as <- <-.
        rewrite Ho2'. simpl. unfold PDFFile_objects_get, PDFFile_save,
          mbind, M_bind, log, modify, raise, mret, M_ret; simpl.
        destruct Hw2 as (Hp2 & _). rewrite Hp2, Hpdf1. simpl.
        by apply Hsaved.
  - rewrite Ho. simpl.
    unfold PDFFile_objects_get, PDFFile_save,
      mbind, M_bind, log, modify, raise, mret, M_ret; simpl.
    rewrite Hpdf1. simpl. by apply Hsaved.
  - apply Hcons1.
Qed.

Lemma task_keeps_index_and_mapping_agreeing_witness :
  index_files two_users_world = ∅
  ∧ consistent_index (process_pdf_async reading_env 10 10 two_users_world).2 1.
Proof.
  split; [reflexivity|].
  apply (task_keeps_index_and_mapping_agreeing reading_env 10 10
           two_users_world).
  intros u. reflexivity.
Defined.

(** ** The ingestion task: the run that succeeds *)

Section TaskSuccess.

Context (env : Collaborators).

Lemma process_and_save_chunks_success self fuel id pdf w pages cd :
  pdf_reader env (file_path pdf) = inr pages →
  create_chunks self fuel (enumerate 1 (map clean_text pages))
  = Some (Returns cd) →
  ∃ cs w2 pdf',
    process_and_save_chunks env self fuel id pdf w = (Returns (pdf', cs), w2)
    ∧ pdf_user pdf' = pdf_user pdf
    ∧ cs.*1 = seqZ (next_chunk_id w) (Z.of_nat (length cd))
    ∧ Forall2 (λ (c : Z * Chunk) ci, c.2 = chunk_row id (pdf_user pdf) ci) cs cd
    ∧ (∀ c, c ∈ cs → chunks w2 !! c.1 = Some c.2)
    ∧ pdf_files w2 !! id = Some pdf'
    ∧ index_files w2 = index_files w
    ∧ metadata_files w2 = metadata_files w.
Proof.
  intros Hread Hchunks.
  unfold process_and_save_chunks, try_except, mbind, M_bind,
    extract_text_from_pdf, mbind, M_bind, mark_failed, mbind, M_bind,
    PDFFile_save, mbind, M_bind, log, modify, raise, mret, M_ret; simpl.
  rewrite Hread. simpl. unfold run_chunker. rewrite Hchunks. unfold lift.
  cbv beta iota.
  match goal with |- context [save_chunks id ?u cd ?w1] =>
    destruct (save_chunks_effect id u cd w1)
      as (cs & w2 & -> & Hids & _ & Hrows & Hin & _
          & Hp & Hi & Hm & _) end.
  cbn [next_chunk_id chunks pdf_files index_files metadata_files
       add_event set_pdf_files] in *.
  eexists cs, _, _. split; [reflexivity|]. simpl.
  rewrite lookup_insert_eq. by repeat split.
Qed.

Lemma load_same_files u w w' :
  index_files w' = index_files w → metadata_files w' = metadata_files w →
  (_load_user_index env u w').1 = (_load_user_index env u w).1.
Proof.
  intros Hi Hm. unfold _load_user_index. rewrite Hi, Hm.
  destruct (index_files w !! u); [destruct (metadata_files w !! u)|]; done.
Qed.

End TaskSuccess.

Lemma chunk_texts_of_rows (id u : Z) (cs : list (Z * Chunk)) (cd : list ChunkInfo) :
  Forall2 (λ (c : Z * Chunk) ci, c.2 = chunk_row id u ci) cs cd →
  map (λ c : Z * Chunk, chunk_text c.2) cs = map ci_text cd.
Proof. induction 1 as [|c ci cs cd Hc _ IH]; simpl; [done|]. by rewrite Hc, IH. Qed.

(** X28.  The run that succeeds.  When the reader gives pages, the
    chunker cuts them into at least one chunk, and the model gives, for
    the texts of the chunks in order, as many vectors of the dimension
    of the owner's index: the task returns the [completed] dictionary
    with the number of chunks; the vectors are appended to the owner's
    index in the order of the chunks; the i-th chunk is stored under
    the i-th new id with the fields of the chunker, mapped at slot
    [ntotal + i], and its row carries that slot as [vector_id]. *)
Theorem ingestion_indexes_every_chunk (env : Collaborators) (fuel : nat)
    (pdf_id : Z) (w : World) (pdf : PDFFile) (pages : list string)
    (cd : list ChunkInfo) (embeddings : list vec)
    (index : FaissIndex) (md : gmap Z Z) :
  pdf_files w !! pdf_id = Some pdf →
  pdf_reader env (file_path pdf) = inr pages →
  create_chunks {| chunk_size := 800; chunk_overlap := 100 |} fuel
    (enumerate 1 (map clean_text pages)) = Some (Returns cd) →
  cd ≠ [] →
  model_encode env (map ci_text cd) = inr embeddings →
  length embeddings = length cd →
  forallb (λ r, Nat.eqb (length r) (faiss_d index)) embeddings = true →
  _load_user_index env (pdf_user pdf) w = (Returns (index, md), w) →
  ∃ w' index' md',
    process_pdf_async env fuel pdf_id w
    = (Returns (TaskCompleted pdf_id (Z.of_nat (length cd))), w')
    ∧ index_files w' !! pdf_user pdf = Some index'
    ∧ metadata_files w' !! pdf_user pdf = Some md'
    ∧ faiss_xb index' = faiss_xb index ++ embeddings
    ∧ ∀ (i : nat) ci, cd !! i = Some ci →
        md' !! (ntotal index + Z.of_nat i) = Some (next_chunk_id w + Z.of_nat i)
        ∧ chunks w' !! (next_chunk_id w + Z.of_nat i)
          = Some (with_vector_id (chunk_row pdf_id (pdf_user pdf) ci)
                    (Some (pretty (ntotal index + Z.of_nat i)))).
Proof.
  intros Hpdf Hread Hchunks Hne Hencode Hlen Hdim Hload.
  unfold process_pdf_async, try_except, mbind, M_bind, PDFFile_objects_get at 1.
  rewrite Hpdf. cbv beta iota.
  destruct (process_and_save_chunks_success env
              {| chunk_size := 800; chunk_overlap := 100 |} fuel pdf_id pdf w
              pages cd Hread Hchunks)
    as (cs & w2 & pdf' & -> & Hu & Hids & Hrows & Hin & Hpdf2 & Hi2 & Hm2).
  cbv beta iota.
  pose proof (Forall2_length _ _ _ Hrows) as Hlencs.
  assert (cs ≠ []) as Hcsne.
  { intros ->. destruct cd; [done | discriminate]. }
  assert (NoDup cs.*1) as Hnd by (rewrite Hids; apply NoDup_seqZ).
  pose proof (chunk_texts_of_rows _ _ _ _ Hrows) as Htexts.
  rewrite <- Htexts in Hencode.
  pose proof (embed_chunks_zip env w2 cs embeddings Hcsne Hnd Hencode) as Hembed.
  destruct cs as [|c0 cs0]; [done|].
  set (cs := c0 :: cs0) in *.
  rewrite Hembed. cbv beta iota.
  set (w3 := add_event (EmbedCall (map (λ c : Z * Chunk, chunk_text c.2) cs)) w2).
  set (ce := pyzip cs.*1 embeddings).
  assert (length cs.*1 = length embeddings) as Hlen'
    by (rewrite length_fmap; lia).
  assert (dict_keys ce = cs.*1) as Hkeys by (by apply pyzip_fst_same_length).
  assert (ce.*2 = embeddings) as Hvals by (by apply pyzip_snd_same_length).
  assert (_load_user_index env (pdf_user pdf) w3 = (Returns (index, md), w3))
    as Hload3.
  { pose proof (load_same_files env (pdf_user pdf) w w3) as Hsame.
    pose proof (load_frame env (pdf_user pdf) w3) as Hframe.
    destruct (_load_user_index env (pdf_user pdf) w3) as [o w3'].
    simpl in Hframe. subst w3'. f_equal.
    simpl in Hsame. rewrite Hsame by done. by rewrite Hload. }
  assert (valid_batch (faiss_d index) ce = true) as Hvalid.
  { unfold valid_batch. rewrite <- forallb_dimension_values, Hvals, Hdim.
    change ce.*1 with (dict_keys ce). rewrite Hkeys.
    rewrite (bool_decide_eq_true_2 _ Hnd).
    rewrite bool_decide_eq_false_2; [done|].
    intros Hce. assert (dict_keys ce = []) as Hk by (by rewrite Hce).
    rewrite Hkeys in Hk. subst cs. discriminate. }
  rewrite Hu.
  pose proof (add_embeddings_valid_rows env (pdf_user pdf) ce w3 index md
                Hload3 Hvalid) as Hchunks4.
  destruct (add_embeddings_valid env (pdf_user pdf) ce w3 index md Hload3 Hvalid)
    as (w4 & Hw4 & Hadd).
  rewrite Hadd in *. cbn [snd] in Hchunks4. cbv beta iota.
  unfold PDFFile_save, mbind, M_bind, log, modify, mret, M_ret.
  cbv beta iota.
  eexists _, _, _. split.
  { do 3 f_equal. subst cs. rewrite <- Hlencs. reflexivity. }
  cbn [index_files metadata_files chunks add_event set_pdf_files set_index_dir
       snd].
  rewrite !lookup_insert_eq. split; [reflexivity|]. split; [reflexivity|].
  cbn [faiss_xb]. split; [by rewrite Hvals|].
  intros i ci Hci. rewrite Hkeys.
  assert (cs.*1 !! i = Some (next_chunk_id w + Z.of_nat i)) as Hid.
  { rewrite Hids. apply lookup_seqZ_lt. apply lookup_lt_Some in Hci. lia. }
  split; [by apply slots_added_lookup|].
  destruct (Forall2_lookup_r _ _ _ _ _ Hrows Hci) as ([cid row] & Hc & Hrow).
  simpl in Hrow. subst row.
  assert (cid = next_chunk_id w + Z.of_nat i) as ->.
  { rewrite list_lookup_fmap, Hc in Hid. by injection Hid. }
  cbn [set_index_dir chunks] in Hchunks4. rewrite Hchunks4, Hkeys.
  destruct (record_slots_rows (ntotal index) 0 cs.*1 md w3 Hnd) as [Hwritten _].
  rewrite (Hwritten i _ (chunk_row pdf_id (pdf_user pdf) ci) Hid).
  - do 4 f_equal; lia.
  - apply (Hin (next_chunk_id w + Z.of_nat i, chunk_row pdf_id (pdf_user pdf) ci)).
    apply list_elem_of_lookup. by exists i.
Qed.

Lemma ingestion_indexes_every_chunk_witness :
  ∃ w' index' md',
    process_pdf_async reading_env 10 10 two_users_world
    = (Returns (TaskCompleted 10 (Z.of_nat (length reading_chunks))), w')
    ∧ index_files w' !! pdf_user (sample_pdf 1 "a.pdf") = Some index'
    ∧ metadata_files w' !! pdf_user (sample_pdf 1 "a.pdf") = Some md'
    ∧ faiss_xb index' = faiss_xb (IndexFlatL2 1) ++ [[11]]
    ∧ ∀ (i : nat) ci, reading_chunks !! i = Some ci →
        md' !! (ntotal (IndexFlatL2 1) + Z.of_nat i)
        = Some (next_chunk_id two_users_world + Z.of_nat i)
        ∧ chunks w' !! (next_chunk_id two_users_world + Z.of_nat i)
          = Some (with_vector_id
                    (chunk_row 10 (pdf_user (sample_pdf 1 "a.pdf")) ci)
                    (Some (pretty (ntotal (IndexFlatL2 1) + Z.of_nat i)))).
Proof.
  apply (ingestion_indexes_every_chunk reading_env 10 10 two_users_world
           (sample_pdf 1 "a.pdf") ["Alpha  beta. "] reading_chunks [[11]]
           (IndexFlatL2 1) ∅).
  - reflexivity.
  - reflexivity.
  - vm_compute. reflexivity.
  - vm_compute. discriminate.
  - vm_compute. reflexivity.
  - vm_compute. reflexivity.
  - reflexivity.
  - reflexivity.
Defined.
